(** * Nested engagement and visibility engine of the social-media backend

    A shallow embedding of [models/Post.js] (the schemas, the validation
    hook, the static [findVisiblePosts] and the instance methods), of the
    middleware of [middleware/auth.js] that the post routes run
    ([validateRequest], [actionRateLimit]) and of the post router (the
    [express.Router()] that follows the seeding script in
    [scripts/seedDatabase.js]), followed by the properties of the engine.

    Conventions of the embedding.
    - An [ObjectId] is a number; only equality of identifiers is used.
    - A JavaScript string is a [string] whose characters stand for code
      units below 256; [String.length] then is the JavaScript [length].
    - Dates are milliseconds since the epoch, as [Date.now()] gives them.
    - A collection of MongoDB is the list of its documents, in storage
      order; an async function that may throw returns a [Result], and one
      that writes the collection takes it and returns the new one.
    - [save()] runs the validators of the schema over the whole document.
    - Request parameters arrive already parsed: identifiers are
      well-formed ObjectIds, [page] and [limit] are integers when present,
      and the [content] of a body is a string when present.
      A route behind [auth] takes the user that [auth] attached; a route
      behind [optionalAuth] takes the viewer, if any.
    - The [updatedAt] stamps, and the [createdAt] stamps of comments and
      replies, are read by nothing modelled here and are left out. *)

From stdpp Require Import base list sorting strings pretty gmap.
From Stdlib Require Import ZArith NArith Ascii Lia.

Local Open Scope string_scope.
Local Open Scope list_scope.

(** ** Thrown values and results of async functions *)

Inductive Thrown :=
| Error (message : string)            (* [throw new Error(message)]       *)
| ValidationError (errors : list string) (* Mongoose, thrown by [save()]  *)
| TypeError (message : string)        (* property read on [null]          *)
| MongoServerError (message : string). (* the server refused the command  *)

Inductive Result (A : Type) :=
| Ok (a : A)
| Throw (e : Thrown).
Arguments Ok {A} a.
Arguments Throw {A} e.

Definition bind {A B} (r : Result A) (k : A -> Result B) : Result B :=
  match r with
  | Ok a => k a
  | Throw e => Throw e
  end.

Notation "'await' x <- r ;; k" := (bind r (fun x => k))
  (at level 10, x pattern, r at level 99, k at level 200).

(** [error.message], as the [catch] blocks of the route handlers read it,
    to compare it with "Comment not found" or to look for "not found" in
    it. For a validation error Mongoose builds the message from its
    prefix and, for each failed path, the path and the message of the
    validator; the paths ([content], [images.0], [comments.0.content],
    ...) are left out here: they change no comparison that a handler
    makes. *)
Definition message_of (e : Thrown) : string :=
  match e with
  | Error m => m
  | ValidationError errs => "Post validation failed: " +:+ String.concat ", " errs
  | TypeError m => m
  | MongoServerError m => m
  end.

(** ** JavaScript strings *)

Module Js.

(** White space removed by [String.prototype.trim], below code unit 256. *)
Definition isWhiteSpace (c : ascii) : bool :=
  let n := nat_of_ascii c in
  (Nat.leb 9 n && Nat.leb n 13) || Nat.eqb n 32 || Nat.eqb n 160.

(** Line terminators, which [.] of a regular expression does not match. *)
Definition isLineTerminator (c : ascii) : bool :=
  let n := nat_of_ascii c in Nat.eqb n 10 || Nat.eqb n 13.

(** The list without its longest prefix of elements that satisfy [f]. *)
Fixpoint dropWhile {A} (f : A -> bool) (l : list A) : list A :=
  match l with
  | [] => []
  | x :: l' => if f x then dropWhile f l' else l
  end.

(** [s.trim()]: the white space at both ends is removed. *)
Definition trimList (l : list ascii) : list ascii :=
  rev (dropWhile isWhiteSpace (rev (dropWhile isWhiteSpace l))).

Definition trim (s : string) : string :=
  String.string_of_list_ascii (trimList (String.list_ascii_of_string s)).

(** Truthiness of a string: the empty string is falsy. *)
Definition truthy (s : string) : bool :=
  match s with EmptyString => false | _ => true end.

(** Truthiness of a possibly [undefined] string. *)
Definition truthy_opt (v : option string) : bool :=
  match v with None => false | Some s => truthy s end.

(** What follows [p] in [s], when [s] starts with [p]. *)
Fixpoint prefix (p s : string) : option string :=
  match p, s with
  | EmptyString, _ => Some s
  | String a p', String b s' => if Ascii.eqb a b then prefix p' s' else None
  | String _ _, EmptyString => None
  end.

(** [s.includes(needle)]. *)
Fixpoint includes (needle s : string) : bool :=
  match prefix needle s with
  | Some _ => true
  | None => match s with
            | EmptyString => false
            | String _ s' => includes needle s'
            end
  end.

(** [/^https?:\/\/.+/.test(s)]: one of the two schemes, then at least
    one character that is not a line terminator. *)
Definition dotPlus (rest : option string) : bool :=
  match rest with
  | Some (String c _) => negb (isLineTerminator c)
  | _ => false
  end.

Definition httpUrl_test (s : string) : bool :=
  dotPlus (prefix "http://" s) || dotPlus (prefix "https://" s).

End Js.

(** ** The schemas of [models/Post.js] *)

Abbreviation ObjectId := N (only parsing).

(** [a.equals(b)] on ObjectIds. *)
Definition equals (a b : ObjectId) : bool := N.eqb a b.

Record User := mkUser {
  user_id : ObjectId;
  username : string
}.

Record Reply := mkReply {
  reply_id : ObjectId;
  reply_content : string;
  reply_author : ObjectId;
  reply_likes : list ObjectId
}.

Record Comment := mkComment {
  comment_id : ObjectId;
  comment_content : string;
  comment_author : ObjectId;
  comment_likes : list ObjectId;
  comment_replies : list Reply
}.

Record Post := mkPost {
  post_id : ObjectId;
  post_content : string;
  post_images : list string;
  post_author : ObjectId;
  post_likes : list ObjectId;
  post_comments : list Comment;
  isHidden : bool;
  isDeleted : bool;
  createdAt : Z
}.

(** The virtuals [likesCount] and [commentsCount]. *)
Definition likesCount (p : Post) : nat := length (post_likes p).
Definition commentsCount (p : Post) : nat := length (post_comments p).

(** Field updates of a loaded document. *)
Definition set_post_likes (l : list ObjectId) (p : Post) : Post :=
  mkPost (post_id p) (post_content p) (post_images p) (post_author p)
         l (post_comments p) (isHidden p) (isDeleted p) (createdAt p).

Definition set_post_comments (cs : list Comment) (p : Post) : Post :=
  mkPost (post_id p) (post_content p) (post_images p) (post_author p)
         (post_likes p) cs (isHidden p) (isDeleted p) (createdAt p).

Definition set_comment_likes (l : list ObjectId) (c : Comment) : Comment :=
  mkComment (comment_id c) (comment_content c) (comment_author c) l
            (comment_replies c).

Definition set_comment_replies (rs : list Reply) (c : Comment) : Comment :=
  mkComment (comment_id c) (comment_content c) (comment_author c)
            (comment_likes c) rs.

Definition set_reply_likes (l : list ObjectId) (r : Reply) : Reply :=
  mkReply (reply_id r) (reply_content r) (reply_author r) l.

(** *** Mongoose arrays *)

(** [arr.some(x => x.equals(u))]. *)
Definition some_equals (u : ObjectId) (arr : list ObjectId) : bool :=
  existsb (fun like => equals like u) arr.

(** [arr.pull(u)] removes every element equal to [u]. *)
Definition pull (u : ObjectId) (arr : list ObjectId) : list ObjectId :=
  List.filter (fun like => negb (equals like u)) arr.

(** [arr.push(u)] appends. *)
Definition push {A} (x : A) (arr : list A) : list A := arr ++ [x].

(** [docs.id(i)]: the first subdocument whose [_id] is [i], or [null]. *)
Definition id {A} (get_id : A -> ObjectId) (docs : list A) (i : ObjectId)
  : option A :=
  List.find (fun d => equals (get_id d) i) docs.

(** Writing through the reference that [docs.id(i)] returned: the first
    subdocument whose [_id] is [i] is replaced by its mutated version. *)
Fixpoint update_id {A} (get_id : A -> ObjectId) (i : ObjectId) (f : A -> A)
  (docs : list A) : list A :=
  match docs with
  | [] => []
  | d :: ds => if equals (get_id d) i then f d :: ds
               else d :: update_id get_id i f ds
  end.

(** The [if (isLiked) pull else push] block shared by the three toggle
    methods. *)
Definition toggle (userId : ObjectId) (likes : list ObjectId)
  : list ObjectId :=
  if some_equals userId likes then pull userId likes else push userId likes.

(** *** Schema validation, run by [save()] *)

(** [required] on a String path fails on the empty string; [maxlength]
    compares the length. *)
Definition validateReply (r : Reply) : list string :=
  (if Js.truthy (reply_content r) then []
   else ["Reply content is required"]) ++
  (if Nat.ltb 200 (String.length (reply_content r))
   then ["Reply cannot exceed 200 characters"] else []).

Definition validateComment (c : Comment) : list string :=
  (if Js.truthy (comment_content c) then []
   else ["Comment content is required"]) ++
  (if Nat.ltb 500 (String.length (comment_content c))
   then ["Comment cannot exceed 500 characters"] else []) ++
  concat (map validateReply (comment_replies c)).

(** The [match] validator lets the empty string pass. *)
Definition validateImage (image : string) : list string :=
  if Js.truthy image && negb (Js.httpUrl_test image)
  then ["Invalid image URL"] else [].

(** [postSchema.pre('validate', ...)]: a post must have content or
    images. *)
Definition preValidate (this : Post) : list string :=
  if negb (Js.truthy (post_content this)) &&
     Nat.eqb (length (post_images this)) 0
  then ["Post must have either content or images"] else [].

Definition validate (this : Post) : list string :=
  preValidate this ++
  (if Nat.ltb 500 (String.length (post_content this))
   then ["Post content cannot exceed 500 characters"] else []) ++
  concat (map validateImage (post_images this)) ++
  concat (map validateComment (post_comments this)).

(** *** Documents built from plain data: the setters ([trim]) and the
    defaults of the schema apply; the driver supplies the new [_id]. *)

Record SubdocData := mkData {
  data_content : string;
  data_author : ObjectId
}.

Definition castReply (newId : ObjectId) (replyData : SubdocData) : Reply :=
  mkReply newId (Js.trim (data_content replyData)) (data_author replyData) [].

Definition castComment (newId : ObjectId) (commentData : SubdocData)
  : Comment :=
  mkComment newId (Js.trim (data_content commentData))
            (data_author commentData) [] [].

(** [new Post({ content, images, author })], stamped at [now]. *)
Definition newPost (newId : ObjectId) (content : string)
  (images : list string) (author : ObjectId) (now : Z) : Post :=
  mkPost newId (Js.trim content) images author [] [] false false now.

(** *** Persistence *)

(** The collection after the stored document with the [_id] of [doc] was
    replaced by [doc]. *)
Definition stored (db : list Post) (doc : Post) : list Post :=
  map (fun d => if equals (post_id d) (post_id doc) then doc else d) db.

(** [doc.save()]: validation first; a new document is inserted, a loaded
    one replaces the stored document with its [_id]. *)
Definition save (isNew : bool) (db : list Post) (doc : Post)
  : Result (list Post) :=
  match validate doc with
  | [] => Ok (if isNew then db ++ [doc] else stored db doc)
  | errs => Throw (ValidationError errs)
  end.

(** *** Instance methods

    Each method mutates the loaded document [this], saves it and returns
    it: the result pairs the document with the collection after the save.
    A method that throws has saved nothing. *)

Definition toggleLike (db : list Post) (this : Post) (userId : ObjectId)
  : Result (Post * list Post) :=
  let this' := set_post_likes (toggle userId (post_likes this)) this in
  await db' <- save false db this' ;;
  Ok (this', db').

Definition addComment (db : list Post) (this : Post) (newId : ObjectId)
  (commentData : SubdocData) : Result (Post * list Post) :=
  let this' :=
    set_post_comments
      (push (castComment newId commentData) (post_comments this)) this in
  await db' <- save false db this' ;;
  Ok (this', db').

Definition toggleCommentLike (db : list Post) (this : Post)
  (commentId userId : ObjectId) : Result (Post * list Post) :=
  match id comment_id (post_comments this) commentId with
  | None => Throw (Error "Comment not found")
  | Some _ =>
      let this' :=
        set_post_comments
          (update_id comment_id commentId
             (fun comment =>
                set_comment_likes (toggle userId (comment_likes comment))
                                  comment)
             (post_comments this)) this in
      await db' <- save false db this' ;;
      Ok (this', db')
  end.

Definition addReply (db : list Post) (this : Post) (commentId : ObjectId)
  (newId : ObjectId) (replyData : SubdocData) : Result (Post * list Post) :=
  match id comment_id (post_comments this) commentId with
  | None => Throw (Error "Comment not found")
  | Some _ =>
      let this' :=
        set_post_comments
          (update_id comment_id commentId
             (fun comment =>
                set_comment_replies
                  (push (castReply newId replyData) (comment_replies comment))
                  comment)
             (post_comments this)) this in
      await db' <- save false db this' ;;
      Ok (this', db')
  end.

Definition toggleReplyLike (db : list Post) (this : Post)
  (commentId replyId userId : ObjectId) : Result (Post * list Post) :=
  match id comment_id (post_comments this) commentId with
  | None => Throw (Error "Comment not found")
  | Some comment =>
      match id reply_id (comment_replies comment) replyId with
      | None => Throw (Error "Reply not found")
      | Some _ =>
          let this' :=
            set_post_comments
              (update_id comment_id commentId
                 (fun comment =>
                    set_comment_replies
                      (update_id reply_id replyId
                         (fun reply =>
                            set_reply_likes
                              (toggle userId (reply_likes reply)) reply)
                         (comment_replies comment))
                      comment)
                 (post_comments this)) this in
          await db' <- save false db this' ;;
          Ok (this', db')
      end
  end.

(** ** Queries of MongoDB *)

(** A sort specification is a list of paths with a direction, [-1] for
    descending. A document that has no value at a path sorts as [null],
    below every number and date. *)
Definition cmpKey (a b : option Z) : comparison :=
  match a, b with
  | None, None => Eq
  | None, Some _ => Lt
  | Some _, None => Gt
  | Some x, Some y => (x ?= y)%Z
  end.

Fixpoint cmpDocs {D} (field : string -> D -> option Z)
  (criteria : list (string * Z)) (a b : D) : comparison :=
  match criteria with
  | [] => Eq
  | (path, direction) :: rest =>
      match (if (direction <? 0)%Z
             then cmpKey (field path b) (field path a)
             else cmpKey (field path a) (field path b)) with
      | Eq => cmpDocs field rest a b
      | c => c
      end
  end.

(** [a] may come before [b] in the sorted output. *)
Definition sortLe {D} (field : string -> D -> option Z)
  (criteria : list (string * Z)) (a b : D) : bool :=
  match cmpDocs field criteria a b with
  | Gt => false
  | _ => true
  end.

Definition sortRel {D} (field : string -> D -> option Z)
  (criteria : list (string * Z)) : relation D :=
  fun a b => Is_true (sortLe field criteria a b).

#[global] Instance sortRel_dec {D} (field : string -> D -> option Z)
  (criteria : list (string * Z)) : RelDecision (sortRel field criteria).
Proof. intros a b. unfold sortRel. apply Is_true_dec. Defined.

(** [.sort(criteria)] of a query and [$sort] of a pipeline. Among
    documents that tie on every key the server promises no order; the
    merge sort keeps them in storage order. The statements below hold for
    whatever order the ties come in, or assume that there is no tie. *)
Definition mongoSort {D} (field : string -> D -> option Z)
  (criteria : list (string * Z)) (docs : list D) : list D :=
  merge_sort (sortRel field criteria) docs.

(** The number or date that a stored Post document has at [path]. The
    schema stores one such path, [createdAt]; [likesCount] and
    [commentsCount] are virtuals, computed by Mongoose on a hydrated
    document and absent from the stored one. *)
Definition storedField (path : string) (p : Post) : option Z :=
  if String.eqb path "createdAt" then Some (createdAt p) else None.

(** A post as the listings return it: the document with the two counts
    added as plain fields. *)
Record FeedPost := mkFeedPost {
  fp_post : Post;
  fp_likesCount : nat;
  fp_commentsCount : nat
}.

(** The number or date that a document of the trending pipeline has at
    [path], after [$addFields]. *)
Definition pipelineField (path : string) (d : FeedPost) : option Z :=
  if String.eqb path "likesCount" then Some (Z.of_nat (fp_likesCount d))
  else if String.eqb path "commentsCount"
       then Some (Z.of_nat (fp_commentsCount d))
  else storedField path (fp_post d).

(** *** The static [findVisiblePosts] *)

Record Options := mkOptions {
  opt_page : option Z;
  opt_limit : option Z;
  opt_author : option ObjectId;
  opt_userId : option ObjectId;
  opt_sortBy : option string
}.

(** [matchCriteria], as a predicate on stored documents. *)
Definition matchCriteria (author userId : option ObjectId) (p : Post)
  : bool :=
  negb (isDeleted p) &&
  match author with
  | Some a => equals (post_author p) a
  | None => true
  end &&
  match userId with
  | Some u => negb (isHidden p) || equals (post_author p) u
  | None => negb (isHidden p)
  end.

Definition sortCriteria (sortBy : string) : list (string * Z) :=
  if String.eqb sortBy "likes"
  then [("likesCount", (-1)%Z); ("createdAt", (-1)%Z)]
  else if String.eqb sortBy "comments"
  then [("commentsCount", (-1)%Z); ("createdAt", (-1)%Z)]
  else [("createdAt", (-1)%Z)].

(** [.skip(skip).limit(limit)] of a find query: the server refuses a
    negative skip; a limit of zero is no limit, and the driver sends the
    absolute value of a negative one. *)
Definition skipLimit {D} (skip limit : Z) (docs : list D)
  : Result (list D) :=
  if (skip <? 0)%Z
  then Throw (MongoServerError "Skip value must be non-negative")
  else
    let skipped := drop (Z.to_nat skip) docs in
    Ok (if (limit =? 0)%Z then skipped
        else take (Z.to_nat (Z.abs limit)) skipped).

Definition findVisiblePosts (db : list Post) (options : Options)
  : Result (list FeedPost) :=
  let page := default 1%Z (opt_page options) in
  let limit := default 10%Z (opt_limit options) in
  let author := opt_author options in
  let userId := opt_userId options in
  let sortBy := default "createdAt" (opt_sortBy options) in
  let skip := ((page - 1) * limit)%Z in
  await posts <-
    skipLimit skip limit
      (mongoSort storedField (sortCriteria sortBy)
         (List.filter (matchCriteria author userId) db)) ;;
  Ok (map (fun post =>
             mkFeedPost post (length (post_likes post))
                        (length (post_comments post)))
          posts).

(** ** HTTP responses *)

Inductive Payload :=
| NoPayload
| WithErrors (errors : list string)
| WithRetryAfter (seconds : Z)
| WithPost (post : Post)
| WithPage (posts : list FeedPost) (currentPage : Z) (totalPosts : nat)
           (hasMore : bool)
| WithPosts (posts : list FeedPost).

Record Response := mkResponse {
  status : nat;
  message : string;
  payload : Payload
}.

Definition postNotFound : Response :=
  mkResponse 404 "Post not found" NoPayload.

(** ** The middleware of [middleware/auth.js] *)

(** A rule of [validateRequest]. The rule sets of the post routes set
    [required], [maxLength] and [message] only; [pattern] and [validate]
    are [undefined] in all of them. *)
Record Rules := mkRules {
  required : bool;
  minLength : option nat;
  maxLength : option nat;
  rule_message : string
}.

Definition createPostValidation : list (string * Rules) :=
  [("content",
    mkRules false None (Some 500) "Post content cannot exceed 500 characters")].

Definition commentValidation : list (string * Rules) :=
  [("content",
    mkRules true None (Some 500) "Comment cannot exceed 500 characters")].

Definition replyValidation : list (string * Rules) :=
  [("content",
    mkRules true None (Some 200) "Reply cannot exceed 200 characters")].

(** The body of a request to the post routes. *)
Record Body := mkBody {
  body_content : option string;
  body_images : option (list string)
}.

(** [req.body[field]], for the fields that the rule sets name. *)
Definition bodyField (body : Body) (field : string) : option string :=
  if String.eqb field "content" then body_content body else None.

(** A bound that is [undefined] or [0] is falsy and skips its check. *)
Definition bound (b : option nat) : option nat :=
  match b with
  | Some 0 => None
  | _ => b
  end.

(** One turn of the loop of [validateRequest]. *)
Definition validateField (field : string) (rules : Rules)
  (value : option string) : list string :=
  if required rules &&
     (negb (Js.truthy_opt value) ||
      String.eqb (Js.trim (default "" value)) "")
  then [field +:+ " is required"]
  else if negb (Js.truthy_opt value) && negb (required rules)
  then []
  else
    let stringValue := default "" value in
    match bound (minLength rules) with
    | Some m =>
        if Nat.ltb (String.length stringValue) m
        then [field +:+ " must be at least " +:+ pretty m +:+ " characters long"]
        else []
    | None => []
    end ++
    match bound (maxLength rules) with
    | Some m =>
        if Nat.ltb m (String.length stringValue)
        then [field +:+ " cannot exceed " +:+ pretty m +:+ " characters"]
        else []
    | None => []
    end.

(** [validateRequest(validationRules)]: [None] is [next()]. *)
Definition validateRequest (validationRules : list (string * Rules))
  (body : Body) : option Response :=
  match concat (map (fun '(field, rules) =>
                       validateField field rules (bodyField body field))
                    validationRules) with
  | [] => None
  | errors => Some (mkResponse 400 "Validation failed" (WithErrors errors))
  end.

(** [actionRateLimit(maxActions, windowMs)]. The closure keeps one table
    per route, keyed by user and window ([now] is not negative, so neither
    is a window); [None] is [next()]. *)
Definition actionRateLimit (maxActions : nat) (windowMs : Z)
  (attempts : gmap (N * Z) nat) (userId : ObjectId) (now : Z)
  : option Response * gmap (N * Z) nat :=
  let currentWindow := (now / windowMs)%Z in
  let windowKey := (userId, currentWindow) in
  let attempts :=
    filter (fun kv : N * Z * nat => ¬ (kv.1.2 < currentWindow - 1)%Z)
           attempts in
  let currentAttempts := default 0 (attempts !! windowKey) in
  if Nat.leb maxActions currentAttempts
  then
    let timeUntilReset := (windowMs - now mod windowMs)%Z in
    (Some (mkResponse 429 "Too many requests. Please try again later."
             (WithRetryAfter ((timeUntilReset + 999) / 1000)%Z)),
     attempts)
  else (None, <[windowKey := S currentAttempts]> attempts).

(** ** The post routes *)

(** [populate]: the user document of an author, or [null]. *)
Definition populate (users : list User) (author : ObjectId) : option User :=
  List.find (fun u => equals (user_id u) author) users.

(** [req.resource]: the loaded post with its populated [author]. *)
Record Resource := mkResource {
  doc : Post;
  author : option User
}.

(** The middleware [getPost]: [inl] is the response it sends, [inr] the
    resource it hands to [next()]. *)
Definition getPost (users : list User) (db : list Post) (postId : ObjectId)
  : Response + Resource :=
  match List.find (fun p => equals (post_id p) postId && negb (isDeleted p))
                  db with
  | None => inl postNotFound
  | Some post => inr (mkResource post (populate users (post_author post)))
  end.

(** [post.author._id.equals(userId)]. *)
Definition authorEquals (post : Resource) (userId : ObjectId) : Result bool :=
  match author post with
  | None => Throw (TypeError "Cannot read properties of null (reading '_id')")
  | Some a => Ok (equals (user_id a) userId)
  end.

(** [post.isHidden && (!req.user || !post.author._id.equals(req.user._id))],
    the check of the read routes. *)
Definition hiddenFromViewer (post : Resource) (viewer : option User)
  : Result bool :=
  if isHidden (doc post) then
    match viewer with
    | None => Ok true
    | Some user =>
        await same <- authorEquals post (user_id user) ;; Ok (negb same)
    end
  else Ok false.

(** [post.isHidden && !post.author._id.equals(userId)], the check of the
    routes behind [auth]. *)
Definition hiddenFromUser (post : Resource) (userId : ObjectId)
  : Result bool :=
  if isHidden (doc post) then
    await same <- authorEquals post userId ;; Ok (negb same)
  else Ok false.

(** [content.substring(...)], [content.trim()]: calling a method of the
    [content] of the body throws when the body has none. *)
Definition receiver (method : string) (content : option string)
  : Result string :=
  match content with
  | Some s => Ok s
  | None =>
      Throw (TypeError ("Cannot read properties of undefined (reading '"
                        +:+ method +:+ "')"))
  end.

(** [try { ... } catch (error) { ... }] of a handler that may write the
    collection: what is thrown becomes the response of [onError], and
    nothing was saved. *)
Definition catch (db : list Post) (onError : Thrown -> Response)
  (body : Result (Response * list Post)) : Response * list Post :=
  match body with
  | Ok out => out
  | Throw e => (onError e, db)
  end.

Definition serverError (msg : string) : Thrown -> Response :=
  fun _ => mkResponse 500 msg NoPayload.

(** The chain after [getPost] of a route behind a rate limiter: the
    limiter answers or lets the handler run. *)
Definition limited (maxActions : nat) (windowMs : Z)
  (attempts : gmap (N * Z) nat) (userId : ObjectId) (now : Z)
  (db : list Post) (handler : Response * list Post)
  : Response * list Post * gmap (N * Z) nat :=
  match actionRateLimit maxActions windowMs attempts userId now with
  | (Some res, attempts') => (res, db, attempts')
  | (None, attempts') => (handler.1, handler.2, attempts')
  end.

(** [GET /api/posts/:postId] *)
Definition singlePostRoute (users : list User) (db : list Post)
  (viewer : option User) (postId : ObjectId) : Response :=
  match getPost users db postId with
  | inl res => res
  | inr post =>
      match hiddenFromViewer post viewer with
      | Ok true => postNotFound
      | Ok false => mkResponse 200 "" (WithPost (doc post))
      | Throw _ => mkResponse 500 "Error fetching post" NoPayload
      end
  end.

(** [POST /api/posts]: the handler, then the route with its middleware
    ([auth] supplies [user]). *)
Definition createPostHandler (db : list Post) (now : Z) (user : User)
  (newId : ObjectId) (body : Body) : Response * list Post :=
  let content := body_content body in
  let images := default [] (body_images body) in
  let trimmed := Js.trim <$> content in
  catch db (serverError "Error creating post")
    (if negb (Js.truthy_opt trimmed) && Nat.eqb (length images) 0
     then Ok (mkResponse 400 "Post must have either content or images"
                NoPayload, db)
     else if Nat.ltb 5 (length images)
     then Ok (mkResponse 400 "Maximum 5 images allowed per post" NoPayload, db)
     else if existsb (fun image =>
                        negb (Js.truthy image) ||
                        negb (Js.httpUrl_test image)) images
     then Ok (mkResponse 400 "Invalid image URL" NoPayload, db)
     else
       let post :=
         newPost newId
           (if Js.truthy_opt trimmed then default "" trimmed else "")
           images (user_id user) now in
       await db' <- save true db post ;;
       Ok (mkResponse 201 "Post created successfully" (WithPost post), db')).

Definition createPostRoute (db : list Post) (attempts : gmap (N * Z) nat)
  (now : Z) (user : User) (newId : ObjectId) (body : Body)
  : Response * list Post * gmap (N * Z) nat :=
  match validateRequest createPostValidation body with
  | Some res => (res, db, attempts)
  | None =>
      limited 20 (60 * 60 * 1000) attempts (user_id user) now db
        (createPostHandler db now user newId body)
  end.

(** [POST /api/posts/:postId/like] *)
Definition likeHandler (db : list Post) (user : User) (post : Resource)
  : Response * list Post :=
  let userId := user_id user in
  catch db (serverError "Error liking post")
    (await hidden <- hiddenFromUser post userId ;;
     if hidden then Ok (postNotFound, db)
     else
       await saved <- toggleLike db (doc post) userId ;;
       Ok (mkResponse 200 "Like toggled successfully" (WithPost saved.1), saved.2)).

Definition likeRoute (users : list User) (db : list Post)
  (attempts : gmap (N * Z) nat) (now : Z) (user : User) (postId : ObjectId)
  : Response * list Post * gmap (N * Z) nat :=
  match getPost users db postId with
  | inl res => (res, db, attempts)
  | inr post =>
      limited 50 (60 * 1000) attempts (user_id user) now db
        (likeHandler db user post)
  end.

(** [POST /api/posts/:postId/comments]; the log line at the head of the
    handler reads [content.substring(0, 50)] before the post is looked
    at. *)
Definition commentHandler (db : list Post) (user : User) (post : Resource)
  (newId : ObjectId) (body : Body) : Response * list Post :=
  catch db (serverError "Error adding comment")
    (await content <- receiver "substring" (body_content body) ;;
     await hidden <- hiddenFromUser post (user_id user) ;;
     if hidden then Ok (postNotFound, db)
     else
       let commentData := mkData (Js.trim content) (user_id user) in
       await saved <- addComment db (doc post) newId commentData ;;
       Ok (mkResponse 201 "Comment added successfully" (WithPost saved.1), saved.2)).

Definition commentRoute (users : list User) (db : list Post)
  (attempts : gmap (N * Z) nat) (now : Z) (user : User) (postId : ObjectId)
  (newId : ObjectId) (body : Body)
  : Response * list Post * gmap (N * Z) nat :=
  match getPost users db postId with
  | inl res => (res, db, attempts)
  | inr post =>
      match validateRequest commentValidation body with
      | Some res => (res, db, attempts)
      | None =>
          limited 30 (60 * 60 * 1000) attempts (user_id user) now db
            (commentHandler db user post newId body)
      end
  end.

(** [POST /api/posts/:postId/comments/:commentId/like] *)
Definition commentLikeHandler (db : list Post) (user : User)
  (post : Resource) (commentId : ObjectId) : Response * list Post :=
  let userId := user_id user in
  catch db
    (fun error =>
       if String.eqb (message_of error) "Comment not found"
       then mkResponse 404 "Comment not found" NoPayload
       else mkResponse 500 "Error liking comment" NoPayload)
    (await hidden <- hiddenFromUser post userId ;;
     if hidden then Ok (postNotFound, db)
     else
       await saved <-
         toggleCommentLike db (doc post) commentId userId ;;
       Ok (mkResponse 200 "Comment like toggled successfully"
             (WithPost saved.1), saved.2)).

Definition commentLikeRoute (users : list User) (db : list Post)
  (attempts : gmap (N * Z) nat) (now : Z) (user : User)
  (postId commentId : ObjectId)
  : Response * list Post * gmap (N * Z) nat :=
  match getPost users db postId with
  | inl res => (res, db, attempts)
  | inr post =>
      limited 50 (60 * 1000) attempts (user_id user) now db
        (commentLikeHandler db user post commentId)
  end.

(** [POST /api/posts/:postId/comments/:commentId/replies] *)
Definition replyHandler (db : list Post) (user : User) (post : Resource)
  (commentId newId : ObjectId) (body : Body) : Response * list Post :=
  catch db
    (fun error =>
       if String.eqb (message_of error) "Comment not found"
       then mkResponse 404 "Comment not found" NoPayload
       else mkResponse 500 "Error adding reply" NoPayload)
    (await hidden <- hiddenFromUser post (user_id user) ;;
     if hidden then Ok (postNotFound, db)
     else
       await content <- receiver "trim" (body_content body) ;;
       let replyData := mkData (Js.trim content) (user_id user) in
       await saved <-
         addReply db (doc post) commentId newId replyData ;;
       Ok (mkResponse 201 "Reply added successfully" (WithPost saved.1), saved.2)).

Definition replyRoute (users : list User) (db : list Post)
  (attempts : gmap (N * Z) nat) (now : Z) (user : User)
  (postId commentId newId : ObjectId) (body : Body)
  : Response * list Post * gmap (N * Z) nat :=
  match getPost users db postId with
  | inl res => (res, db, attempts)
  | inr post =>
      match validateRequest replyValidation body with
      | Some res => (res, db, attempts)
      | None =>
          limited 30 (60 * 60 * 1000) attempts (user_id user) now db
            (replyHandler db user post commentId newId body)
      end
  end.

(** [POST /api/posts/:postId/comments/:commentId/replies/:replyId/like] *)
Definition replyLikeHandler (db : list Post) (user : User) (post : Resource)
  (commentId replyId : ObjectId) : Response * list Post :=
  let userId := user_id user in
  catch db
    (fun error =>
       if Js.includes "not found" (message_of error)
       then mkResponse 404 (message_of error) NoPayload
       else mkResponse 500 "Error liking reply" NoPayload)
    (await hidden <- hiddenFromUser post userId ;;
     if hidden then Ok (postNotFound, db)
     else
       await saved <-
         toggleReplyLike db (doc post) commentId replyId userId ;;
       Ok (mkResponse 200 "Reply like toggled successfully"
             (WithPost saved.1), saved.2)).

Definition replyLikeRoute (users : list User) (db : list Post)
  (attempts : gmap (N * Z) nat) (now : Z) (user : User)
  (postId commentId replyId : ObjectId)
  : Response * list Post * gmap (N * Z) nat :=
  match getPost users db postId with
  | inl res => (res, db, attempts)
  | inr post =>
      limited 50 (60 * 1000) attempts (user_id user) now db
        (replyLikeHandler db user post commentId replyId)
  end.

(** [GET /api/posts], the feed. *)
Definition feedRoute (db : list Post) (viewer : option User)
  (page limit : option Z) (sortBy : option string) : Response :=
  let page := default 1%Z page in
  let limit := default 10%Z limit in
  let sortBy := default "createdAt" sortBy in
  match findVisiblePosts db
          (mkOptions (Some page) (Some limit) None (user_id <$> viewer)
                     (Some sortBy)) with
  | Ok posts =>
      mkResponse 200 ""
        (WithPage posts page (length posts)
                  (Z.of_nat (length posts) =? limit)%Z)
  | Throw _ => mkResponse 500 "Failed to fetch posts" (WithPosts [])
  end.

(** [GET /api/posts/user/:username], the listing of one author.
    [User.findOne({ username })]: Mongoose casts the filter with the
    schema, and the setter [trim] of the path [username] applies to it. *)
Definition userPostsRoute (users : list User) (db : list Post)
  (viewer : option User) (name : string) (page limit : option Z)
  : Response :=
  let page := default 1%Z page in
  let limit := default 10%Z limit in
  match List.find (fun u => String.eqb (username u) (Js.trim name)) users with
  | None => mkResponse 404 "User not found" (WithPosts [])
  | Some user =>
      match findVisiblePosts db
              (mkOptions (Some page) (Some limit) (Some (user_id user))
                         (user_id <$> viewer) None) with
      | Ok posts =>
          mkResponse 200 ""
            (WithPage posts page (length posts)
                      (Z.of_nat (length posts) =? limit)%Z)
      | Throw _ => mkResponse 500 "Failed to fetch user posts" (WithPosts [])
      end
  end.

(** [GET /api/posts/trending]: the stages of the aggregation pipeline in
    order. [$limit] refuses a limit that is not positive; [$unwind] drops
    a post whose [$lookup] found no author. The viewer that
    [optionalAuth] resolved is not read. *)
Definition trendingRoute (users : list User) (db : list Post) (now : Z)
  (viewer : option User) (limit : option Z) : Response :=
  let limit := default 10%Z limit in
  let oneDayAgo := (now - 24 * 60 * 60 * 1000)%Z in
  let matched :=
    List.filter (fun p => negb (isDeleted p) && negb (isHidden p) &&
                          (oneDayAgo <=? createdAt p)%Z) db in
  let added :=
    map (fun p => mkFeedPost p (length (post_likes p))
                             (length (post_comments p))) matched in
  let sorted :=
    mongoSort pipelineField
      [("likesCount", (-1)%Z); ("commentsCount", (-1)%Z);
       ("createdAt", (-1)%Z)] added in
  if (limit <=? 0)%Z
  then mkResponse 500 "Error fetching trending posts" NoPayload
  else
    let limited := take (Z.to_nat limit) sorted in
    let unwound :=
      List.filter
        (fun d => bool_decide
                    (is_Some (populate users (post_author (fp_post d)))))
        limited in
    mkResponse 200 "" (WithPosts unwound).

(** ** The owner's routes *)

(** Field updates of a loaded document, continued. *)
Definition set_isHidden (b : bool) (p : Post) : Post :=
  mkPost (post_id p) (post_content p) (post_images p) (post_author p)
         (post_likes p) (post_comments p) b (isDeleted p) (createdAt p).

Definition set_isDeleted (b : bool) (p : Post) : Post :=
  mkPost (post_id p) (post_content p) (post_images p) (post_author p)
         (post_likes p) (post_comments p) (isHidden p) b (createdAt p).

(** [post.content = content; post.images = images]: the setter of
    [content] trims. *)
Definition set_content_images (content : string) (images : list string)
  (p : Post) : Post :=
  mkPost (post_id p) (Js.trim content) images (post_author p)
         (post_likes p) (post_comments p) (isHidden p) (isDeleted p)
         (createdAt p).

(** The middleware [checkOwnership()], on the default field [author];
    [None] is [next()]. The field holds the populated author, whose
    [equals] compares its [_id]; reading it on [null] throws inside the
    [try]. *)
Definition checkOwnership (resource : option Resource) (user : User)
  : option Response :=
  match resource with
  | None => Some (mkResponse 404 "Resource not found." NoPayload)
  | Some post =>
      match author post with
      | None =>
          Some (mkResponse 500 "Server error during ownership verification."
                  NoPayload)
      | Some owner =>
          if equals (user_id owner) (user_id user) then None
          else Some (mkResponse 403
                       "Access denied. You can only modify your own content."
                       NoPayload)
      end
  end.

(** [PATCH /api/posts/:postId/hide] *)
Definition hideHandler (db : list Post) (post : Resource)
  : Response * list Post :=
  catch db (serverError "Error hiding/unhiding post")
    (let post' := set_isHidden (negb (isHidden (doc post))) (doc post) in
     await db' <- save false db post' ;;
     Ok (mkResponse 200
           (if isHidden post' then "Post hidden successfully"
            else "Post unhidden successfully")
           (WithPost post'), db')).

Definition hideRoute (users : list User) (db : list Post) (user : User)
  (postId : ObjectId) : Response * list Post :=
  match getPost users db postId with
  | inl res => (res, db)
  | inr post =>
      match checkOwnership (Some post) user with
      | Some res => (res, db)
      | None => hideHandler db post
      end
  end.

(** [DELETE /api/posts/:postId]: the soft delete. *)
Definition deleteHandler (db : list Post) (post : Resource)
  : Response * list Post :=
  catch db (serverError "Error deleting post")
    (let post' := set_isDeleted true (doc post) in
     await db' <- save false db post' ;;
     Ok (mkResponse 200 "Post deleted successfully" NoPayload, db')).

Definition deleteRoute (users : list User) (db : list Post) (user : User)
  (postId : ObjectId) : Response * list Post :=
  match getPost users db postId with
  | inl res => (res, db)
  | inr post =>
      match checkOwnership (Some post) user with
      | Some res => (res, db)
      | None => deleteHandler db post
      end
  end.

(** [PUT /api/posts/:postId] *)
Definition updateHandler (db : list Post) (post : Resource) (body : Body)
  : Response * list Post :=
  let content := body_content body in
  let images := default [] (body_images body) in
  let trimmed := Js.trim <$> content in
  catch db (serverError "Error updating post")
    (if negb (Js.truthy_opt trimmed) && Nat.eqb (length images) 0
     then Ok (mkResponse 400 "Post must have either content or images"
                NoPayload, db)
     else if Nat.ltb 5 (length images)
     then Ok (mkResponse 400 "Maximum 5 images allowed per post" NoPayload, db)
     else if existsb (fun image =>
                        negb (Js.truthy image) ||
                        negb (Js.httpUrl_test image)) images
     then Ok (mkResponse 400 "Invalid image URL" NoPayload, db)
     else
       let post' :=
         set_content_images
           (if Js.truthy_opt trimmed then default "" trimmed else "")
           images (doc post) in
       await db' <- save false db post' ;;
       Ok (mkResponse 200 "Post updated successfully" (WithPost post'), db')).

Definition updateRoute (users : list User) (db : list Post)
  (attempts : gmap (N * Z) nat) (now : Z) (user : User) (postId : ObjectId)
  (body : Body) : Response * list Post * gmap (N * Z) nat :=
  match getPost users db postId with
  | inl res => (res, db, attempts)
  | inr post =>
      match checkOwnership (Some post) user with
      | Some res => (res, db, attempts)
      | None =>
          match validateRequest createPostValidation body with
          | Some res => (res, db, attempts)
          | None =>
              limited 10 (60 * 60 * 1000) attempts (user_id user) now db
                (updateHandler db post body)
          end
      end
  end.

(** ** The user routes that read or write posts *)

(** [Post.updateMany({ author: userId }, { isHidden: true })], the write
    to the posts of [DELETE /api/users/account]. (The route also clears
    the [isActive] flag of the user, which no post route reads.) *)
Definition hidePostsOf (db : list Post) (userId : ObjectId) : list Post :=
  map (fun p => if equals (post_author p) userId then set_isHidden true p
                else p) db.

(** [$group: { _id: null, total: { $sum: ... } }]: one group when there is
    a document, none otherwise. *)
Definition groupSum (values : list nat) : list nat :=
  match values with
  | [] => []
  | _ => [list_sum values]
  end.

(** The three numbers that [GET /api/users/stats] computes from the posts;
    the follower counts of the response come from the user document. *)
Record Stats := mkStats {
  postsCount : nat;
  totalLikesReceived : nat;
  totalCommentsReceived : nat
}.

Definition userStats (db : list Post) (userId : ObjectId) : Stats :=
  let matched :=
    List.filter (fun p => equals (post_author p) userId &&
                          negb (isDeleted p)) db in
  mkStats (length matched)
          (default 0 (head (groupSum
                              (map (fun p => length (post_likes p)) matched))))
          (default 0 (head (groupSum
                              (map (fun p => length (post_comments p))
                                   matched)))).

(** Requests in a row to one limiter: the times of the requests of one
    user, oldest first; the result counts the admitted ones and gives the
    table after the last. *)
Fixpoint requests (maxActions : nat) (windowMs : Z)
  (attempts : gmap (N * Z) nat) (userId : ObjectId) (times : list Z)
  : nat * gmap (N * Z) nat :=
  match times with
  | [] => (0, attempts)
  | now :: later =>
      match actionRateLimit maxActions windowMs attempts userId now with
      | (Some _, attempts') =>
          requests maxActions windowMs attempts' userId later
      | (None, attempts') =>
          let '(n, final) :=
            requests maxActions windowMs attempts' userId later in
          (S n, final)
      end
  end.

(** ** Vocabulary of the statements *)

(** [after] is [before] with the actor toggled once: the actor is in
    [after] exactly when it was not in [before], and nobody else moves. *)
Definition toggled_once (A : ObjectId) (before after : list ObjectId)
  : Prop :=
  forall x, x ∈ after <-> (x ∈ before /\ x <> A) \/ (x = A /\ A ∉ before).

(** Two arrays hold the same set of likers. *)
Definition same_likers (l1 l2 : list ObjectId) : Prop :=
  forall x, x ∈ l1 <-> x ∈ l2.

(** The filtered, sorted sequence that the pages of [findVisiblePosts]
    are cut from. *)
Definition visibleSorted (db : list Post) (author userId : option ObjectId)
  (sortBy : string) : list Post :=
  mongoSort storedField (sortCriteria sortBy)
    (List.filter (matchCriteria author userId) db).

(** A listed post: the document with its two counts. *)
Definition feedDoc (post : Post) : FeedPost :=
  mkFeedPost post (length (post_likes post)) (length (post_comments post)).

(** The posts that a listing response carries. *)
Definition listed (res : Response) : list Post :=
  match payload res with
  | WithPage posts _ _ _ => fp_post <$> posts
  | WithPosts posts => fp_post <$> posts
  | _ => []
  end.

(** The predicate in the spec's wording, for comparison with the code: a Post
    is visible iff [post.isDeleted == false] AND ([post.isHidden == false]
    OR [viewerId == post.author]); an absent viewer equals no author. *)
Definition isVisible (post : Post) (viewerId : option ObjectId) : bool :=
  negb (isDeleted post) &&
  (negb (isHidden post) || bool_decide (viewerId = Some (post_author post))).

(** The order of the trending listing, read off two listed posts:
    like-count descending, then comment-count descending, then creation
    time descending. *)
Definition trendingOrder (d1 d2 : FeedPost) : Prop :=
  fp_likesCount d1 >= fp_likesCount d2 /\
  (fp_likesCount d1 = fp_likesCount d2 ->
   fp_commentsCount d1 >= fp_commentsCount d2 /\
   (fp_commentsCount d1 = fp_commentsCount d2 ->
    (createdAt (fp_post d1) >= createdAt (fp_post d2))%Z)).

(** A post that the [$match] stage of the trending pipeline keeps. *)
Definition trendingMatch (now : Z) (p : Post) : bool :=
  negb (isDeleted p) && negb (isHidden p) &&
  (now - 24 * 60 * 60 * 1000 <=? createdAt p)%Z.

(** The window in the spec's wording, for comparison with the code: offsets
    [p * n] through [p * n + n - 1] of the sequence. *)
Definition zeroBasedWindow {D} (p n : nat) (seq : list D) : list D :=
  take n (drop (p * n) seq).


(** ** Concrete documents *)

(** A hidden post by user 1, with the accounts of its author and of
    another user. *)
Definition alice : User := mkUser 1 "alice".
Definition bob : User := mkUser 2 "bob".
Definition hiddenPost : Post :=
  mkPost 20 "secret" [] 1 [] [] true false 3000.

(** Two stored posts by user 1: the older one has one like, the newer one
    has none. *)
Definition olderLiked : Post :=
  mkPost 10 "old" [] 1 [2%N] [] false false 1000.
Definition newerUnliked : Post :=
  mkPost 11 "new" [] 1 [] [] false false 2000.
Definition twoPosts : list Post := [olderLiked; newerUnliked].

(** A post by user 1 with one comment by user 2 that has one reply, and a
    deleted post. *)
Definition threadPost : Post :=
  mkPost 30 "hello" [] 1 []
         [mkComment 31 "nice" 2 [] [mkReply 32 "thanks" 1 []]]
         false false 4000.
Definition deletedPost : Post :=
  mkPost 40 "gone" [] 1 [3%N] [] false true 500.

(** Closed decidable side conditions. *)
Ltac decided :=
  match goal with
  | |- ?G => apply (bool_decide_eq_true_1 G); vm_compute; reflexivity
  end.

(** * Properties *)

(** ** Results of the monad *)

Lemma bind_Ok {A B} (r : Result A) (k : A -> Result B) (b : B) :
  bind r k = Ok b -> exists a, r = Ok a /\ k a = Ok b.
Proof. destruct r as [a|e]; simpl; [eauto | discriminate]. Qed.

(** ** Mongoose arrays and the toggle block *)

Section Arrays.

Lemma equals_eq (a b : ObjectId) : equals a b = true <-> a = b.
Proof. apply N.eqb_eq. Qed.

Lemma equals_refl (a : ObjectId) : equals a a = true.
Proof. apply N.eqb_refl. Qed.

Lemma equals_neq (a b : ObjectId) : equals a b = false <-> a <> b.
Proof. apply N.eqb_neq. Qed.

Lemma some_equals_elem (u : ObjectId) (arr : list ObjectId) :
  some_equals u arr = true <-> u ∈ arr.
Proof.
  unfold some_equals. rewrite existsb_exists, list_elem_of_In. split.
  - intros (x & Hin & Heq). apply equals_eq in Heq. now subst.
  - intros Hin. exists u. split; [assumption | apply equals_refl].
Qed.

Lemma elem_of_pull (x u : ObjectId) (arr : list ObjectId) :
  x ∈ pull u arr <-> x ∈ arr /\ x <> u.
Proof.
  unfold pull. rewrite !list_elem_of_In, filter_In.
  rewrite negb_true_iff, equals_neq. reflexivity.
Qed.

Lemma elem_of_push (x u : ObjectId) (arr : list ObjectId) :
  x ∈ push u arr <-> x ∈ arr \/ x = u.
Proof.
  unfold push. rewrite elem_of_app, list_elem_of_singleton. reflexivity.
Qed.

(** One application adds an absent actor and removes a present one;
    nobody else moves. *)
Lemma toggle_elem (x u : ObjectId) (likes : list ObjectId) :
  x ∈ toggle u likes <-> (x ∈ likes /\ x <> u) \/ (x = u /\ u ∉ likes).
Proof.
  unfold toggle. destruct (some_equals u likes) eqn:Hsome.
  - apply some_equals_elem in Hsome. rewrite elem_of_pull. tauto.
  - assert (u ∉ likes) as Hnot.
    { intros Hin. apply some_equals_elem in Hin. congruence. }
    rewrite elem_of_push. split.
    + intros [Hin | ->]; [left | right]; split; try assumption; try reflexivity.
      intros ->. contradiction.
    + intros [[Hin _] | [-> _]]; [left | right]; auto.
Qed.

Lemma toggle_toggle_elem (x u : ObjectId) (likes : list ObjectId) :
  x ∈ toggle u (toggle u likes) <-> x ∈ likes.
Proof.
  rewrite toggle_elem. rewrite !toggle_elem.
  destruct (decide (x = u)) as [-> | Hne];
    destruct (decide (u ∈ likes)) as [Hin | Hnin]; tauto.
Qed.

(** When the actor was absent, even the stored array comes back. *)
Lemma toggle_toggle_absent (u : ObjectId) (likes : list ObjectId) :
  u ∉ likes -> toggle u (toggle u likes) = likes.
Proof.
  intros Hnot.
  assert (some_equals u likes = false) as H1.
  { destruct (some_equals u likes) eqn:E; [| reflexivity].
    apply some_equals_elem in E. contradiction. }
  unfold toggle at 2. rewrite H1.
  assert (some_equals u (push u likes) = true) as H2.
  { apply some_equals_elem, elem_of_push. now right. }
  unfold toggle. rewrite H2. unfold pull, push.
  rewrite List.filter_app. simpl. rewrite equals_refl. simpl.
  rewrite app_nil_r. apply forallb_filter_id, forallb_forall.
  intros y Hy. apply negb_true_iff, equals_neq. intros ->.
  apply Hnot, list_elem_of_In, Hy.
Qed.

Context {A : Type} (get_id : A -> ObjectId).

Lemma id_update_id (docs : list A) (i : ObjectId) (f : A -> A) :
  (forall d, get_id (f d) = get_id d) ->
  id get_id (update_id get_id i f docs) i = f <$> id get_id docs i.
Proof.
  intros Hid. unfold id. induction docs as [| d ds IH]; simpl; [reflexivity |].
  destruct (equals (get_id d) i) eqn:E; simpl.
  - now rewrite Hid, E.
  - now rewrite E.
Qed.

Lemma concat_map_update_id {B} (v : A -> list B) (docs : list A)
  (i : ObjectId) (f : A -> A) :
  (forall d, v (f d) = v d) ->
  concat (map v (update_id get_id i f docs)) = concat (map v docs).
Proof.
  intros Hv. induction docs as [| d ds IH]; simpl; [reflexivity |].
  destruct (equals (get_id d) i); simpl; [now rewrite Hv | now rewrite IH].
Qed.

End Arrays.

(** ** Validation does not read the liker sets *)

Lemma validate_update_comments (p : Post) (i : ObjectId)
  (f : Comment -> Comment) :
  (forall c, validateComment (f c) = validateComment c) ->
  validate (set_post_comments
              (update_id comment_id i f (post_comments p)) p) = validate p.
Proof.
  intros Hf. unfold validate, preValidate. simpl.
  now rewrite (concat_map_update_id comment_id validateComment _ _ _ Hf).
Qed.

Lemma validateComment_update_replies (c : Comment) (i : ObjectId)
  (g : Reply -> Reply) :
  (forall r, validateReply (g r) = validateReply r) ->
  validateComment
    (set_comment_replies (update_id reply_id i g (comment_replies c)) c)
  = validateComment c.
Proof.
  intros Hg. unfold validateComment. simpl.
  now rewrite (concat_map_update_id reply_id validateReply _ _ _ Hg).
Qed.

Lemma save_Ok_valid (isNew : bool) (db db' : list Post) (doc : Post) :
  save isNew db doc = Ok db' -> validate doc = [].
Proof. unfold save. destruct (validate doc); [reflexivity | discriminate]. Qed.

(** ** Like-toggling (claim C3) *)

Lemma saved_method (db : list Post) (this' : Post) :
  validate this' = [] ->
  (await db' <- save false db this' ;; Ok (this', db'))
  = Ok (this', stored db this').
Proof. intros H. unfold save. now rewrite H. Qed.

Lemma toggleLike_valid (db : list Post) (P : Post) (A : ObjectId) :
  validate P = [] ->
  let P1 := set_post_likes (toggle A (post_likes P)) P in
  toggleLike db P A = Ok (P1, stored db P1) /\ validate P1 = [].
Proof.
  intros H P1. split; [| exact H].
  unfold toggleLike. now apply saved_method.
Qed.

Lemma toggleCommentLike_valid (db : list Post) (P : Post)
  (cid A : ObjectId) (c : Comment) :
  validate P = [] ->
  id comment_id (post_comments P) cid = Some c ->
  exists P1,
    toggleCommentLike db P cid A = Ok (P1, stored db P1) /\
    validate P1 = [] /\
    id comment_id (post_comments P1) cid
    = Some (set_comment_likes (toggle A (comment_likes c)) c).
Proof.
  intros Hv Hc. eexists. unfold toggleCommentLike. rewrite Hc.
  split; [apply saved_method | split].
  - rewrite validate_update_comments; [exact Hv | reflexivity].
  - rewrite validate_update_comments; [exact Hv | reflexivity].
  - simpl. rewrite id_update_id by reflexivity. now rewrite Hc.
Qed.

Lemma toggleReplyLike_valid (db : list Post) (P : Post)
  (cid rid A : ObjectId) (c : Comment) (r : Reply) :
  validate P = [] ->
  id comment_id (post_comments P) cid = Some c ->
  id reply_id (comment_replies c) rid = Some r ->
  exists P1 c1,
    toggleReplyLike db P cid rid A = Ok (P1, stored db P1) /\
    validate P1 = [] /\
    id comment_id (post_comments P1) cid = Some c1 /\
    id reply_id (comment_replies c1) rid
    = Some (set_reply_likes (toggle A (reply_likes r)) r).
Proof.
  intros Hv Hc Hr. unfold toggleReplyLike. rewrite Hc, Hr.
  eexists. eexists.
  assert (forall c0 : Comment,
    validateComment
      (set_comment_replies
         (update_id reply_id rid
            (fun reply => set_reply_likes (toggle A (reply_likes reply)) reply)
            (comment_replies c0)) c0) = validateComment c0) as Hpres.
  { intros c0. now apply validateComment_update_replies. }
  split; [apply saved_method | split; [| split]].
  - rewrite validate_update_comments; assumption.
  - rewrite validate_update_comments; assumption.
  - simpl. rewrite id_update_id by reflexivity. rewrite Hc. reflexivity.
  - simpl. rewrite id_update_id by reflexivity. now rewrite Hr.
Qed.

(** C3. Like-toggling is pair-idempotent at every nesting depth: on a
    stored (valid) post, toggling by the same actor twice in succession
    succeeds both times and gives the resolved entity (the post, an
    existing comment, an existing reply) the liker set it had before,
    while one application adds the actor if absent and removes it if
    present. *)
Theorem toggle_pair_idempotent (db : list Post) (P : Post) (A : ObjectId) :
  validate P = [] ->
  (exists P1 db1 P2 db2,
      toggleLike db P A = Ok (P1, db1) /\
      toggled_once A (post_likes P) (post_likes P1) /\
      toggleLike db1 P1 A = Ok (P2, db2) /\
      same_likers (post_likes P2) (post_likes P)) /\
  (forall cid c,
      id comment_id (post_comments P) cid = Some c ->
      exists P1 db1 c1 P2 db2 c2,
        toggleCommentLike db P cid A = Ok (P1, db1) /\
        id comment_id (post_comments P1) cid = Some c1 /\
        toggled_once A (comment_likes c) (comment_likes c1) /\
        toggleCommentLike db1 P1 cid A = Ok (P2, db2) /\
        id comment_id (post_comments P2) cid = Some c2 /\
        same_likers (comment_likes c2) (comment_likes c)) /\
  (forall cid rid c r,
      id comment_id (post_comments P) cid = Some c ->
      id reply_id (comment_replies c) rid = Some r ->
      exists P1 db1 c1 r1 P2 db2 c2 r2,
        toggleReplyLike db P cid rid A = Ok (P1, db1) /\
        id comment_id (post_comments P1) cid = Some c1 /\
        id reply_id (comment_replies c1) rid = Some r1 /\
        toggled_once A (reply_likes r) (reply_likes r1) /\
        toggleReplyLike db1 P1 cid rid A = Ok (P2, db2) /\
        id comment_id (post_comments P2) cid = Some c2 /\
        id reply_id (comment_replies c2) rid = Some r2 /\
        same_likers (reply_likes r2) (reply_likes r)).
Proof.
  intros Hv. split; [| split].
  - destruct (toggleLike_valid db P A Hv) as [H1 Hv1].
    destruct (toggleLike_valid
                (stored db (set_post_likes (toggle A (post_likes P)) P))
                _ A Hv1) as [H2 _].
    do 4 eexists. split; [exact H1 | split; [| split; [exact H2 |]]].
    + intros x. simpl. apply toggle_elem.
    + intros x. simpl. apply toggle_toggle_elem.
  - intros cid c Hc.
    destruct (toggleCommentLike_valid db P cid A c Hv Hc)
      as (P1 & H1 & Hv1 & Hc1).
    destruct (toggleCommentLike_valid (stored db P1) P1 cid A _ Hv1 Hc1)
      as (P2 & H2 & _ & Hc2).
    do 6 eexists.
    split; [exact H1 | split; [exact Hc1 | split; [| split; [exact H2 |
      split; [exact Hc2 |]]]]].
    + intros x. simpl. apply toggle_elem.
    + intros x. simpl. apply toggle_toggle_elem.
  - intros cid rid c r Hc Hr.
    destruct (toggleReplyLike_valid db P cid rid A c r Hv Hc Hr)
      as (P1 & c1 & H1 & Hv1 & Hc1 & Hr1).
    destruct (toggleReplyLike_valid (stored db P1) P1 cid rid A c1 _
                Hv1 Hc1 Hr1) as (P2 & c2 & H2 & _ & Hc2 & Hr2).
    do 8 eexists.
    split; [exact H1 | split; [exact Hc1 | split; [exact Hr1 | split;
      [| split; [exact H2 | split; [exact Hc2 | split; [exact Hr2 |]]]]]]].
    + intros x. simpl. apply toggle_elem.
    + intros x. simpl. apply toggle_toggle_elem.
Qed.

(** ** Routes behind the rate limiter *)

Lemma limited_cases (maxActions : nat) (windowMs : Z)
  (attempts : gmap (N * Z) nat) (userId : ObjectId) (now : Z)
  (db : list Post) (handler : Response * list Post) :
  (exists res attempts',
      actionRateLimit maxActions windowMs attempts userId now
      = (Some res, attempts') /\ status res = 429 /\
      limited maxActions windowMs attempts userId now db handler
      = (res, db, attempts')) \/
  (exists attempts',
      actionRateLimit maxActions windowMs attempts userId now
      = (None, attempts') /\
      limited maxActions windowMs attempts userId now db handler
      = (handler.1, handler.2, attempts')).
Proof.
  unfold limited, actionRateLimit.
  match goal with |- context [Nat.leb ?a ?b] => destruct (Nat.leb a b) end.
  - left. do 2 eexists. repeat split.
  - right. eexists. repeat split.
Qed.

Lemma limited_db (maxActions : nat) (windowMs : Z)
  (attempts : gmap (N * Z) nat) (userId : ObjectId) (now : Z)
  (db : list Post) (handler : Response * list Post) :
  handler.2 = db ->
  (limited maxActions windowMs attempts userId now db handler).1.2 = db.
Proof.
  intros H.
  destruct (limited_cases maxActions windowMs attempts userId now db handler)
    as [(res & a & _ & _ & ->) | (a & _ & ->)]; simpl; auto.
Qed.

Lemma limited_pass (maxActions : nat) (windowMs : Z)
  (attempts : gmap (N * Z) nat) (userId : ObjectId) (now : Z)
  (db : list Post) (handler : Response * list Post) :
  (actionRateLimit maxActions windowMs attempts userId now).1 = None ->
  (limited maxActions windowMs attempts userId now db handler).1 = handler.
Proof.
  intros H.
  destruct (limited_cases maxActions windowMs attempts userId now db handler)
    as [(res & a & E & _ & _) | (a & _ & ->)].
  - rewrite E in H. discriminate.
  - simpl. now destruct handler.
Qed.

(** ** Nested mutation against a missing target (claims C6, C7) *)

(** A request that passed a rule set in which [content] is required has
    a [content]. *)
Lemma validated_has_content (max : option nat) (msg : string) (body : Body) :
  validateRequest [("content", mkRules true None max msg)] body = None ->
  is_Some (body_content body).
Proof.
  unfold validateRequest, validateField, bodyField. simpl.
  destruct (body_content body) as [s |]; [eauto | discriminate].
Qed.

Lemma replyHandler_missing_comment (db : list Post) (user : User)
  (post : Resource) (cid newId : ObjectId) (body : Body) :
  id comment_id (post_comments (doc post)) cid = None ->
  (replyHandler db user post cid newId body).2 = db /\
  (hiddenFromUser post (user_id user) = Ok false ->
   is_Some (body_content body) ->
   replyHandler db user post cid newId body
   = (mkResponse 404 "Comment not found" NoPayload, db)).
Proof.
  intros Hc. unfold replyHandler, addReply. rewrite Hc.
  destruct (hiddenFromUser post (user_id user)) as [[|]|e]; simpl.
  - split; [reflexivity | discriminate].
  - destruct (body_content body) as [s |]; simpl.
    + split; reflexivity.
    + split; [reflexivity |]. intros _ [s Hs]. discriminate.
  - split; [reflexivity | discriminate].
Qed.

(** C6. [addReply] with a comment identifier that the post's comments do
    not contain throws "Comment not found", which the route answers with
    404; the stored collection is what it was, on every path of the
    route. *)
Theorem addReply_missing_comment (users : list User) (db : list Post)
  (attempts : gmap (N * Z) nat) (now : Z) (user : User)
  (pid cid newId : ObjectId) (body : Body) (replyData : SubdocData)
  (post : Resource) :
  getPost users db pid = inr post ->
  id comment_id (post_comments (doc post)) cid = None ->
  addReply db (doc post) cid newId replyData
  = Throw (Error "Comment not found") /\
  (replyRoute users db attempts now user pid cid newId body).1.2 = db /\
  (validateRequest replyValidation body = None ->
   (actionRateLimit 30 (60 * 60 * 1000) attempts (user_id user) now).1
   = None ->
   hiddenFromUser post (user_id user) = Ok false ->
   (replyRoute users db attempts now user pid cid newId body).1.1
   = mkResponse 404 "Comment not found" NoPayload).
Proof.
  intros Hget Hc.
  destruct (replyHandler_missing_comment db user post cid newId body Hc)
    as [Hdb H404].
  split; [| split].
  - unfold addReply. now rewrite Hc.
  - unfold replyRoute. rewrite Hget.
    destruct (validateRequest replyValidation body); [reflexivity |].
    now apply limited_db.
  - intros Hval Hlim Hvis. unfold replyRoute. rewrite Hget, Hval.
    rewrite limited_pass by exact Hlim.
    rewrite H404; [reflexivity | exact Hvis |].
    exact (validated_has_content _ _ _ Hval).
Qed.

Lemma replyLikeHandler_thrown (db : list Post) (user : User)
  (post : Resource) (cid rid : ObjectId) (msg : string) :
  toggleReplyLike db (doc post) cid rid (user_id user) = Throw (Error msg) ->
  Js.includes "not found" msg = true ->
  (replyLikeHandler db user post cid rid).2 = db /\
  (hiddenFromUser post (user_id user) = Ok false ->
   replyLikeHandler db user post cid rid
   = (mkResponse 404 msg NoPayload, db)).
Proof.
  intros Ht Hinc. unfold replyLikeHandler. rewrite Ht.
  destruct (hiddenFromUser post (user_id user)) as [[|]|e]; simpl.
  - split; [reflexivity | discriminate].
  - rewrite Hinc. split; reflexivity.
  - split; [| discriminate].
    now destruct (Js.includes "not found" (message_of e)).
Qed.

(** C7. [toggleReplyLike] tells the depth at which resolution failed:
    "Comment not found" when the comment is absent, "Reply not found"
    when the comment exists and the reply is absent; the route answers
    404 with that message and the stored collection is what it was. *)
Theorem toggleReplyLike_not_found (users : list User) (db : list Post)
  (attempts : gmap (N * Z) nat) (now : Z) (user : User)
  (pid cid rid : ObjectId) (post : Resource) :
  getPost users db pid = inr post ->
  let route := replyLikeRoute users db attempts now user pid cid rid in
  let reaches :=
    (actionRateLimit 50 (60 * 1000) attempts (user_id user) now).1 = None /\
    hiddenFromUser post (user_id user) = Ok false in
  (id comment_id (post_comments (doc post)) cid = None ->
   (forall A, toggleReplyLike db (doc post) cid rid A
              = Throw (Error "Comment not found")) /\
   route.1.2 = db /\
   (reaches -> route.1.1 = mkResponse 404 "Comment not found" NoPayload)) /\
  (forall c,
   id comment_id (post_comments (doc post)) cid = Some c ->
   id reply_id (comment_replies c) rid = None ->
   (forall A, toggleReplyLike db (doc post) cid rid A
              = Throw (Error "Reply not found")) /\
   route.1.2 = db /\
   (reaches -> route.1.1 = mkResponse 404 "Reply not found" NoPayload)).
Proof.
  intros Hget route reaches. subst route reaches.
  unfold replyLikeRoute. rewrite Hget. split.
  - intros Hc.
    assert (forall A, toggleReplyLike db (doc post) cid rid A
                      = Throw (Error "Comment not found")) as Ht.
    { intros A. unfold toggleReplyLike. now rewrite Hc. }
    destruct (replyLikeHandler_thrown db user post cid rid _
                (Ht (user_id user)) eq_refl) as [Hdb H404].
    split; [exact Ht | split].
    + now apply limited_db.
    + intros [Hlim Hvis]. rewrite limited_pass by exact Hlim.
      now rewrite H404.
  - intros c Hc Hr.
    assert (forall A, toggleReplyLike db (doc post) cid rid A
                      = Throw (Error "Reply not found")) as Ht.
    { intros A. unfold toggleReplyLike. now rewrite Hc, Hr. }
    destruct (replyLikeHandler_thrown db user post cid rid _
                (Ht (user_id user)) eq_refl) as [Hdb H404].
    split; [exact Ht | split].
    + now apply limited_db.
    + intros [Hlim Hvis]. rewrite limited_pass by exact Hlim.
      now rewrite H404.
Qed.

(** ** The sort order *)

Section SortOrder.

Lemma cmpKey_cases (p q r : option Z) :
  match cmpKey p q, cmpKey q r with
  | Eq, y => cmpKey p r = y
  | x, Eq => cmpKey p r = x
  | Lt, Lt => cmpKey p r = Lt
  | Gt, Gt => cmpKey p r = Gt
  | _, _ => True
  end.
Proof.
  destruct p as [x|], q as [y|], r as [z|]; simpl; trivial;
    try (destruct (Z.compare_spec x y); subst; trivial; fail);
    try (destruct (Z.compare_spec y z); subst; trivial; fail).
  destruct (Z.compare_spec x y), (Z.compare_spec y z); subst; trivial;
    try (apply Z.compare_lt_iff; lia); try (apply Z.compare_gt_iff; lia).
  apply Z.compare_refl.
Qed.

Lemma cmpKey_antisym (p q : option Z) :
  cmpKey q p = CompOpp (cmpKey p q).
Proof.
  destruct p, q; simpl; trivial. apply Z.compare_antisym.
Qed.

Context {D : Type} (field : string -> D -> option Z).

Lemma cmpDocs_antisym (criteria : list (string * Z)) (a b : D) :
  cmpDocs field criteria b a = CompOpp (cmpDocs field criteria a b).
Proof.
  induction criteria as [| [path direction] rest IH]; simpl; [reflexivity |].
  destruct (direction <? 0)%Z.
  - rewrite (cmpKey_antisym (field path b) (field path a)).
    destruct (cmpKey (field path b) (field path a)); simpl; auto.
  - rewrite (cmpKey_antisym (field path a) (field path b)).
    destruct (cmpKey (field path a) (field path b)); simpl; auto.
Qed.

Lemma cmpDocs_trans (criteria : list (string * Z)) (a b c : D) :
  cmpDocs field criteria a b <> Gt ->
  cmpDocs field criteria b c <> Gt ->
  cmpDocs field criteria a c <> Gt.
Proof.
  induction criteria as [| [path direction] rest IH]; simpl;
    [discriminate |].
  destruct (direction <? 0)%Z.
  - pose proof (cmpKey_cases (field path c) (field path b) (field path a))
      as H.
    destruct (cmpKey (field path c) (field path b)),
             (cmpKey (field path b) (field path a));
      rewrite ?H; auto; try congruence.
  - pose proof (cmpKey_cases (field path a) (field path b) (field path c))
      as H.
    destruct (cmpKey (field path a) (field path b)),
             (cmpKey (field path b) (field path c));
      rewrite ?H; auto; try congruence.
Qed.

Lemma sortLe_true (criteria : list (string * Z)) (a b : D) :
  sortLe field criteria a b = true <-> cmpDocs field criteria a b <> Gt.
Proof.
  unfold sortLe. destruct (cmpDocs field criteria a b); split;
    congruence.
Qed.

#[global] Instance sortRel_total (criteria : list (string * Z)) :
  Total (sortRel field criteria).
Proof.
  intros a b. unfold sortRel. rewrite !Is_true_true, !sortLe_true.
  rewrite (cmpDocs_antisym criteria a b).
  destruct (cmpDocs field criteria a b); simpl;
    [left | left | right]; discriminate.
Qed.

#[global] Instance sortRel_trans (criteria : list (string * Z)) :
  Transitive (sortRel field criteria).
Proof.
  intros a b c. unfold sortRel. rewrite !Is_true_true, !sortLe_true.
  apply cmpDocs_trans.
Qed.

Lemma mongoSort_sorted (criteria : list (string * Z)) (docs : list D) :
  StronglySorted (sortRel field criteria) (mongoSort field criteria docs).
Proof. unfold mongoSort. apply StronglySorted_merge_sort; apply _. Qed.

Lemma mongoSort_perm (criteria : list (string * Z)) (docs : list D) :
  mongoSort field criteria docs ≡ₚ docs.
Proof. unfold mongoSort. apply merge_sort_Permutation. Qed.

Lemma elem_of_mongoSort (criteria : list (string * Z)) (docs : list D)
  (x : D) : x ∈ mongoSort field criteria docs <-> x ∈ docs.
Proof. now rewrite mongoSort_perm. Qed.

End SortOrder.

(** Sortedness survives taking a prefix and filtering, and reads as an
    order on positions. *)
Section Sorted.

Context {D : Type} (R : relation D).

Lemma StronglySorted_take (n : nat) (l : list D) :
  StronglySorted R l -> StronglySorted R (take n l).
Proof.
  intros H. revert n. induction H as [| a l Hs IH Hall]; intros [| n];
    simpl; try constructor.
  - apply IH.
  - apply Forall_forall. intros x Hx.
    rewrite Forall_forall in Hall. apply Hall.
    apply elem_of_take in Hx as (i & Hi & _).
    eapply list_elem_of_lookup_2, Hi.
Qed.

Lemma StronglySorted_filter (f : D -> bool) (l : list D) :
  StronglySorted R l -> StronglySorted R (List.filter f l).
Proof.
  induction 1 as [| a l Hs IH Hall]; simpl; [constructor |].
  destruct (f a); [constructor |]; auto.
  apply Forall_forall. intros x Hx. rewrite Forall_forall in Hall.
  apply Hall. apply list_elem_of_In. apply list_elem_of_In in Hx.
  now apply filter_In in Hx as [Hx _].
Qed.

Lemma StronglySorted_lookup (l : list D) (i j : nat) (a b : D) :
  StronglySorted R l -> i < j ->
  l !! i = Some a -> l !! j = Some b -> R a b.
Proof.
  intros H. revert i j. induction H as [| x l Hs IH Hall]; intros i j Hij.
  - intros Hi. discriminate.
  - destruct i as [| i], j as [| j]; simpl; try lia.
    + intros [= ->] Hj. rewrite Forall_forall in Hall.
      apply Hall. eapply list_elem_of_lookup_2, Hj.
    + apply IH. lia.
Qed.

End Sorted.

(** ** Pages *)

Section Pages.

Context {D : Type}.

Lemma skipLimit_page (page limit : Z) (docs : list D) :
  (1 <= page)%Z -> (1 <= limit)%Z ->
  skipLimit ((page - 1) * limit) limit docs
  = Ok (take (Z.to_nat limit)
          (drop (Z.to_nat (page - 1) * Z.to_nat limit) docs)).
Proof.
  intros Hp Hl. unfold skipLimit.
  destruct (Z.ltb_spec ((page - 1) * limit) 0) as [Hneg | _]; [nia |].
  destruct (Z.eqb_spec limit 0) as [-> | _]; [lia |].
  rewrite Z.abs_eq by lia. rewrite Z2Nat.inj_mul by lia. reflexivity.
Qed.

Lemma skipLimit_elem (skip limit : Z) (docs out : list D) (x : D) :
  skipLimit skip limit docs = Ok out -> x ∈ out -> x ∈ docs.
Proof.
  unfold skipLimit. destruct (skip <? 0)%Z; [discriminate |].
  intros [= <-] Hx.
  assert (x ∈ drop (Z.to_nat skip) docs) as Hd.
  { destruct (limit =? 0)%Z; [exact Hx |].
    apply elem_of_take in Hx as (i & Hi & _).
    eapply list_elem_of_lookup_2, Hi. }
  apply list_elem_of_lookup in Hd as (i & Hi). rewrite lookup_drop in Hi.
  eapply list_elem_of_lookup_2, Hi.
Qed.

(** Every element lies on some page. *)
Lemma elem_on_page (n : nat) (docs : list D) (x : D) :
  0 < n -> x ∈ docs ->
  exists q, x ∈ take n (drop (q * n) docs).
Proof.
  intros Hn Hx. apply list_elem_of_lookup in Hx as (i & Hi).
  exists (i / n). apply elem_of_take. exists (i mod n).
  split; [| apply Nat.mod_upper_bound; lia].
  rewrite lookup_drop. rewrite <- Hi. f_equal.
  rewrite (Nat.div_mod_eq i n) at 3. lia.
Qed.

End Pages.

(** ** Visibility (claims C4, C5) *)

Lemma findVisiblePosts_eq (db : list Post) (o : Options) :
  findVisiblePosts db o
  = await posts <-
      skipLimit ((default 1 (opt_page o) - 1) * default 10 (opt_limit o))%Z
        (default 10%Z (opt_limit o))
        (visibleSorted db (opt_author o) (opt_userId o)
           (default "createdAt" (opt_sortBy o))) ;;
    Ok (feedDoc <$> posts).
Proof. reflexivity. Qed.

Lemma elem_of_visibleSorted (db : list Post) (author userId : option ObjectId)
  (sortBy : string) (p : Post) :
  p ∈ visibleSorted db author userId sortBy
  <-> p ∈ db /\ matchCriteria author userId p = true.
Proof.
  unfold visibleSorted. rewrite elem_of_mongoSort.
  rewrite list_elem_of_In, filter_In, <- list_elem_of_In. reflexivity.
Qed.

Lemma findVisiblePosts_listed (db : list Post) (o : Options)
  (posts : list FeedPost) (d : FeedPost) :
  findVisiblePosts db o = Ok posts -> d ∈ posts ->
  fp_post d ∈ db /\
  matchCriteria (opt_author o) (opt_userId o) (fp_post d) = true /\
  d = feedDoc (fp_post d).
Proof.
  rewrite findVisiblePosts_eq. intros H Hd.
  apply bind_Ok in H as (page & Hpage & [= <-]).
  apply list_elem_of_fmap in Hd as (p & -> & Hp).
  eapply skipLimit_elem in Hp; [| exact Hpage].
  apply elem_of_visibleSorted in Hp as [Hdb Hm]. simpl. auto.
Qed.

Lemma matchCriteria_deleted (author userId : option ObjectId) (P : Post) :
  isDeleted P = true -> matchCriteria author userId P = false.
Proof. intros H. unfold matchCriteria. now rewrite H. Qed.

Lemma findVisiblePosts_not_deleted (db : list Post) (o : Options)
  (posts : list FeedPost) (P : Post) :
  isDeleted P = true -> findVisiblePosts db o = Ok posts ->
  P ∉ fp_post <$> posts.
Proof.
  intros Hdel H Hin. apply list_elem_of_fmap in Hin as (d & -> & Hd).
  destruct (findVisiblePosts_listed db o posts d H Hd) as (_ & Hm & _).
  rewrite matchCriteria_deleted in Hm by exact Hdel. discriminate.
Qed.

Lemma unique_post_id (db : list Post) (P Q : Post) :
  NoDup (post_id <$> db) -> P ∈ db -> Q ∈ db -> post_id P = post_id Q ->
  P = Q.
Proof.
  induction db as [| x db IH]; simpl; intros Hnd HP HQ Hid.
  - now apply elem_of_nil in HP.
  - apply NoDup_cons in Hnd as [Hx Hnd].
    apply elem_of_cons in HP as [-> | HP]; apply elem_of_cons in HQ as [-> | HQ];
      auto.
    + exfalso. apply Hx. rewrite Hid. now apply list_elem_of_fmap_2.
    + exfalso. apply Hx. rewrite <- Hid. now apply list_elem_of_fmap_2.
Qed.

Lemma getPost_deleted (users : list User) (db : list Post) (P : Post) :
  P ∈ db -> NoDup (post_id <$> db) -> isDeleted P = true ->
  getPost users db (post_id P) = inl postNotFound.
Proof.
  intros Hin Hnd Hdel. unfold getPost.
  destruct (List.find _ db) as [q |] eqn:Hf; [| reflexivity].
  apply find_some in Hf as [Hq Hc]. apply andb_true_iff in Hc as [Hid Hnot].
  apply equals_eq in Hid. apply list_elem_of_In in Hq.
  assert (q = P) as -> by (now apply (unique_post_id db)).
  rewrite Hdel in Hnot. discriminate.
Qed.

Lemma getPost_found (users : list User) (db : list Post) (P : Post) :
  P ∈ db -> NoDup (post_id <$> db) -> isDeleted P = false ->
  getPost users db (post_id P)
  = inr (mkResource P (populate users (post_author P))).
Proof.
  intros Hin Hnd Hdel. unfold getPost.
  destruct (List.find _ db) as [q |] eqn:Hf.
  - apply find_some in Hf as [Hq Hc]. apply andb_true_iff in Hc as [Hid _].
    apply equals_eq in Hid. apply list_elem_of_In in Hq.
    assert (q = P) as -> by (now apply (unique_post_id db)). reflexivity.
  - apply list_elem_of_In in Hin.
    apply (find_none _ _ Hf) in Hin. simpl in Hin.
    rewrite equals_refl, Hdel in Hin. discriminate.
Qed.

Lemma listed_feedRoute (db : list Post) (viewer : option User)
  (page limit : option Z) (sortBy : option string) (P : Post) :
  P ∈ listed (feedRoute db viewer page limit sortBy) ->
  exists o posts, findVisiblePosts db o = Ok posts /\
                  opt_userId o = user_id <$> viewer /\
                  P ∈ fp_post <$> posts.
Proof.
  unfold feedRoute.
  match goal with |- context [findVisiblePosts db ?o] =>
    destruct (findVisiblePosts db o) as [posts | e] eqn:H; simpl;
    [intros HP; exists o, posts; auto | intros HP] end.
  now apply elem_of_nil in HP.
Qed.

Lemma listed_userPostsRoute (users : list User) (db : list Post)
  (viewer : option User) (name : string) (page limit : option Z) (P : Post) :
  P ∈ listed (userPostsRoute users db viewer name page limit) ->
  exists o posts, findVisiblePosts db o = Ok posts /\
                  opt_userId o = user_id <$> viewer /\
                  P ∈ fp_post <$> posts.
Proof.
  unfold userPostsRoute. destruct (List.find _ users) as [u |]; simpl.
  - match goal with |- context [findVisiblePosts db ?o] =>
      destruct (findVisiblePosts db o) as [posts | e] eqn:H; simpl;
      [intros HP; exists o, posts; auto | intros HP] end.
    now apply elem_of_nil in HP.
  - intros HP. now apply elem_of_nil in HP.
Qed.

Lemma elem_of_List_filter {D} (f : D -> bool) (l : list D) (x : D) :
  x ∈ List.filter f l <-> x ∈ l /\ f x = true.
Proof. now rewrite !list_elem_of_In, filter_In. Qed.

(** What the trending route lists. *)
Lemma trendingRoute_elem (users : list User) (db : list Post) (now : Z)
  (viewer : option User) (limit : option Z) (d : FeedPost) :
  match payload (trendingRoute users db now viewer limit) with
  | WithPosts posts => d ∈ posts
  | _ => False
  end ->
  d = feedDoc (fp_post d) /\ fp_post d ∈ db /\
  isDeleted (fp_post d) = false /\ isHidden (fp_post d) = false /\
  (now - 24 * 60 * 60 * 1000 <= createdAt (fp_post d))%Z.
Proof.
  unfold trendingRoute. destruct (default 10%Z limit <=? 0)%Z; simpl;
    [tauto |].
  intros Hd. apply elem_of_List_filter in Hd as [Hd _].
  apply elem_of_take in Hd as (i & Hi & _).
  apply list_elem_of_lookup_2 in Hi. apply elem_of_mongoSort in Hi.
  apply list_elem_of_fmap in Hi as (p & -> & Hp).
  apply elem_of_List_filter in Hp as [Hp Hc].
  apply andb_true_iff in Hc as [Hc Ht]. apply andb_true_iff in Hc as [Hc1 Hc2].
  apply negb_true_iff in Hc1, Hc2. apply Z.leb_le in Ht. simpl. auto.
Qed.

Lemma listed_trendingRoute (users : list User) (db : list Post) (now : Z)
  (viewer : option User) (limit : option Z) (P : Post) :
  P ∈ listed (trendingRoute users db now viewer limit) ->
  P ∈ db /\ isDeleted P = false /\ isHidden P = false /\
  (now - 24 * 60 * 60 * 1000 <= createdAt P)%Z.
Proof.
  intros HP.
  pose proof (trendingRoute_elem users db now viewer limit) as H.
  revert HP H. unfold listed, trendingRoute.
  destruct (default 10%Z limit <=? 0)%Z; simpl; intros HP H.
  - now apply elem_of_nil in HP.
  - apply list_elem_of_fmap in HP as (d & -> & Hd).
    destruct (H d Hd) as (_ & ? & ? & ? & ?). auto.
Qed.

Lemma populate_Some (users : list User) (a : ObjectId) (u : User) :
  populate users a = Some u -> user_id u = a.
Proof.
  unfold populate. intros H. apply find_some in H as [_ H].
  now apply equals_eq in H.
Qed.

(** C4. A deleted post is invisible to every viewer, its author and the
    anonymous viewer included: the match criteria reject it, no listing
    (feed, per-author, trending) contains it, single-post retrieval answers
    "Post not found", and so does every mutation routed through the
    single-post lookup, leaving the collection as it was. *)
Theorem deleted_post_invisible (users : list User) (db : list Post)
  (P : Post) :
  P ∈ db -> NoDup (post_id <$> db) -> isDeleted P = true ->
  (forall viewerId, isVisible P viewerId = false) /\
  (forall author userId, matchCriteria author userId P = false) /\
  (forall o posts, findVisiblePosts db o = Ok posts ->
                   P ∉ fp_post <$> posts) /\
  (forall viewer page limit sortBy,
      P ∉ listed (feedRoute db viewer page limit sortBy)) /\
  (forall viewer name page limit,
      P ∉ listed (userPostsRoute users db viewer name page limit)) /\
  (forall now viewer limit,
      P ∉ listed (trendingRoute users db now viewer limit)) /\
  (forall viewer,
      singlePostRoute users db viewer (post_id P) = postNotFound) /\
  (forall attempts now user,
      likeRoute users db attempts now user (post_id P)
      = (postNotFound, db, attempts)) /\
  (forall attempts now user newId body,
      commentRoute users db attempts now user (post_id P) newId body
      = (postNotFound, db, attempts)) /\
  (forall attempts now user cid,
      commentLikeRoute users db attempts now user (post_id P) cid
      = (postNotFound, db, attempts)) /\
  (forall attempts now user cid newId body,
      replyRoute users db attempts now user (post_id P) cid newId body
      = (postNotFound, db, attempts)) /\
  (forall attempts now user cid rid,
      replyLikeRoute users db attempts now user (post_id P) cid rid
      = (postNotFound, db, attempts)).
Proof.
  intros Hin Hnd Hdel.
  pose proof (getPost_deleted users db P Hin Hnd Hdel) as Hget.
  repeat split.
  - intros v. unfold isVisible. now rewrite Hdel.
  - intros. now apply matchCriteria_deleted.
  - intros o posts H. now apply (findVisiblePosts_not_deleted db o).
  - intros viewer page limit sortBy HP.
    apply listed_feedRoute in HP as (o & posts & H & _ & HP).
    now apply (findVisiblePosts_not_deleted db o posts P).
  - intros viewer name page limit HP.
    apply listed_userPostsRoute in HP as (o & posts & H & _ & HP).
    now apply (findVisiblePosts_not_deleted db o posts P).
  - intros now viewer limit HP.
    apply listed_trendingRoute in HP as (_ & Hd & _). congruence.
  - intros viewer. unfold singlePostRoute. now rewrite Hget.
  - intros. unfold likeRoute. now rewrite Hget.
  - intros. unfold commentRoute. now rewrite Hget.
  - intros. unfold commentLikeRoute. now rewrite Hget.
  - intros. unfold replyRoute. now rewrite Hget.
  - intros. unfold replyLikeRoute. now rewrite Hget.
Qed.

Lemma matchCriteria_isVisible (viewerId : option ObjectId) (P : Post) :
  matchCriteria None viewerId P = isVisible P viewerId /\
  matchCriteria (Some (post_author P)) viewerId P = isVisible P viewerId.
Proof.
  unfold matchCriteria, isVisible. rewrite equals_refl. simpl.
  destruct viewerId as [v |]; simpl.
  - assert (equals (post_author P) v
            = bool_decide (Some v = Some (post_author P))) as E0.
    { destruct (equals (post_author P) v) eqn:E; symmetry.
      - apply equals_eq in E. subst. now apply bool_decide_eq_true.
      - apply equals_neq in E. apply bool_decide_eq_false. congruence. }
    rewrite E0, andb_true_r. auto.
  - rewrite andb_true_r, orb_false_r. auto.
Qed.

(** A post is on some page of a listing exactly when it is stored and
    matches the criteria of the listing. *)
Lemma listed_iff_matches (db : list Post) (author viewerId : option ObjectId)
  (sortBy : option string) (limit : Z) (P : Post) :
  (1 <= limit)%Z ->
  (P ∈ db /\ matchCriteria author viewerId P = true) <->
  (exists page posts,
      (1 <= page)%Z /\
      findVisiblePosts db
        (mkOptions (Some page) (Some limit) author viewerId sortBy)
      = Ok posts /\
      P ∈ fp_post <$> posts).
Proof.
  intros Hl. split.
  - intros HP.
    apply (elem_of_visibleSorted db author viewerId
             (default "createdAt" sortBy)) in HP.
    apply (elem_on_page (Z.to_nat limit)) in HP as [q Hq]; [| lia].
    exists (Z.of_nat q + 1)%Z. eexists. split; [lia |].
    rewrite findVisiblePosts_eq. simpl.
    rewrite skipLimit_page by lia. simpl. split; [reflexivity |].
    replace (Z.to_nat (Z.of_nat q + 1 - 1)) with q by lia.
    apply list_elem_of_fmap. exists (feedDoc P). split; [reflexivity |].
    now apply list_elem_of_fmap_2.
  - intros (page & posts & _ & H & HP).
    apply list_elem_of_fmap in HP as (d & -> & Hd).
    destruct (findVisiblePosts_listed db _ posts d H Hd) as (? & ? & _).
    auto.
Qed.

(** C5. The code's visibility is the predicate of the spec,
    [not isDeleted and (not isHidden or viewer = author)], in single-post
    retrieval, in the feed and in the per-author listing alike; so a
    hidden, non-deleted post is visible to its author and to nobody else,
    the anonymous viewer included. *)
Theorem hidden_post_visibility (users : list User) (db : list Post)
  (P : Post) :
  P ∈ db -> NoDup (post_id <$> db) ->
  is_Some (populate users (post_author P)) ->
  (forall viewer,
      singlePostRoute users db viewer (post_id P)
      = if isVisible P (user_id <$> viewer)
        then mkResponse 200 "" (WithPost P) else postNotFound) /\
  (forall viewerId,
      matchCriteria None viewerId P = isVisible P viewerId /\
      matchCriteria (Some (post_author P)) viewerId P
      = isVisible P viewerId) /\
  (forall author viewerId sortBy limit,
      author = None \/ author = Some (post_author P) ->
      (1 <= limit)%Z ->
      isVisible P viewerId = true <->
      exists page posts,
        (1 <= page)%Z /\
        findVisiblePosts db
          (mkOptions (Some page) (Some limit) author viewerId sortBy)
        = Ok posts /\
        P ∈ fp_post <$> posts) /\
  (isHidden P = true -> isDeleted P = false ->
   isVisible P (Some (post_author P)) = true /\
   (forall V, V <> post_author P -> isVisible P (Some V) = false) /\
   isVisible P None = false).
Proof.
  intros Hin Hnd [a Ha]. split; [| split; [| split]].
  - intros viewer. unfold singlePostRoute, isVisible.
    destruct (isDeleted P) eqn:Hdel.
    + now rewrite (getPost_deleted users db P Hin Hnd Hdel).
    + rewrite (getPost_found users db P Hin Hnd Hdel).
      unfold hiddenFromViewer, authorEquals. simpl. rewrite Ha.
      apply populate_Some in Ha.
      destruct (isHidden P); simpl; [| reflexivity].
      destruct viewer as [v |]; simpl; [| reflexivity].
      destruct (equals (user_id a) (user_id v)) eqn:E; simpl.
      * apply equals_eq in E.
        rewrite bool_decide_eq_true_2 by congruence. reflexivity.
      * apply equals_neq in E.
        rewrite bool_decide_eq_false_2 by congruence. reflexivity.
  - intros v. apply matchCriteria_isVisible.
  - intros author v sortBy limit Hauthor Hl.
    rewrite <- (listed_iff_matches db author v sortBy limit P Hl).
    destruct (matchCriteria_isVisible v P) as [E1 E2].
    destruct Hauthor as [-> | ->]; [rewrite E1 | rewrite E2]; tauto.
  - intros Hh Hd. unfold isVisible. rewrite Hh, Hd. simpl.
    split; [| split].
    + now apply bool_decide_eq_true.
    + intros V HV. apply bool_decide_eq_false. congruence.
    + reflexivity.
Qed.

(** ** Trending (claim C8) *)

Lemma sortRel_trendingOrder (d1 d2 : FeedPost) :
  sortRel pipelineField
    [("likesCount", (-1)%Z); ("commentsCount", (-1)%Z); ("createdAt", (-1)%Z)]
    d1 d2 ->
  trendingOrder d1 d2.
Proof.
  unfold sortRel, sortLe, trendingOrder. simpl.
  destruct (Z.compare_spec (Z.of_nat (fp_likesCount d2))
                           (Z.of_nat (fp_likesCount d1))) as [E1 | L1 | G1];
    simpl; try (intros []; fail); try (intros _; lia).
  destruct (Z.compare_spec (Z.of_nat (fp_commentsCount d2))
                           (Z.of_nat (fp_commentsCount d1))) as [E2 | L2 | G2];
    simpl; try (intros []; fail); try (intros _; lia).
  destruct (Z.compare_spec (createdAt (fp_post d2))
                           (createdAt (fp_post d1))) as [E3 | L3 | G3];
    simpl; try (intros []; fail); intros _; lia.
Qed.

(** C8. The trending listing holds only posts that are not deleted, not
    hidden and created within the last 24 hours, whoever asks; it is
    ordered by like-count, then comment-count, then creation time, all
    descending, and is truncated to the requested limit: the matching
    posts split into a top, as long as the limit (or all of them, when
    they are fewer), and a rest that the order puts no higher than any
    post of the top; the listing is the top, less the posts whose author
    has no account. *)
Theorem trending_listing (users : list User) (db : list Post) (now : Z)
  (viewer : option User) (limit : option Z) :
  (1 <= default 10 limit)%Z ->
  exists posts,
    trendingRoute users db now viewer limit
    = mkResponse 200 "" (WithPosts posts) /\
    (forall d, d ∈ posts ->
       fp_post d ∈ db /\
       isDeleted (fp_post d) = false /\ isHidden (fp_post d) = false /\
       (now - 24 * 60 * 60 * 1000 <= createdAt (fp_post d))%Z /\
       fp_likesCount d = likesCount (fp_post d) /\
       fp_commentsCount d = commentsCount (fp_post d)) /\
    (forall i j d1 d2,
       i < j -> posts !! i = Some d1 -> posts !! j = Some d2 ->
       trendingOrder d1 d2) /\
    length posts <= Z.to_nat (default 10 limit)%Z /\
    (exists top rest,
       top ++ rest ≡ₚ feedDoc <$> List.filter (trendingMatch now) db /\
       length top
       = Nat.min (Z.to_nat (default 10 limit)%Z)
                 (length (List.filter (trendingMatch now) db)) /\
       (forall d r, d ∈ top -> r ∈ rest -> trendingOrder d r) /\
       posts
       = List.filter
           (fun d => bool_decide
                       (is_Some (populate users (post_author (fp_post d)))))
           top) /\
    (forall p,
       p ∈ db -> trendingMatch now p = true ->
       is_Some (populate users (post_author p)) ->
       length (List.filter (trendingMatch now) db)
       <= Z.to_nat (default 10 limit)%Z ->
       feedDoc p ∈ posts) /\
    (forall other,
       trendingRoute users db now other limit
       = trendingRoute users db now viewer limit).
Proof.
  intros Hl.
  pose proof (trendingRoute_elem users db now viewer limit) as Helem.
  revert Helem. unfold trendingRoute.
  destruct (Z.leb_spec (default 10%Z limit) 0) as [Hle | _]; [lia |].
  simpl. intros Helem. eexists. split; [reflexivity |].
  split; [| split; [| split; [| split; [| split]]]].
  - intros d Hd. destruct (Helem d Hd) as (Hfd & ? & ? & ? & ?).
    repeat split; auto; rewrite Hfd; reflexivity.
  - intros i j d1 d2 Hij H1 H2. apply sortRel_trendingOrder.
    eapply StronglySorted_lookup; [| exact Hij | exact H1 | exact H2].
    apply StronglySorted_filter, StronglySorted_take, mongoSort_sorted.
  - etransitivity; [apply filter_length_le |].
    rewrite length_take. lia.
  - match goal with |- context [take ?n ?sorted] =>
      exists (take n sorted), (drop n sorted) end.
    split; [| split; [| split; [| reflexivity]]].
    + rewrite take_drop. apply mongoSort_perm.
    + rewrite length_take.
      rewrite (Permutation_length (mongoSort_perm _ _ _)).
      rewrite length_map. apply Nat.min_comm || reflexivity.
    + intros d r Hd Hr. apply sortRel_trendingOrder.
      eapply StronglySorted_app_1_elem_of; [| exact Hd | exact Hr].
      rewrite take_drop. apply mongoSort_sorted.
  - intros p Hp Hm [a Ha] Hlen. apply elem_of_List_filter. split.
    + rewrite take_ge.
      * apply elem_of_mongoSort. apply list_elem_of_fmap_2.
        now apply elem_of_List_filter.
      * rewrite (Permutation_length (mongoSort_perm _ _ _)).
        now rewrite length_fmap.
    + simpl. apply bool_decide_eq_true. eauto.
  - reflexivity.
Qed.

(** ** The feed: order and pages (claims C1, C2) *)

(** Sorting the query by the virtual [likesCount] sorts by nothing: no
    stored document has that path, all compare equal on it, and the tie
    is broken by [createdAt]. *)
Lemma sort_by_likes_is_recency (db : list Post) (page limit : option Z)
  (author userId : option ObjectId) :
  findVisiblePosts db (mkOptions page limit author userId (Some "likes"))
  = findVisiblePosts db (mkOptions page limit author userId (Some "createdAt")).
Proof. reflexivity. Qed.

(** C1, at the failing input. With [sortBy = "likes"] the feed over
    [twoPosts] lists the newer post with no like before the older post
    with one like: the page is not ordered by like-count. The counts
    themselves are the sizes of the likes arrays. *)
Theorem feed_likes_order_broken :
  exists d1 d2,
    findVisiblePosts twoPosts
      (mkOptions (Some 1%Z) (Some 10%Z) None None (Some "likes"))
    = Ok [d1; d2] /\
    feedRoute twoPosts None None None (Some "likes")
    = mkResponse 200 "" (WithPage [d1; d2] 1 2 false) /\
    fp_likesCount d1 = likesCount (fp_post d1) /\
    fp_likesCount d2 = likesCount (fp_post d2) /\
    fp_likesCount d1 < fp_likesCount d2.
Proof.
  exists (feedDoc newerUnliked), (feedDoc olderLiked).
  split; [vm_compute; reflexivity |].
  split; [vm_compute; reflexivity |]. simpl. repeat split. lia.
Qed.

(** C2 as stated fails: page 1 of size 1 is the element at offset 0, not
    the zero-based window at offsets 1..1, and page 0 is refused. *)
Lemma feed_window_not_zero_based :
  findVisiblePosts twoPosts (mkOptions (Some 1%Z) (Some 1%Z) None None None)
  <> Ok (feedDoc <$>
           zeroBasedWindow 1 1 (visibleSorted twoPosts None None "createdAt"))
  /\
  findVisiblePosts twoPosts (mkOptions (Some 0%Z) (Some 1%Z) None None None)
  <> Ok (feedDoc <$>
           zeroBasedWindow 0 1 (visibleSorted twoPosts None None "createdAt")).
Proof. split; vm_compute; discriminate. Qed.

Lemma findVisiblePosts_page (db : list Post) (page limit : Z)
  (author userId : option ObjectId) (sortBy : option string) :
  (1 <= page)%Z -> (1 <= limit)%Z ->
  findVisiblePosts db
    (mkOptions (Some page) (Some limit) author userId sortBy)
  = Ok (feedDoc <$>
          take (Z.to_nat limit)
            (drop (Z.to_nat (page - 1) * Z.to_nat limit)
               (visibleSorted db author userId
                  (default "createdAt" sortBy)))).
Proof.
  intros Hp Hl. rewrite findVisiblePosts_eq. simpl.
  now rewrite skipLimit_page by lia.
Qed.

(** C2, amended. Pages are one-based: for every page [p >= 1] and page
    size [n >= 1] the listing returns the elements at offsets
    [(p-1)*n .. (p-1)*n + n - 1] of the filtered, sorted sequence; a
    result shorter than [n] means every later page is empty, and the feed
    route reports [hasMore] exactly when the page is full. *)
Theorem feed_window_one_based (db : list Post) (page limit : Z)
  (author userId : option ObjectId) (sortBy : option string) :
  (1 <= page)%Z -> (1 <= limit)%Z ->
  let seq := visibleSorted db author userId (default "createdAt" sortBy) in
  let n := Z.to_nat limit in
  let offset := Z.to_nat (page - 1) * n in
  exists posts,
    findVisiblePosts db
      (mkOptions (Some page) (Some limit) author userId sortBy)
    = Ok posts /\
    posts = feedDoc <$> take n (drop offset seq) /\
    (forall k, k < n -> posts !! k = feedDoc <$> seq !! (offset + k)) /\
    (forall k, n <= k -> posts !! k = None) /\
    (length posts < n ->
     forall later, (page < later)%Z ->
       findVisiblePosts db
         (mkOptions (Some later) (Some limit) author userId sortBy)
       = Ok []) /\
    (forall viewer,
       author = None -> userId = user_id <$> viewer ->
       feedRoute db viewer (Some page) (Some limit) sortBy
       = mkResponse 200 ""
           (WithPage posts page (length posts)
                     (bool_decide (length posts = n)))).
Proof.
  intros Hp Hl seq n offset.
  pose proof (findVisiblePosts_page db page limit author userId sortBy Hp Hl)
    as Hpage. fold seq n offset in Hpage.
  eexists. split; [exact Hpage |]. split; [reflexivity |].
  split; [| split; [| split]].
  - intros k Hk. rewrite list_lookup_fmap, lookup_take_lt by exact Hk.
    now rewrite lookup_drop.
  - intros k Hk. rewrite list_lookup_fmap, lookup_take_ge by exact Hk.
    reflexivity.
  - rewrite length_fmap, length_take, length_drop. intros Hshort later Hlater.
    rewrite findVisiblePosts_page by lia. fold seq n.
    rewrite drop_ge; [now rewrite take_nil |].
    assert (Z.to_nat (later - 1) = Z.to_nat (page - 1) + Z.to_nat (later - page))
      as -> by lia.
    assert (1 <= Z.to_nat (later - page)) by lia.
    subst offset. nia.
  - intros viewer -> ->. unfold feedRoute. simpl.
    rewrite (findVisiblePosts_page db page limit None (user_id <$> viewer)
               (Some (default "createdAt" sortBy)) Hp Hl).
    simpl. fold seq n offset. f_equal. f_equal.
    destruct (Z.eqb_spec (Z.of_nat (length (feedDoc <$> take n (drop offset seq))))
                limit) as [E | E]; symmetry.
    + apply bool_decide_eq_true. subst n. lia.
    + apply bool_decide_eq_false. subst n. lia.
Qed.

(** ** Trimming *)

Section Trim.

Context {A : Type} (f : A -> bool).

Lemma dropWhile_head (l : list A) (x : A) (l' : list A) :
  Js.dropWhile f l = x :: l' -> f x = false.
Proof.
  induction l as [| y l IH]; simpl; [discriminate |].
  destruct (f y) eqn:E; [exact IH |]. intros [= -> _]. exact E.
Qed.

Lemma dropWhile_fixed (l : list A) :
  match l with [] => True | x :: _ => f x = false end ->
  Js.dropWhile f l = l.
Proof. destruct l as [| x l]; simpl; [reflexivity |]. now intros ->. Qed.

Lemma dropWhile_idem (l : list A) :
  Js.dropWhile f (Js.dropWhile f l) = Js.dropWhile f l.
Proof.
  apply dropWhile_fixed. destruct (Js.dropWhile f l) eqn:E; [trivial |].
  now apply dropWhile_head in E.
Qed.

Lemma dropWhile_suffix (l : list A) :
  exists w, l = w ++ Js.dropWhile f l.
Proof.
  induction l as [| y l [w IH]]; simpl; [now exists [] |].
  destruct (f y); [| now exists []].
  exists (y :: w). simpl. now rewrite <- IH.
Qed.

End Trim.

Lemma trimList_idem (l : list ascii) :
  Js.trimList (Js.trimList l) = Js.trimList l.
Proof.
  unfold Js.trimList.
  set (X := Js.dropWhile Js.isWhiteSpace l).
  set (Y := Js.dropWhile Js.isWhiteSpace (rev X)).
  assert (Js.dropWhile Js.isWhiteSpace (rev Y) = rev Y) as ->.
  { apply dropWhile_fixed.
    destruct (dropWhile_suffix Js.isWhiteSpace (rev X)) as [w Hw].
    fold Y in Hw. apply (f_equal (@rev ascii)) in Hw.
    rewrite rev_involutive, rev_app_distr in Hw.
    destruct (rev Y) as [| a r]; [trivial |].
    simpl in Hw. subst X. now apply dropWhile_head in Hw. }
  rewrite rev_involutive. subst Y. now rewrite dropWhile_idem.
Qed.

Lemma trim_idem (s : string) : Js.trim (Js.trim s) = Js.trim s.
Proof.
  unfold Js.trim. rewrite String.list_ascii_of_string_of_list_ascii.
  now rewrite trimList_idem.
Qed.

(** ** Creating a post (claim C9) *)

Lemma validateRequest_status (rules : list (string * Rules)) (body : Body)
  (res : Response) :
  validateRequest rules body = Some res -> status res = 400.
Proof.
  unfold validateRequest. destruct (concat _); [discriminate |].
  now intros [= <-].
Qed.

(** The hook [pre('validate')] stands between every document and the
    collection. *)
Lemma saved_has_content_or_image (isNew : bool) (db db' : list Post)
  (doc : Post) :
  save isNew db doc = Ok db' ->
  post_content doc <> "" \/ post_images doc <> [].
Proof.
  intros H. apply save_Ok_valid in H. unfold validate in H.
  apply app_eq_nil in H as [H _]. unfold preValidate in H.
  destruct (post_content doc) eqn:Ec; [| left; discriminate].
  destruct (post_images doc) eqn:Ei; [| right; discriminate].
  simpl in H. discriminate.
Qed.

Lemma createPostHandler_blank (db : list Post) (now : Z) (user : User)
  (newId : ObjectId) (body : Body) :
  Js.trim (default "" (body_content body)) = "" ->
  default [] (body_images body) = [] ->
  createPostHandler db now user newId body
  = (mkResponse 400 "Post must have either content or images" NoPayload, db).
Proof.
  intros Hc Hi. unfold createPostHandler. rewrite Hi.
  assert (Js.truthy_opt (Js.trim <$> body_content body) = false) as ->.
  { destruct (body_content body) as [s |]; simpl in *; [| reflexivity].
    now rewrite Hc. }
  reflexivity.
Qed.

Lemma createPostHandler_created (db : list Post) (now : Z) (user : User)
  (newId : ObjectId) (body : Body) :
  let out := createPostHandler db now user newId body in
  (status out.1 = 201 ->
   exists post,
     out = (mkResponse 201 "Post created successfully" (WithPost post),
            db ++ [post]) /\
     post = newPost newId (Js.trim (default "" (body_content body)))
                    (default [] (body_images body)) (user_id user) now /\
     (post_content post <> "" \/ post_images post <> [])) /\
  (status out.1 <> 201 -> out.2 = db).
Proof.
  unfold createPostHandler.
  set (images := default [] (body_images body)).
  set (trimmed := Js.trim <$> body_content body).
  assert ((if Js.truthy_opt trimmed then default "" trimmed else "")
          = Js.trim (default "" (body_content body))) as ->.
  { subst trimmed. destruct (body_content body) as [s |]; simpl;
      [| reflexivity].
    destruct (Js.trim s); reflexivity. }
  destruct (negb (Js.truthy_opt trimmed) && Nat.eqb (length images) 0);
    [simpl; split; [discriminate | reflexivity] |].
  destruct (Nat.ltb 5 (length images));
    [simpl; split; [discriminate | reflexivity] |].
  destruct (existsb _ images);
    [simpl; split; [discriminate | reflexivity] |].
  destruct (save true db _) as [db' |] eqn:Hsave; simpl.
  - split; [intros _ | congruence].
    pose proof (saved_has_content_or_image _ _ _ _ Hsave) as Hinv.
    unfold save in Hsave. destruct (validate _); [| discriminate].
    injection Hsave as <-. eexists. split; [reflexivity |].
    split; [reflexivity | exact Hinv].
  - split; [discriminate | reflexivity].
Qed.

(** C9. Creating a post whose content is empty after trimming (or absent)
    and whose image list is empty is refused with a validation error and
    persists nothing; a post is persisted only with status 201, its
    content is the trimmed content, and it has non-empty content or at
    least one image, as has every document that [save] accepts. *)
Theorem createPost_needs_content_or_image (db : list Post)
  (attempts : gmap (N * Z) nat) (now : Z) (user : User) (newId : ObjectId)
  (body : Body) :
  let out := createPostRoute db attempts now user newId body in
  (Js.trim (default "" (body_content body)) = "" ->
   default [] (body_images body) = [] ->
   out.1.2 = db /\
   createPostHandler db now user newId body
   = (mkResponse 400 "Post must have either content or images" NoPayload,
      db) /\
   (status out.1.1 = 400 \/ status out.1.1 = 429) /\
   ((actionRateLimit 20 (60 * 60 * 1000) attempts (user_id user) now).1
    = None -> status out.1.1 = 400)) /\
  (status out.1.1 = 201 ->
   exists post,
     out.1.2 = db ++ [post] /\
     payload out.1.1 = WithPost post /\
     post_content post = Js.trim (default "" (body_content body)) /\
     post_images post = default [] (body_images body) /\
     (post_content post <> "" \/ post_images post <> [])) /\
  (status out.1.1 <> 201 -> out.1.2 = db) /\
  (forall isNew db0 db1 doc,
     save isNew db0 doc = Ok db1 ->
     post_content doc <> "" \/ post_images doc <> []).
Proof.
  intros out. subst out. unfold createPostRoute.
  destruct (createPostHandler_created db now user newId body) as [H201 Hnot].
  destruct (validateRequest createPostValidation body) as [res |] eqn:Hval.
  - apply validateRequest_status in Hval. simpl.
    repeat split; auto; try congruence.
    + intros; now apply createPostHandler_blank.
    + intros. eapply saved_has_content_or_image. eassumption.
  - destruct (limited_cases 20 (60 * 60 * 1000) attempts (user_id user) now
                db (createPostHandler db now user newId body))
      as [(res & a & Hlim & Hres & ->) | (a & Hlim & ->)]; simpl.
    + split; [| split; [| split]].
      * intros Hc Hi. repeat split; auto.
        -- now apply createPostHandler_blank.
        -- rewrite Hlim. discriminate.
      * congruence.
      * reflexivity.
      * intros. eapply saved_has_content_or_image. eassumption.
    + split; [| split; [| split]].
      * intros Hc Hi.
        rewrite (createPostHandler_blank db now user newId body Hc Hi).
        simpl. repeat split; auto.
      * intros Hs. destruct (H201 Hs) as (post & -> & -> & Hinv).
        exists (newPost newId (Js.trim (default "" (body_content body)))
                        (default [] (body_images body)) (user_id user) now).
        simpl. repeat split; auto. apply trim_idem.
      * exact Hnot.
      * intros. eapply saved_has_content_or_image. eassumption.
Qed.

(** ** Mutations of a hidden post (claim C10) *)




(** Request validation runs before the visibility check of the handler:
    a comment with empty content on a hidden post, by someone who is not
    its author, is answered 400 by the route. *)
Lemma hidden_comment_answered_by_validation :
  isHidden hiddenPost = true /\ isDeleted hiddenPost = false /\
  user_id bob <> post_author hiddenPost /\
  (commentRoute [alice; bob] [hiddenPost] ∅ 5000 bob 20 77
     (mkBody (Some "") None)).1.1
  = mkResponse 400 "Validation failed" (WithErrors ["content is required"]).
Proof. repeat split; try reflexivity; discriminate. Qed.


(** * The theorems at concrete inputs *)

Lemma feed_window_one_based_witness :
  (1 <= 2)%Z /\ (1 <= 1)%Z /\
  exists posts,
    findVisiblePosts twoPosts
      (mkOptions (Some 2%Z) (Some 1%Z) None None (Some "likes"))
    = Ok posts /\
    posts = feedDoc <$>
              take 1 (drop 1 (visibleSorted twoPosts None None "likes")).
Proof.
  split; [lia | split; [lia |]].
  destruct (feed_window_one_based twoPosts 2 1 None None (Some "likes"))
    as (posts & H1 & H2 & _); [lia | lia |].
  exists posts. split; [exact H1 | exact H2].
Defined.

Lemma toggle_pair_idempotent_witness :
  validate threadPost = [] /\
  exists P1 db1 P2 db2,
    toggleLike [threadPost] threadPost 2 = Ok (P1, db1) /\
    toggled_once 2 (post_likes threadPost) (post_likes P1) /\
    toggleLike db1 P1 2 = Ok (P2, db2) /\
    same_likers (post_likes P2) (post_likes threadPost).
Proof.
  split; [reflexivity |].
  apply (toggle_pair_idempotent [threadPost] threadPost 2). reflexivity.
Defined.

Lemma deleted_post_invisible_witness :
  deletedPost ∈ [deletedPost; olderLiked] /\
  NoDup (post_id <$> [deletedPost; olderLiked]) /\
  isDeleted deletedPost = true /\
  forall viewer,
    singlePostRoute [alice; bob] [deletedPost; olderLiked] viewer
      (post_id deletedPost) = postNotFound.
Proof.
  assert (deletedPost ∈ [deletedPost; olderLiked]) as Hin
    by apply list_elem_of_here.
  assert (NoDup (post_id <$> [deletedPost; olderLiked])) as Hnd by decided.
  split; [exact Hin | split; [exact Hnd | split; [reflexivity |]]].
  apply (deleted_post_invisible [alice; bob] [deletedPost; olderLiked]
           deletedPost Hin Hnd eq_refl).
Defined.

Lemma hidden_post_visibility_witness :
  hiddenPost ∈ [hiddenPost; olderLiked] /\
  NoDup (post_id <$> [hiddenPost; olderLiked]) /\
  is_Some (populate [alice; bob] (post_author hiddenPost)) /\
  forall viewer,
    singlePostRoute [alice; bob] [hiddenPost; olderLiked] viewer
      (post_id hiddenPost)
    = if isVisible hiddenPost (user_id <$> viewer)
      then mkResponse 200 "" (WithPost hiddenPost) else postNotFound.
Proof.
  assert (hiddenPost ∈ [hiddenPost; olderLiked]) as Hin
    by apply list_elem_of_here.
  assert (NoDup (post_id <$> [hiddenPost; olderLiked])) as Hnd by decided.
  assert (is_Some (populate [alice; bob] (post_author hiddenPost))) as Ha
    by (exists alice; reflexivity).
  split; [exact Hin | split; [exact Hnd | split; [exact Ha |]]].
  apply (hidden_post_visibility [alice; bob] [hiddenPost; olderLiked]
           hiddenPost Hin Hnd Ha).
Defined.

Lemma addReply_missing_comment_witness :
  getPost [alice; bob] [threadPost] 30
  = inr (mkResource threadPost (Some alice)) /\
  id comment_id (post_comments threadPost) 99 = None /\
  addReply [threadPost] threadPost 99 50 (mkData "hi" 2)
  = Throw (Error "Comment not found") /\
  (replyRoute [alice; bob] [threadPost] ∅ 5000 bob 30 99 50
     (mkBody (Some "hi") None)).1.2 = [threadPost].
Proof.
  split; [reflexivity | split; [reflexivity |]].
  destruct (addReply_missing_comment [alice; bob] [threadPost] ∅ 5000 bob
              30 99 50 (mkBody (Some "hi") None) (mkData "hi" 2)
              (mkResource threadPost (Some alice)) eq_refl eq_refl)
    as (H1 & H2 & _).
  split; [exact H1 | exact H2].
Defined.

Lemma toggleReplyLike_not_found_witness :
  getPost [alice; bob] [threadPost] 30
  = inr (mkResource threadPost (Some alice)) /\
  id comment_id (post_comments threadPost) 99 = None /\
  (forall A, toggleReplyLike [threadPost] threadPost 99 32 A
             = Throw (Error "Comment not found")) /\
  (forall A, toggleReplyLike [threadPost] threadPost 31 98 A
             = Throw (Error "Reply not found")).
Proof.
  split; [reflexivity | split; [reflexivity |]]. split.
  - destruct (toggleReplyLike_not_found [alice; bob] [threadPost] ∅ 5000 bob
                30 99 32 (mkResource threadPost (Some alice)) eq_refl)
      as [H _].
    destruct (H eq_refl) as [Ht _]. exact Ht.
  - destruct (toggleReplyLike_not_found [alice; bob] [threadPost] ∅ 5000 bob
                30 31 98 (mkResource threadPost (Some alice)) eq_refl)
      as [_ H].
    destruct (H (mkComment 31 "nice" 2 [] [mkReply 32 "thanks" 1 []])
                eq_refl eq_refl) as [Ht _].
    exact Ht.
Defined.

Lemma trending_listing_witness :
  (1 <= default 10 (Some 1))%Z /\
  exists posts,
    trendingRoute [alice; bob] [olderLiked; newerUnliked; hiddenPost] 5000
      (Some alice) (Some 1%Z)
    = mkResponse 200 "" (WithPosts posts) /\
    length posts <= 1.
Proof.
  split; [simpl; lia |].
  destruct (trending_listing [alice; bob]
              [olderLiked; newerUnliked; hiddenPost] 5000 (Some alice)
              (Some 1%Z)) as (posts & H1 & _ & _ & H2 & _); [simpl; lia |].
  exists posts. split; [exact H1 | exact H2].
Defined.

Lemma createPost_needs_content_or_image_witness :
  Js.trim (default "" (body_content (mkBody (Some "   ") None))) = "" /\
  default [] (body_images (mkBody (Some "   ") None)) = [] /\
  (createPostRoute twoPosts ∅ 5000 alice 12 (mkBody (Some "   ") None)).1.2
  = twoPosts.
Proof.
  split; [reflexivity | split; [reflexivity |]].
  destruct (createPost_needs_content_or_image twoPosts ∅ 5000 alice 12
              (mkBody (Some "   ") None)) as [H _].
  destruct (H eq_refl eq_refl) as [Hdb _]. exact Hdb.
Defined.


(** * Further properties of the engine *)

(** ** The liker arrays stay sets *)

Lemma pull_absent (u : ObjectId) (arr : list ObjectId) :
  u ∉ arr -> pull u arr = arr.
Proof.
  intros Hnot. unfold pull. apply forallb_filter_id, forallb_forall.
  intros y Hy. apply negb_true_iff, equals_neq. intros ->.
  apply Hnot, list_elem_of_In, Hy.
Qed.

Lemma pull_length (u : ObjectId) (arr : list ObjectId) :
  NoDup arr -> u ∈ arr -> S (length (pull u arr)) = length arr.
Proof.
  induction 1 as [| x l Hx Hnd IH]; intros Hin.
  - now apply elem_of_nil in Hin.
  - unfold pull. simpl. destruct (equals x u) eqn:E; simpl.
    + apply equals_eq in E. subst x. fold (pull u l).
      now rewrite pull_absent.
    + fold (pull u l). f_equal. apply IH.
      apply elem_of_cons in Hin as [-> | Hin]; [| exact Hin].
      rewrite equals_refl in E. discriminate.
Qed.

Lemma toggle_NoDup (u : ObjectId) (likes : list ObjectId) :
  NoDup likes -> NoDup (toggle u likes).
Proof.
  intros Hnd. unfold toggle. destruct (some_equals u likes) eqn:E.
  - unfold pull. apply NoDup_ListNoDup, List.NoDup_filter.
    now apply NoDup_ListNoDup.
  - unfold push. apply NoDup_app. split; [exact Hnd | split].
    + intros x Hx Hxu. apply list_elem_of_singleton in Hxu. subst x.
      apply some_equals_elem in Hx. congruence.
    + apply NoDup_singleton.
Qed.

(** X1. Toggling a like keeps the liker array free of duplicates and
    moves the like-count by exactly one: down when the actor had liked,
    up when it had not; nothing else of the post changes. *)
Theorem toggleLike_counts (db : list Post) (P : Post) (A : ObjectId) :
  validate P = [] -> NoDup (post_likes P) ->
  exists P1 db1,
    toggleLike db P A = Ok (P1, db1) /\
    NoDup (post_likes P1) /\
    (A ∈ post_likes P ->
     (A ∉ post_likes P1) /\ S (likesCount P1) = likesCount P) /\
    (A ∉ post_likes P ->
     A ∈ post_likes P1 /\ likesCount P1 = S (likesCount P)) /\
    P1 = set_post_likes (post_likes P1) P.
Proof.
  intros Hv Hnd. destruct (toggleLike_valid db P A Hv) as [H1 _].
  do 2 eexists. split; [exact H1 |]. simpl. unfold likesCount. simpl.
  split; [now apply toggle_NoDup | split; [| split; [| reflexivity]]].
  - intros Hin. split.
    + rewrite toggle_elem. tauto.
    + unfold toggle. apply some_equals_elem in Hin as Hs. rewrite Hs.
      now apply pull_length.
  - intros Hnot. split.
    + rewrite toggle_elem. tauto.
    + unfold toggle.
      assert (some_equals A (post_likes P) = false) as ->.
      { destruct (some_equals A (post_likes P)) eqn:E; [| reflexivity].
        apply some_equals_elem in E. contradiction. }
      unfold push. rewrite length_app. simpl. lia.
Qed.

Lemma toggleLike_counts_witness :
  validate threadPost = [] /\ NoDup (post_likes threadPost) /\
  exists P1 db1,
    toggleLike [threadPost] threadPost 2 = Ok (P1, db1) /\
    NoDup (post_likes P1).
Proof.
  assert (NoDup (post_likes threadPost)) as Hnd by apply NoDup_nil_2.
  split; [reflexivity | split; [exact Hnd |]].
  destruct (toggleLike_counts [threadPost] threadPost 2 eq_refl Hnd)
    as (P1 & db1 & H1 & H2 & _).
  exists P1, db1. split; [exact H1 | exact H2].
Defined.

(** ** Nested toggles touch one liker array *)

Lemma map_update_id {A B} (get_id : A -> ObjectId) (g : A -> B)
  (i : ObjectId) (f : A -> A) (docs : list A) :
  (forall d, g (f d) = g d) ->
  g <$> update_id get_id i f docs = g <$> docs.
Proof.
  intros Hg. induction docs as [| d ds IH]; simpl; [reflexivity |].
  destruct (equals (get_id d) i); simpl.
  - now rewrite Hg.
  - f_equal. exact IH.
Qed.

(** Writing through [docs.id(i)] replaces the resolved subdocument and
    leaves those before and after it in place. *)
Lemma update_id_split {A} (get_id : A -> ObjectId) (docs : list A)
  (i : ObjectId) (d : A) :
  id get_id docs i = Some d ->
  exists before after,
    docs = before ++ d :: after /\
    (forall x, x ∈ before -> get_id x <> i) /\
    forall f, update_id get_id i f docs = before ++ f d :: after.
Proof.
  unfold id. induction docs as [| x xs IH]; simpl; [discriminate |].
  destruct (equals (get_id x) i) eqn:E.
  - intros [= ->]. exists [], xs. split; [reflexivity | split].
    + intros y Hy. now apply elem_of_nil in Hy.
    + reflexivity.
  - intros H. destruct (IH H) as (before & after & -> & Hb & Hf).
    exists (x :: before), after. split; [reflexivity | split].
    + intros y Hy. apply elem_of_cons in Hy as [-> | Hy]; [| now apply Hb].
      now apply equals_neq.
    + intros f. simpl. now rewrite Hf.
Qed.

(** X2. Toggling the like of a comment or of a reply changes that one
    liker array and nothing else. The comments of the post are those
    before the resolved comment (none of which has its identifier), the
    resolved comment, and those after it; the post after a comment toggle
    is the post before with, in that place, the same comment with the
    actor toggled in its likes. For a reply toggle the replies of the
    comment split the same way around the resolved reply, and the post
    after it is the post before with the actor toggled in the likes of
    that reply. Every other comment and reply, with its likes, and every
    other field of the post is what it was; what is saved is that
    post. *)
Theorem nested_toggle_isolated (db : list Post) (P : Post)
  (cid rid A : ObjectId) (c : Comment) :
  validate P = [] ->
  id comment_id (post_comments P) cid = Some c ->
  exists before after,
    post_comments P = before ++ c :: after /\
    (forall d, d ∈ before -> comment_id d <> cid) /\
    (exists P1,
        toggleCommentLike db P cid A = Ok (P1, stored db P1) /\
        P1 = set_post_comments
               (before ++
                set_comment_likes (toggle A (comment_likes c)) c :: after)
               P) /\
    (forall r,
        id reply_id (comment_replies c) rid = Some r ->
        exists earlier later P1,
          comment_replies c = earlier ++ r :: later /\
          (forall d, d ∈ earlier -> reply_id d <> rid) /\
          toggleReplyLike db P cid rid A = Ok (P1, stored db P1) /\
          P1 = set_post_comments
                 (before ++
                  set_comment_replies
                    (earlier ++
                     set_reply_likes (toggle A (reply_likes r)) r :: later)
                    c
                  :: after)
                 P).
Proof.
  intros Hv Hc.
  destruct (update_id_split comment_id (post_comments P) cid c Hc)
    as (before & after & Hsplit & Hbefore & Hupd).
  exists before, after. split; [exact Hsplit | split; [exact Hbefore |]].
  split.
  - eexists. unfold toggleCommentLike. rewrite Hc.
    rewrite saved_method
      by (rewrite validate_update_comments; [exact Hv | reflexivity]).
    rewrite Hupd. split; reflexivity.
  - intros r Hr.
    destruct (update_id_split reply_id (comment_replies c) rid r Hr)
      as (earlier & later & Hsplit' & Hearlier & Hupd').
    exists earlier, later. eexists.
    split; [exact Hsplit' | split; [exact Hearlier |]].
    unfold toggleReplyLike. rewrite Hc, Hr.
    rewrite saved_method.
    + rewrite Hupd, Hupd'. split; reflexivity.
    + rewrite validate_update_comments; [exact Hv |].
      intros c0. now apply validateComment_update_replies.
Qed.

Lemma nested_toggle_isolated_witness :
  validate threadPost = [] /\
  id comment_id (post_comments threadPost) 31
  = Some (mkComment 31 "nice" 2 [] [mkReply 32 "thanks" 1 []]) /\
  exists before after P1,
    post_comments threadPost
    = before ++ mkComment 31 "nice" 2 [] [mkReply 32 "thanks" 1 []] :: after /\
    toggleCommentLike [threadPost] threadPost 31 3
    = Ok (P1, stored [threadPost] P1).
Proof.
  split; [reflexivity | split; [reflexivity |]].
  destruct (nested_toggle_isolated [threadPost] threadPost 31 32 3
              (mkComment 31 "nice" 2 [] [mkReply 32 "thanks" 1 []])
              eq_refl eq_refl)
    as (before & after & Hsplit & _ & (P1 & H1 & _) & _).
  exists before, after, P1. split; [exact Hsplit | exact H1].
Defined.

(** ** Request validation and the schema agree *)

Lemma length_string_of_list_ascii (l : list ascii) :
  String.length (String.string_of_list_ascii l) = length l.
Proof. induction l as [| a l IH]; simpl; [reflexivity | now rewrite IH]. Qed.

Lemma length_list_ascii_of_string (s : string) :
  length (String.list_ascii_of_string s) = String.length s.
Proof. induction s as [| a s IH]; simpl; [reflexivity | now rewrite IH]. Qed.

Lemma dropWhile_length {A} (f : A -> bool) (l : list A) :
  length (Js.dropWhile f l) <= length l.
Proof.
  induction l as [| x l IH]; simpl; [lia |].
  destruct (f x); simpl; lia.
Qed.

Lemma trim_length (s : string) : String.length (Js.trim s) <= String.length s.
Proof.
  unfold Js.trim, Js.trimList. rewrite length_string_of_list_ascii.
  rewrite length_rev.
  etransitivity; [apply dropWhile_length |]. rewrite length_rev.
  etransitivity; [apply dropWhile_length |].
  now rewrite length_list_ascii_of_string.
Qed.

Lemma truthy_true (s : string) : Js.truthy s = true <-> s <> "".
Proof. destruct s; simpl; split; congruence. Qed.

(** A rule set with the one field [content]. *)
Lemma validateRequest_content (rules : Rules) (body : Body) :
  validateRequest [("content", rules)] body = None
  <-> validateField "content" rules (body_content body) = [].
Proof.
  unfold validateRequest. simpl. rewrite app_nil_r.
  unfold bodyField. simpl.
  destruct (validateField "content" rules (body_content body));
    split; congruence.
Qed.

Lemma validateField_required (max : nat) (msg : string)
  (value : option string) :
  0 < max ->
  validateField "content" (mkRules true None (Some max) msg) value = []
  <-> exists s, value = Some s /\ Js.trim s <> "" /\ String.length s <= max.
Proof.
  intros Hmax. unfold validateField. simpl.
  destruct value as [s |]; simpl.
  - destruct (Js.truthy s) eqn:Et; simpl.
    + destruct (String.eqb_spec (Js.trim s) "") as [E | E]; simpl.
      * split; [discriminate | intros (s' & [= <-] & Hne & _); contradiction].
      * destruct max as [| m]; [lia |]. simpl.
        destruct (Nat.ltb_spec (S m) (String.length s)); split.
        -- discriminate.
        -- intros (s' & [= <-] & _ & Hle). lia.
        -- intros _. exists s. repeat split; [exact E | lia].
        -- reflexivity.
    + split; [discriminate |]. intros (s' & [= <-] & Hne & _).
      destruct s; [| discriminate]. now contradiction Hne.
  - split; [discriminate | intros (s & [=] & _)].
Qed.

(** X3. Request validation of the post routes, by rule set: a comment
    passes exactly when its content is present, not blank and at most 500
    long, a reply the same with 200, and a post to create or update
    exactly when its content is absent, empty or at most 500 long (blank
    content is left to the handler). A refusal is a 400. *)
Theorem validateRequest_content_rules (body : Body) :
  (validateRequest commentValidation body = None
   <-> exists s, body_content body = Some s /\ Js.trim s <> "" /\
                 String.length s <= 500) /\
  (validateRequest replyValidation body = None
   <-> exists s, body_content body = Some s /\ Js.trim s <> "" /\
                 String.length s <= 200) /\
  (validateRequest createPostValidation body = None
   <-> String.length (default "" (body_content body)) <= 500) /\
  (forall rules res,
      validateRequest rules body = Some res ->
      status res = 400 /\ message res = "Validation failed").
Proof.
  split; [| split; [| split]].
  - unfold commentValidation. rewrite validateRequest_content.
    apply validateField_required. lia.
  - unfold replyValidation. rewrite validateRequest_content.
    apply validateField_required. lia.
  - unfold createPostValidation. rewrite validateRequest_content.
    unfold validateField. simpl.
    destruct (body_content body) as [s |]; simpl; [| split; [lia | reflexivity]].
    destruct s as [| a s]; simpl; [split; [lia | reflexivity] |].
    destruct (Nat.ltb_spec 500 (S (String.length s))); split;
      try discriminate; try reflexivity; lia.
  - intros rules res. unfold validateRequest.
    destruct (concat _); [discriminate |]. intros [= <-]. split; reflexivity.
Qed.

Lemma validateRequest_content_rules_witness :
  validateRequest commentValidation (mkBody (Some "  ") None)
  = Some (mkResponse 400 "Validation failed"
            (WithErrors ["content is required"])) /\
  status (mkResponse 400 "Validation failed"
            (WithErrors ["content is required"])) = 400.
Proof.
  split; [reflexivity |].
  destruct (validateRequest_content_rules (mkBody (Some "  ") None))
    as (_ & _ & _ & H).
  destruct (H commentValidation _ eq_refl) as [Hs _]. exact Hs.
Defined.

(** ** Comments and replies are appended *)

Lemma validate_append_comment (P : Post) (c : Comment) :
  validate (set_post_comments (push c (post_comments P)) P)
  = validate P ++ validateComment c.
Proof.
  unfold validate, preValidate, push. simpl.
  rewrite map_app, concat_app. simpl. rewrite app_nil_r.
  now rewrite <- !app_assoc.
Qed.

Lemma validateComment_castComment (newId author : ObjectId) (s : string) :
  validateComment (castComment newId (mkData s author)) = []
  <-> Js.trim s <> "" /\ String.length (Js.trim s) <= 500.
Proof.
  unfold validateComment, castComment. simpl. rewrite app_nil_r.
  destruct (Js.trim s) as [| a t] eqn:E; simpl.
  - split; [discriminate | intros [H _]; now contradiction H].
  - destruct (Nat.ltb_spec 500 (S (String.length t))); split;
      try discriminate; try reflexivity.
    + intros [_ Hle]. lia.
    + intros _. split; [discriminate | lia].
Qed.

(** X4. [addComment] is append-only: on a stored (valid) post and content
    that is not blank and at most 500 long after trimming, it saves the
    post with the comments it had, in their order, followed by the new
    comment, which carries the trimmed content, the given author, no like
    and no reply; the likes of the post are untouched. With content that
    is blank after trimming it throws a validation error and saves
    nothing. *)
Theorem addComment_appends (db : list Post) (P : Post) (newId : ObjectId)
  (commentData : SubdocData) :
  validate P = [] ->
  (Js.trim (data_content commentData) <> "" ->
   String.length (Js.trim (data_content commentData)) <= 500 ->
   exists P1,
     addComment db P newId commentData = Ok (P1, stored db P1) /\
     post_comments P1
     = post_comments P ++
       [mkComment newId (Js.trim (data_content commentData))
                  (data_author commentData) [] []] /\
     commentsCount P1 = S (commentsCount P) /\
     post_likes P1 = post_likes P /\
     validate P1 = []) /\
  (Js.trim (data_content commentData) = "" ->
   exists errors,
     addComment db P newId commentData = Throw (ValidationError errors)).
Proof.
  intros Hv. unfold addComment. destruct commentData as [s a]. simpl.
  split.
  - intros Hne Hle.
    assert (validate (set_post_comments
                        (push (castComment newId (mkData s a))
                              (post_comments P)) P) = []) as Hv1.
    { rewrite validate_append_comment, Hv. simpl.
      now apply validateComment_castComment. }
    eexists. split; [now apply saved_method |].
    simpl. unfold commentsCount, push. simpl.
    repeat split; try exact Hv1. rewrite length_app. simpl. lia.
  - intros Hblank. unfold save.
    rewrite validate_append_comment, Hv. simpl.
    unfold validateComment, castComment. simpl. rewrite Hblank. simpl.
    eexists. reflexivity.
Qed.

Lemma addComment_appends_witness :
  validate threadPost = [] /\
  Js.trim (data_content (mkData " well said " 1)) <> "" /\
  String.length (Js.trim (data_content (mkData " well said " 1))) <= 500 /\
  exists P1,
    addComment [threadPost] threadPost 33 (mkData " well said " 1)
    = Ok (P1, stored [threadPost] P1) /\
    commentsCount P1 = S (commentsCount threadPost).
Proof.
  assert (Js.trim (data_content (mkData " well said " 1)) <> "") as Hne
    by discriminate.
  assert (String.length (Js.trim (data_content (mkData " well said " 1)))
          <= 500) as Hle by (vm_compute; lia).
  split; [reflexivity | split; [exact Hne | split; [exact Hle |]]].
  destruct (addComment_appends [threadPost] threadPost 33
              (mkData " well said " 1) eq_refl) as [H _].
  destruct (H Hne Hle) as (P1 & H1 & _ & H2 & _).
  exists P1. split; [exact H1 | exact H2].
Defined.

Section UpdateById.

Context {A : Type} (get_id : A -> ObjectId).

Lemma id_update_id_ne (docs : list A) (i j : ObjectId) (f : A -> A) :
  (forall d, get_id (f d) = get_id d) -> i <> j ->
  id get_id (update_id get_id i f docs) j = id get_id docs j.
Proof.
  intros Hid Hne. unfold id.
  induction docs as [| d ds IH]; simpl; [reflexivity |].
  destruct (equals (get_id d) i) eqn:E; simpl.
  - rewrite Hid. apply equals_eq in E.
    assert (equals (get_id d) j = false) as ->
      by (apply equals_neq; congruence).
    reflexivity.
  - destruct (equals (get_id d) j); [reflexivity | exact IH].
Qed.

Lemma concat_map_update_id_nil {B} (v : A -> list B) (docs : list A)
  (i : ObjectId) (f : A -> A) :
  (forall d, v d = [] -> v (f d) = []) ->
  concat (map v docs) = [] ->
  concat (map v (update_id get_id i f docs)) = [].
Proof.
  intros Hv. induction docs as [| d ds IH]; simpl; [reflexivity |].
  intros H. apply app_eq_nil in H as [Hd Hds].
  destruct (equals (get_id d) i); simpl.
  - now rewrite (Hv d Hd), Hds.
  - now rewrite Hd, (IH Hds).
Qed.

Lemma concat_map_update_id_cons {B} (v : A -> list B) (docs : list A)
  (i : ObjectId) (f : A -> A) (d : A) :
  id get_id docs i = Some d -> v (f d) <> [] ->
  concat (map v (update_id get_id i f docs)) <> [].
Proof.
  unfold id. induction docs as [| x xs IH]; simpl; [discriminate |].
  destruct (equals (get_id x) i); simpl.
  - intros [= ->] Hne H. apply app_eq_nil in H as [H _]. contradiction.
  - intros Hf Hne H. apply app_eq_nil in H as [_ H]. now apply IH.
Qed.

End UpdateById.

Lemma validate_nil (P : Post) :
  validate P = [] <->
  preValidate P = [] /\
  String.length (post_content P) <= 500 /\
  concat (map validateImage (post_images P)) = [] /\
  concat (map validateComment (post_comments P)) = [].
Proof.
  unfold validate. split.
  - intros H. apply app_eq_nil in H as [H1 H].
    apply app_eq_nil in H as [H2 H]. apply app_eq_nil in H as [H3 H4].
    repeat split; auto.
    destruct (Nat.ltb_spec 500 (String.length (post_content P)));
      [discriminate | lia].
  - intros (-> & Hle & -> & ->).
    destruct (Nat.ltb_spec 500 (String.length (post_content P)));
      [lia | reflexivity].
Qed.

(** X5. [addReply] on an existing comment is append-only and local: with
    content that is not blank and at most 200 long after trimming it saves
    the post with the new reply (trimmed content, given author, no like)
    at the end of the replies of that comment; every other comment, the
    order of the comments and the likes of the post are untouched. With
    content that is blank after trimming it throws a validation error and
    saves nothing. *)
Theorem addReply_appends (db : list Post) (P : Post)
  (cid newId : ObjectId) (replyData : SubdocData) (c : Comment) :
  validate P = [] ->
  id comment_id (post_comments P) cid = Some c ->
  (Js.trim (data_content replyData) <> "" ->
   String.length (Js.trim (data_content replyData)) <= 200 ->
   exists P1,
     addReply db P cid newId replyData = Ok (P1, stored db P1) /\
     id comment_id (post_comments P1) cid
     = Some (set_comment_replies
               (comment_replies c ++
                [mkReply newId (Js.trim (data_content replyData))
                         (data_author replyData) []]) c) /\
     (forall other, other <> cid ->
        id comment_id (post_comments P1) other
        = id comment_id (post_comments P) other) /\
     comment_id <$> post_comments P1 = comment_id <$> post_comments P /\
     post_likes P1 = post_likes P /\
     validate P1 = []) /\
  (Js.trim (data_content replyData) = "" ->
   exists errors,
     addReply db P cid newId replyData = Throw (ValidationError errors)).
Proof.
  intros Hv Hc. unfold addReply. rewrite Hc.
  destruct replyData as [s a]. simpl.
  set (f := fun comment : Comment =>
              set_comment_replies
                (push (castReply newId (mkData s a)) (comment_replies comment))
                comment).
  apply validate_nil in Hv as (Hpre & Hlen & Himg & Hcs).
  split.
  - intros Hne Hle.
    assert (validate (set_post_comments
                        (update_id comment_id cid f (post_comments P)) P)
            = []) as Hv1.
    { apply validate_nil. simpl. repeat split; auto.
      apply concat_map_update_id_nil; [| exact Hcs].
      intros d Hd. unfold f, validateComment, push. simpl.
      unfold validateComment in Hd.
      apply app_eq_nil in Hd as [H1 Hd]. apply app_eq_nil in Hd as [H2 H3].
      rewrite H1, H2, map_app, concat_app, H3. simpl.
      unfold validateReply, castReply. simpl.
      destruct (Js.trim s) as [| x t] eqn:E; [now contradiction Hne |].
      simpl.
      destruct (Nat.ltb_spec 200 (S (String.length t))); [simpl in Hle; lia |].
      reflexivity. }
    eexists. split; [now apply saved_method |]. simpl.
    split; [| split; [| split; [| split]]].
    + rewrite id_update_id by reflexivity. now rewrite Hc.
    + intros other Hother. now apply id_update_id_ne.
    + now apply map_update_id.
    + reflexivity.
    + exact Hv1.
  - intros Hblank. unfold save.
    destruct (validate (set_post_comments
                          (update_id comment_id cid f (post_comments P)) P))
      as [| e errs] eqn:Hval; [| eexists; reflexivity].
    exfalso. apply validate_nil in Hval as (_ & _ & _ & Hbad). simpl in Hbad.
    revert Hbad. apply (concat_map_update_id_cons comment_id _ _ _ _ c Hc).
    unfold f, validateComment, push. simpl.
    rewrite map_app, concat_app. simpl.
    unfold validateReply at 2. unfold castReply. simpl. rewrite Hblank. simpl.
    intros H. apply app_eq_nil in H as [_ H]. apply app_eq_nil in H as [_ H].
    apply app_eq_nil in H as [_ H]. discriminate.
Qed.

Lemma addReply_appends_witness :
  validate threadPost = [] /\
  id comment_id (post_comments threadPost) 31
  = Some (mkComment 31 "nice" 2 [] [mkReply 32 "thanks" 1 []]) /\
  exists errors,
    addReply [threadPost] threadPost 31 34 (mkData "   " 2)
    = Throw (ValidationError errors).
Proof.
  split; [reflexivity | split; [reflexivity |]].
  destruct (addReply_appends [threadPost] threadPost 31 34 (mkData "   " 2)
              (mkComment 31 "nice" 2 [] [mkReply 32 "thanks" 1 []])
              eq_refl eq_refl) as [_ H].
  apply H. reflexivity.
Defined.

(** ** Load, mutate, save *)

Lemma stored_ids (db : list Post) (P' : Post) :
  post_id <$> stored db P' = post_id <$> db.
Proof.
  unfold stored. induction db as [| d db IH]; simpl; [reflexivity |].
  f_equal; [| exact IH].
  destruct (equals (post_id d) (post_id P')) eqn:E; [| reflexivity].
  apply equals_eq in E. congruence.
Qed.

Lemma stored_elem (db : list Post) (P P' : Post) :
  P ∈ db -> post_id P' = post_id P -> P' ∈ stored db P'.
Proof.
  intros Hin Hid. unfold stored. apply list_elem_of_fmap.
  exists P. rewrite Hid, equals_refl. auto.
Qed.

Lemma stored_other (db : list Post) (P' Q : Post) :
  Q ∈ db -> post_id Q <> post_id P' -> Q ∈ stored db P'.
Proof.
  intros Hin Hne. unfold stored. apply list_elem_of_fmap.
  exists Q. split; [| exact Hin].
  assert (equals (post_id Q) (post_id P') = false) as ->
    by now apply equals_neq.
  reflexivity.
Qed.

Lemma stored_elem_inv (db : list Post) (P' Q : Post) :
  Q ∈ stored db P' -> Q = P' \/ (Q ∈ db /\ post_id Q <> post_id P').
Proof.
  unfold stored. intros H. apply list_elem_of_fmap in H as (d & -> & Hd).
  destruct (equals (post_id d) (post_id P')) eqn:E; [now left | right].
  apply equals_neq in E. auto.
Qed.

Lemma stored_same (db : list Post) (P : Post) :
  P ∈ db -> NoDup (post_id <$> db) -> stored db P = db.
Proof.
  intros Hin Hnd. unfold stored.
  rewrite <- (map_id db) at 2. apply map_ext_in. intros d Hd.
  destruct (equals (post_id d) (post_id P)) eqn:E; [| reflexivity].
  apply equals_eq in E. apply list_elem_of_In in Hd.
  symmetry. now apply (unique_post_id db).
Qed.

Lemma stored_stored (db : list Post) (P1 P2 : Post) :
  post_id P1 = post_id P2 -> stored (stored db P1) P2 = stored db P2.
Proof.
  intros Hid. unfold stored. rewrite map_map. apply map_ext. intros d.
  rewrite Hid. destruct (equals (post_id d) (post_id P2)) eqn:E.
  - rewrite <- Hid. now rewrite equals_refl.
  - now rewrite E.
Qed.

(** Reloading after a save gives the saved document. *)
Lemma getPost_stored (users : list User) (db : list Post) (P P' : Post) :
  P ∈ db -> NoDup (post_id <$> db) -> post_id P' = post_id P ->
  isDeleted P' = false ->
  getPost users (stored db P') (post_id P)
  = inr (mkResource P' (populate users (post_author P'))).
Proof.
  intros Hin Hnd Hid Hdel. rewrite <- Hid. apply getPost_found.
  - now apply (stored_elem db P).
  - now rewrite stored_ids.
  - exact Hdel.
Qed.

Lemma hiddenFromUser_visible (post : Resource) (userId : ObjectId) :
  isHidden (doc post) = false -> hiddenFromUser post userId = Ok false.
Proof. intros H. unfold hiddenFromUser. now rewrite H. Qed.

Lemma set_post_likes_same (P : Post) (l : list ObjectId) :
  set_post_likes (post_likes P) (set_post_likes l P) = P.
Proof. now destruct P. Qed.

(** X6. Two like requests in a row by one user on a visible post, each
    admitted by the limiter: both answer 200, the first stores the post
    with the user toggled once, the second, which reloads the post from
    the collection, stores it with the likers it had at the start; when
    the user had not liked the post, the collection comes back exactly. *)
Theorem likeRoute_twice (users : list User) (db : list Post)
  (attempts : gmap (N * Z) nat) (now now' : Z) (U : User) (P : Post) :
  P ∈ db -> NoDup (post_id <$> db) ->
  isDeleted P = false -> isHidden P = false -> validate P = [] ->
  let first := likeRoute users db attempts now U (post_id P) in
  let second := likeRoute users first.1.2 first.2 now' U (post_id P) in
  (actionRateLimit 50 (60 * 1000) attempts (user_id U) now).1 = None ->
  (actionRateLimit 50 (60 * 1000) first.2 (user_id U) now').1 = None ->
  exists P1 P2,
    first.1 = (mkResponse 200 "Like toggled successfully" (WithPost P1),
               stored db P1) /\
    toggled_once (user_id U) (post_likes P) (post_likes P1) /\
    second.1 = (mkResponse 200 "Like toggled successfully" (WithPost P2),
                stored db P2) /\
    same_likers (post_likes P2) (post_likes P) /\
    (user_id U ∉ post_likes P -> second.1.2 = db).
Proof.
  intros Hin Hnd Hdel Hhid Hv first second Hlim1.
  set (P1 := set_post_likes (toggle (user_id U) (post_likes P)) P).
  set (P2 := set_post_likes (toggle (user_id U) (post_likes P1)) P1).
  assert (first.1 = (mkResponse 200 "Like toggled successfully" (WithPost P1),
                     stored db P1)) as Hfirst.
  { subst first. unfold likeRoute.
    rewrite (getPost_found users db P Hin Hnd Hdel).
    rewrite limited_pass by exact Hlim1. unfold likeHandler.
    rewrite hiddenFromUser_visible by exact Hhid. simpl.
    destruct (toggleLike_valid db P (user_id U) Hv) as [-> _]. reflexivity. }
  intros Hlim2.
  assert (second.1 = (mkResponse 200 "Like toggled successfully" (WithPost P2),
                      stored db P2)) as Hsecond.
  { subst second. rewrite Hfirst. simpl. unfold likeRoute.
    rewrite (getPost_stored users db P P1 Hin Hnd eq_refl Hdel).
    rewrite limited_pass by exact Hlim2. unfold likeHandler.
    rewrite hiddenFromUser_visible by exact Hhid. simpl.
    destruct (toggleLike_valid (stored db P1) P1 (user_id U) Hv) as [-> _].
    simpl. fold P2. now rewrite stored_stored. }
  exists P1, P2. split; [exact Hfirst | split; [| split; [exact Hsecond |
    split]]].
  - intros x. apply toggle_elem.
  - intros x. apply toggle_toggle_elem.
  - intros Hnot. rewrite Hsecond. simpl. subst P2 P1. simpl.
    rewrite toggle_toggle_absent by exact Hnot.
    rewrite set_post_likes_same. now apply stored_same.
Qed.

Lemma likeRoute_twice_witness :
  olderLiked ∈ twoPosts /\ NoDup (post_id <$> twoPosts) /\
  isDeleted olderLiked = false /\ isHidden olderLiked = false /\
  validate olderLiked = [] /\
  exists P1 P2,
    (likeRoute [alice; bob] twoPosts ∅ 5000 alice (post_id olderLiked)).1
    = (mkResponse 200 "Like toggled successfully" (WithPost P1),
       stored twoPosts P1) /\
    (likeRoute [alice; bob]
       (likeRoute [alice; bob] twoPosts ∅ 5000 alice (post_id olderLiked)).1.2
       (likeRoute [alice; bob] twoPosts ∅ 5000 alice (post_id olderLiked)).2
       5001 alice (post_id olderLiked)).1
    = (mkResponse 200 "Like toggled successfully" (WithPost P2),
       stored twoPosts P2).
Proof.
  assert (olderLiked ∈ twoPosts) as Hin by apply list_elem_of_here.
  assert (NoDup (post_id <$> twoPosts)) as Hnd by decided.
  split; [exact Hin | split; [exact Hnd | split; [reflexivity | split;
    [reflexivity | split; [reflexivity |]]]]].
  destruct (likeRoute_twice [alice; bob] twoPosts ∅ 5000 5001 alice
              olderLiked Hin Hnd eq_refl eq_refl eq_refl)
    as (P1 & P2 & H1 & _ & H2 & _).
  - vm_compute. reflexivity.
  - vm_compute. reflexivity.
  - exists P1, P2. split; [exact H1 | exact H2].
Defined.




(** ** The owner's routes *)

Lemma getPost_inr (users : list User) (db : list Post) (pid : ObjectId)
  (post : Resource) :
  getPost users db pid = inr post ->
  doc post ∈ db /\ post_id (doc post) = pid /\
  isDeleted (doc post) = false /\
  author post = populate users (post_author (doc post)).
Proof.
  unfold getPost. destruct (List.find _ db) as [p |] eqn:Hf; [| discriminate].
  intros [= <-]. apply find_some in Hf as [Hin Hc].
  apply andb_true_iff in Hc as [Hid Hdel]. apply equals_eq in Hid.
  apply negb_true_iff in Hdel. apply list_elem_of_In in Hin. simpl. auto.
Qed.

Lemma getPost_inl (users : list User) (db : list Post) (pid : ObjectId)
  (res : Response) :
  getPost users db pid = inl res -> res = postNotFound.
Proof.
  unfold getPost. destruct (List.find _ db); [discriminate |].
  now intros [= <-].
Qed.

Lemma checkOwnership_author (users : list User) (P : Post) (U : User) :
  is_Some (populate users (post_author P)) ->
  checkOwnership (Some (mkResource P (populate users (post_author P)))) U
  = if equals (post_author P) (user_id U) then None
    else Some (mkResponse 403
                 "Access denied. You can only modify your own content."
                 NoPayload).
Proof.
  intros [a Ha]. unfold checkOwnership. simpl. rewrite Ha.
  apply populate_Some in Ha. now rewrite Ha.
Qed.

Lemma checkOwnership_None (post : Resource) (U : User) :
  checkOwnership (Some post) U = None ->
  exists owner, author post = Some owner /\ user_id owner = user_id U.
Proof.
  unfold checkOwnership. destruct (author post) as [a |]; [| discriminate].
  destruct (equals (user_id a) (user_id U)) eqn:E; [| discriminate].
  apply equals_eq in E. eauto.
Qed.

(** X8. The owner's routes refuse everybody else: on a stored post that
    is not deleted, hidden or not, update, hide and delete by an
    authenticated user who is not the author answer 403 and leave the
    collection as it was. *)
Theorem owner_routes_forbidden (users : list User) (db : list Post)
  (U : User) (P : Post) :
  P ∈ db -> NoDup (post_id <$> db) -> isDeleted P = false ->
  is_Some (populate users (post_author P)) ->
  user_id U <> post_author P ->
  let forbidden :=
    mkResponse 403 "Access denied. You can only modify your own content."
               NoPayload in
  hideRoute users db U (post_id P) = (forbidden, db) /\
  deleteRoute users db U (post_id P) = (forbidden, db) /\
  (forall attempts now body,
      updateRoute users db attempts now U (post_id P) body
      = (forbidden, db, attempts)).
Proof.
  intros Hin Hnd Hdel Ha Hne forbidden. subst forbidden.
  pose proof (getPost_found users db P Hin Hnd Hdel) as Hget.
  pose proof (checkOwnership_author users P U Ha) as Hown.
  assert (equals (post_author P) (user_id U) = false) as E
    by (apply equals_neq; congruence).
  rewrite E in Hown.
  split; [| split].
  - unfold hideRoute. now rewrite Hget, Hown.
  - unfold deleteRoute. now rewrite Hget, Hown.
  - intros. unfold updateRoute. now rewrite Hget, Hown.
Qed.

Lemma owner_routes_forbidden_witness :
  hiddenPost ∈ [hiddenPost] /\ NoDup (post_id <$> [hiddenPost]) /\
  isDeleted hiddenPost = false /\
  is_Some (populate [alice; bob] (post_author hiddenPost)) /\
  user_id bob <> post_author hiddenPost /\
  deleteRoute [alice; bob] [hiddenPost] bob (post_id hiddenPost)
  = (mkResponse 403 "Access denied. You can only modify your own content."
       NoPayload, [hiddenPost]).
Proof.
  assert (hiddenPost ∈ [hiddenPost]) as Hin by apply list_elem_of_here.
  assert (NoDup (post_id <$> [hiddenPost])) as Hnd by decided.
  assert (is_Some (populate [alice; bob] (post_author hiddenPost))) as Ha
    by (exists alice; reflexivity).
  assert (user_id bob <> post_author hiddenPost) as Hne by discriminate.
  split; [exact Hin | split; [exact Hnd | split; [reflexivity | split;
    [exact Ha | split; [exact Hne |]]]]].
  destruct (owner_routes_forbidden [alice; bob] [hiddenPost] bob hiddenPost
              Hin Hnd eq_refl Ha Hne) as (_ & H & _).
  exact H.
Defined.

Lemma set_isHidden_twice (P : Post) :
  set_isHidden (negb (negb (isHidden P))) (set_isHidden (negb (isHidden P)) P)
  = P.
Proof. destruct P as [? ? ? ? ? ? h ? ?]. simpl. now rewrite negb_involutive. Qed.

Lemma hideRoute_author (users : list User) (db : list Post) (U : User)
  (P : Post) :
  P ∈ db -> NoDup (post_id <$> db) -> isDeleted P = false ->
  is_Some (populate users (post_author P)) ->
  user_id U = post_author P -> validate P = [] ->
  let P1 := set_isHidden (negb (isHidden P)) P in
  hideRoute users db U (post_id P)
  = (mkResponse 200
       (if isHidden P1 then "Post hidden successfully"
        else "Post unhidden successfully") (WithPost P1),
     stored db P1).
Proof.
  intros Hin Hnd Hdel Ha HU Hv P1. subst P1. unfold hideRoute.
  rewrite (getPost_found users db P Hin Hnd Hdel).
  rewrite (checkOwnership_author users P U Ha), <- HU, equals_refl.
  unfold hideHandler, save. simpl.
  change (validate (set_isHidden (negb (isHidden P)) P)) with (validate P).
  now rewrite Hv.
Qed.

(** X9. Hiding is a toggle of the author: a hide request by the author
    flips [isHidden] and nothing else, and a second one restores the
    collection exactly. After hiding a visible post, single-post
    retrieval answers "Post not found" to the anonymous viewer and to
    every user but the author, who still gets the post. *)
Theorem hideRoute_toggles (users : list User) (db : list Post) (U : User)
  (P : Post) :
  P ∈ db -> NoDup (post_id <$> db) -> isDeleted P = false ->
  is_Some (populate users (post_author P)) ->
  user_id U = post_author P -> validate P = [] ->
  let P1 := set_isHidden (negb (isHidden P)) P in
  let first := hideRoute users db U (post_id P) in
  let second := hideRoute users first.2 U (post_id P) in
  first
  = (mkResponse 200
       (if isHidden P then "Post unhidden successfully"
        else "Post hidden successfully") (WithPost P1),
     stored db P1) /\
  second.2 = db /\ payload second.1 = WithPost P /\
  (isHidden P = false ->
   singlePostRoute users first.2 None (post_id P) = postNotFound /\
   (forall V, user_id V <> post_author P ->
              singlePostRoute users first.2 (Some V) (post_id P)
              = postNotFound) /\
   singlePostRoute users first.2 (Some U) (post_id P)
   = mkResponse 200 "" (WithPost P1)).
Proof.
  intros Hin Hnd Hdel Ha HU Hv P1 first second.
  pose proof (hideRoute_author users db U P Hin Hnd Hdel Ha HU Hv) as H1.
  fold P1 in H1. fold first in H1.
  assert (P1 ∈ stored db P1) as Hin1 by now apply (stored_elem db P).
  assert (NoDup (post_id <$> stored db P1)) as Hnd1 by now rewrite stored_ids.
  pose proof (hideRoute_author users (stored db P1) U P1 Hin1 Hnd1 Hdel Ha HU
                Hv) as H2.
  change (post_id P1) with (post_id P) in H2.
  split; [| split; [| split]].
  - rewrite H1. simpl. now destruct (isHidden P).
  - subst second. rewrite H1. simpl. rewrite H2. simpl.
    rewrite stored_stored by reflexivity.
    subst P1. rewrite set_isHidden_twice. now apply stored_same.
  - subst second. rewrite H1. simpl. rewrite H2. simpl.
    subst P1. now rewrite set_isHidden_twice.
  - intros Hvis. rewrite H1. simpl.
    assert (getPost users (stored db P1) (post_id P)
            = inr (mkResource P1 (populate users (post_author P)))) as Hget
      by exact (getPost_stored users db P P1 Hin Hnd eq_refl Hdel).
    unfold singlePostRoute. rewrite Hget.
    unfold hiddenFromViewer, authorEquals. simpl. rewrite Hvis. simpl.
    destruct Ha as [a Ha]. rewrite Ha. apply populate_Some in Ha. simpl.
    split; [reflexivity | split].
    + intros V HV.
      assert (equals (user_id a) (user_id V) = false) as ->
        by (apply equals_neq; congruence).
      reflexivity.
    + assert (equals (user_id a) (user_id U) = true) as ->
        by (apply equals_eq; congruence).
      reflexivity.
Qed.

Lemma hideRoute_toggles_witness :
  olderLiked ∈ twoPosts /\ NoDup (post_id <$> twoPosts) /\
  isDeleted olderLiked = false /\
  is_Some (populate [alice; bob] (post_author olderLiked)) /\
  user_id alice = post_author olderLiked /\ validate olderLiked = [] /\
  (hideRoute [alice; bob]
     (hideRoute [alice; bob] twoPosts alice (post_id olderLiked)).2 alice
     (post_id olderLiked)).2 = twoPosts.
Proof.
  assert (olderLiked ∈ twoPosts) as Hin by apply list_elem_of_here.
  assert (NoDup (post_id <$> twoPosts)) as Hnd by decided.
  assert (is_Some (populate [alice; bob] (post_author olderLiked))) as Ha
    by (exists alice; reflexivity).
  split; [exact Hin | split; [exact Hnd | split; [reflexivity | split;
    [exact Ha | split; [reflexivity | split; [reflexivity |]]]]]].
  destruct (hideRoute_toggles [alice; bob] twoPosts alice olderLiked
              Hin Hnd eq_refl Ha eq_refl eq_refl) as (_ & H & _).
  exact H.
Defined.

(** X10. Deletion is soft and final: a delete request by the author marks
    the post deleted and changes no other field and no other post; from
    then on single-post retrieval and every route that loads the post
    (like, comment, update, hide, delete) answer "Post not found" and
    leave the collection alone, whoever asks, and no listing contains the
    post. *)
Theorem deleteRoute_final (users : list User) (db : list Post) (U : User)
  (P : Post) :
  P ∈ db -> NoDup (post_id <$> db) -> isDeleted P = false ->
  is_Some (populate users (post_author P)) ->
  user_id U = post_author P -> validate P = [] ->
  let db1 := stored db (set_isDeleted true P) in
  deleteRoute users db U (post_id P)
  = (mkResponse 200 "Post deleted successfully" NoPayload, db1) /\
  post_id <$> db1 = post_id <$> db /\
  (forall Q, Q ∈ db -> post_id Q <> post_id P -> Q ∈ db1) /\
  (forall viewer,
      singlePostRoute users db1 viewer (post_id P) = postNotFound) /\
  (forall V,
      hideRoute users db1 V (post_id P) = (postNotFound, db1) /\
      deleteRoute users db1 V (post_id P) = (postNotFound, db1) /\
      (forall attempts now body,
          updateRoute users db1 attempts now V (post_id P) body
          = (postNotFound, db1, attempts)) /\
      (forall attempts now,
          likeRoute users db1 attempts now V (post_id P)
          = (postNotFound, db1, attempts)) /\
      (forall attempts now newId body,
          commentRoute users db1 attempts now V (post_id P) newId body
          = (postNotFound, db1, attempts))) /\
  (forall o posts d,
      findVisiblePosts db1 o = Ok posts -> d ∈ posts ->
      post_id (fp_post d) <> post_id P).
Proof.
  intros Hin Hnd Hdel Ha HU Hv db1.
  set (P1 := set_isDeleted true P) in *.
  assert (P1 ∈ db1) as Hin1 by now apply (stored_elem db P).
  assert (NoDup (post_id <$> db1)) as Hnd1
    by (subst db1; now rewrite stored_ids).
  pose proof (getPost_deleted users db1 P1 Hin1 Hnd1 eq_refl) as Hget.
  change (post_id P1) with (post_id P) in Hget.
  split; [| split; [| split; [| split; [| split]]]].
  - unfold deleteRoute. rewrite (getPost_found users db P Hin Hnd Hdel).
    rewrite (checkOwnership_author users P U Ha), <- HU, equals_refl.
    unfold deleteHandler, save. simpl.
    change (validate (set_isDeleted true P)) with (validate P).
    now rewrite Hv.
  - apply stored_ids.
  - intros Q HQ Hne. now apply stored_other.
  - intros viewer. unfold singlePostRoute. now rewrite Hget.
  - intros V. repeat split; intros.
    + unfold hideRoute. now rewrite Hget.
    + unfold deleteRoute. now rewrite Hget.
    + unfold updateRoute. now rewrite Hget.
    + unfold likeRoute. now rewrite Hget.
    + unfold commentRoute. now rewrite Hget.
  - intros o posts d Hfind Hd Hid.
    destruct (findVisiblePosts_listed db1 o posts d Hfind Hd) as (Hdb & Hm & _).
    assert (fp_post d = P1) as E by now apply (unique_post_id db1).
    rewrite E, matchCriteria_deleted in Hm by reflexivity. discriminate.
Qed.

Lemma deleteRoute_final_witness :
  olderLiked ∈ twoPosts /\ NoDup (post_id <$> twoPosts) /\
  isDeleted olderLiked = false /\
  is_Some (populate [alice; bob] (post_author olderLiked)) /\
  user_id alice = post_author olderLiked /\ validate olderLiked = [] /\
  deleteRoute [alice; bob] twoPosts alice (post_id olderLiked)
  = (mkResponse 200 "Post deleted successfully" NoPayload,
     stored twoPosts (set_isDeleted true olderLiked)).
Proof.
  assert (olderLiked ∈ twoPosts) as Hin by apply list_elem_of_here.
  assert (NoDup (post_id <$> twoPosts)) as Hnd by decided.
  assert (is_Some (populate [alice; bob] (post_author olderLiked))) as Ha
    by (exists alice; reflexivity).
  split; [exact Hin | split; [exact Hnd | split; [reflexivity | split;
    [exact Ha | split; [reflexivity | split; [reflexivity |]]]]]].
  destruct (deleteRoute_final [alice; bob] twoPosts alice olderLiked
              Hin Hnd eq_refl Ha eq_refl eq_refl) as (H & _).
  exact H.
Defined.

Lemma trim_or_empty (content : option string) :
  Js.trim (if Js.truthy_opt (Js.trim <$> content)
           then default "" (Js.trim <$> content) else "")
  = Js.trim (default "" content).
Proof.
  destruct content as [s |]; simpl; [| reflexivity].
  destruct (Js.trim s) eqn:E; simpl; [reflexivity |].
  rewrite <- E. apply trim_idem.
Qed.

Lemma updateHandler_cases (db : list Post) (post : Resource) (body : Body) :
  let out := updateHandler db post body in
  let P1 :=
    set_content_images (default "" (body_content body))
                       (default [] (body_images body)) (doc post) in
  (status out.1 = 200 ->
   out = (mkResponse 200 "Post updated successfully" (WithPost P1),
          stored db P1) /\
   (post_content P1 <> "" \/ post_images P1 <> []) /\
   length (post_images P1) <= 5 /\
   Forall (fun image => Js.httpUrl_test image = true) (post_images P1)) /\
  (status out.1 <> 200 -> out.2 = db).
Proof.
  unfold updateHandler.
  set (images := default [] (body_images body)).
  set (trimmed := Js.trim <$> body_content body).
  assert (set_content_images
            (if Js.truthy_opt trimmed then default "" trimmed else "")
            images (doc post)
          = set_content_images (default "" (body_content body)) images
                               (doc post)) as ->.
  { unfold set_content_images. subst trimmed. now rewrite trim_or_empty. }
  destruct (negb (Js.truthy_opt trimmed) && Nat.eqb (length images) 0);
    [simpl; split; [discriminate | reflexivity] |].
  destruct (Nat.ltb_spec 5 (length images));
    [simpl; split; [discriminate | reflexivity] |].
  destruct (existsb _ images) eqn:Hex;
    [simpl; split; [discriminate | reflexivity] |].
  destruct (save false db _) as [db' |] eqn:Hsave; simpl.
  - split; [intros _ | congruence].
    pose proof (saved_has_content_or_image _ _ _ _ Hsave) as Hinv.
    unfold save in Hsave. destruct (validate _); [| discriminate].
    injection Hsave as <-. split; [reflexivity |].
    split; [exact Hinv | split; [simpl; lia |]].
    simpl. apply Forall_forall. intros image Hi.
    apply list_elem_of_In in Hi.
    destruct (Js.httpUrl_test image) eqn:Et; [reflexivity |].
    assert (existsb (fun image => negb (Js.truthy image) ||
                                  negb (Js.httpUrl_test image)) images = true)
      as Hc; [| congruence].
    apply existsb_exists. exists image. rewrite Et, orb_true_r. auto.
  - split; [discriminate | reflexivity].
Qed.

(** X11. A successful update is the author's and touches only content and
    images: whenever the update route answers 200, the post with that
    identifier was stored and not deleted, the requesting user is its
    author, and the stored post is the old one with the trimmed content
    and the images of the request (content or an image present, at most
    five images, each an http(s) URL); likes, comments, flags and creation
    time are kept. Any other answer leaves the collection as it was. *)
Theorem updateRoute_effect (users : list User) (db : list Post)
  (attempts : gmap (N * Z) nat) (now : Z) (U : User) (pid : ObjectId)
  (body : Body) :
  let out := updateRoute users db attempts now U pid body in
  (status out.1.1 = 200 ->
   exists P,
     P ∈ db /\ post_id P = pid /\ isDeleted P = false /\
     user_id U = post_author P /\
     let P1 :=
       set_content_images (default "" (body_content body))
                          (default [] (body_images body)) P in
     out.1 = (mkResponse 200 "Post updated successfully" (WithPost P1),
              stored db P1) /\
     post_content P1 = Js.trim (default "" (body_content body)) /\
     post_images P1 = default [] (body_images body) /\
     (post_content P1 <> "" \/ post_images P1 <> []) /\
     length (post_images P1) <= 5 /\
     Forall (fun image => Js.httpUrl_test image = true) (post_images P1) /\
     post_likes P1 = post_likes P /\ post_comments P1 = post_comments P /\
     isHidden P1 = isHidden P /\ createdAt P1 = createdAt P) /\
  (status out.1.1 <> 200 -> out.1.2 = db).
Proof.
  intros out. subst out. unfold updateRoute.
  destruct (getPost users db pid) as [res | post] eqn:Hget.
  - apply getPost_inl in Hget. subst res. simpl.
    split; [discriminate | reflexivity].
  - apply getPost_inr in Hget as (Hin & Hid & Hdel & Hauthor).
    destruct (checkOwnership (Some post) U) as [res |] eqn:Hown.
    + simpl. split; [| reflexivity]. intros Hs. exfalso.
      revert Hown Hs. unfold checkOwnership.
      destruct (author post) as [a |]; [| intros [= <-]; discriminate].
      destruct (equals (user_id a) (user_id U)); [discriminate |].
      intros [= <-]. discriminate.
    + apply checkOwnership_None in Hown as (owner & Ho & HoU).
      rewrite Hauthor in Ho. apply populate_Some in Ho.
      destruct (validateRequest createPostValidation body) as [res |] eqn:Hval.
      * apply validateRequest_status in Hval. simpl.
        split; [congruence | reflexivity].
      * destruct (updateHandler_cases db post body) as [H200 Hnot].
        destruct (limited_cases 10 (60 * 60 * 1000) attempts (user_id U) now
                    db (updateHandler db post body))
          as [(res & a & _ & Hres & ->) | (a & _ & ->)]; simpl.
        -- split; [congruence | reflexivity].
        -- split; [| exact Hnot]. intros Hs.
           destruct (H200 Hs) as (Hout & Hinv & Hlen & Hurls).
           exists (doc post). repeat split; auto; try congruence.
           rewrite Hout. reflexivity.
Qed.

Lemma updateRoute_effect_witness :
  status (updateRoute [alice; bob] twoPosts ∅ 5000 alice 10
            (mkBody (Some " edited ") None)).1.1 = 200 /\
  exists P,
    P ∈ twoPosts /\ post_id P = 10%N /\ user_id alice = post_author P.
Proof.
  assert (status (updateRoute [alice; bob] twoPosts ∅ 5000 alice 10
                    (mkBody (Some " edited ") None)).1.1 = 200) as Hs
    by (vm_compute; reflexivity).
  split; [exact Hs |].
  destruct (updateRoute_effect [alice; bob] twoPosts ∅ 5000 alice 10
              (mkBody (Some " edited ") None)) as [H _].
  destruct (H Hs) as (P & H1 & H2 & _ & H3 & _).
  exists P. split; [exact H1 | split; [exact H2 | exact H3]].
Defined.

(** ** Creating a post succeeds on valid input *)

Lemma getPost_appended (users : list User) (db : list Post) (post : Post) :
  post_id post ∉ post_id <$> db -> isDeleted post = false ->
  getPost users (db ++ [post]) (post_id post)
  = inr (mkResource post (populate users (post_author post))).
Proof.
  intros Hfresh Hdel. unfold getPost.
  induction db as [| d db IH]; simpl.
  - now rewrite equals_refl, Hdel.
  - assert (equals (post_id d) (post_id post) = false) as ->.
    { apply equals_neq. intros E. apply Hfresh. simpl. rewrite E.
      apply list_elem_of_here. }
    simpl. apply IH. intros Hin. apply Hfresh. simpl.
    now apply list_elem_of_further.
Qed.

Lemma validate_newPost (newId : ObjectId) (s : string)
  (images : list string) (author : ObjectId) (now : Z) :
  String.length s <= 500 ->
  Js.trim s <> "" \/ images <> [] ->
  Forall (fun image => Js.httpUrl_test image = true) images ->
  validate (newPost newId (Js.trim s) images author now) = [].
Proof.
  intros Hlen Hsome Hurls. unfold newPost. rewrite trim_idem.
  apply validate_nil. cbn [post_content post_images post_comments].
  repeat split.
  - unfold preValidate. cbn [post_content post_images].
    destruct Hsome as [Hs | Hi].
    + apply truthy_true in Hs. now rewrite Hs.
    + destruct images; [now contradiction Hi |]. simpl.
      now rewrite andb_false_r.
  - pose proof (trim_length s). lia.
  - clear Hsome. induction Hurls as [| image images Hi _ IH]; simpl;
      [reflexivity |].
    unfold validateImage at 1. rewrite Hi, andb_false_r. exact IH.
Qed.

(** X12. The checks of the create route imply those of the schema: with
    content of at most 500 characters, content that is not blank or at
    least one image, at most five images, each a non-empty http(s) URL,
    and the limiter admitting, the route answers 201 and appends exactly
    one post: trimmed content, the given images, the requesting user as
    author, no like, no comment, neither hidden nor deleted, created at
    the time of the request. With a fresh identifier the post can be
    retrieved at once by everybody. *)
Theorem createPostRoute_created (users : list User) (db : list Post)
  (attempts : gmap (N * Z) nat) (now : Z) (U : User) (newId : ObjectId)
  (body : Body) :
  let content := default "" (body_content body) in
  let images := default [] (body_images body) in
  let post :=
    mkPost newId (Js.trim content) images (user_id U) [] [] false false now in
  String.length content <= 500 ->
  Js.trim content <> "" \/ images <> [] ->
  length images <= 5 ->
  Forall (fun image => Js.httpUrl_test image = true) images ->
  (actionRateLimit 20 (60 * 60 * 1000) attempts (user_id U) now).1 = None ->
  (createPostRoute db attempts now U newId body).1
  = (mkResponse 201 "Post created successfully" (WithPost post),
     db ++ [post]) /\
  (newId ∉ post_id <$> db ->
   forall viewer,
     singlePostRoute users (db ++ [post]) viewer newId
     = mkResponse 200 "" (WithPost post)).
Proof.
  intros content images post Hlen Hsome Hfive Hurls Hlim.
  assert (validateRequest createPostValidation body = None) as Hval.
  { unfold createPostValidation. apply validateRequest_content.
    unfold validateField. simpl. subst content.
    destruct (body_content body) as [s |]; simpl in *; [| reflexivity].
    destruct s as [| a s]; simpl in *; [reflexivity |].
    destruct (Nat.ltb_spec 500 (S (String.length s))); [lia | reflexivity]. }
  split.
  - unfold createPostRoute. rewrite Hval, limited_pass by exact Hlim.
    unfold createPostHandler. fold images.
    assert (negb (Js.truthy_opt (Js.trim <$> body_content body)) &&
            Nat.eqb (length images) 0 = false) as ->.
    { destruct Hsome as [Hs | Hi].
      - subst content. destruct (body_content body) as [s |]; simpl in *.
        + apply truthy_true in Hs. now rewrite Hs.
        + now contradiction Hs.
      - destruct images; [now contradiction Hi |]. simpl.
        now rewrite andb_false_r. }
    destruct (Nat.ltb_spec 5 (length images)) as [Hgt | _]; [lia |].
    assert (existsb (fun image => negb (Js.truthy image) ||
                                  negb (Js.httpUrl_test image)) images
            = false) as ->.
    { clear -Hurls. induction Hurls as [| image l Hi _ IH]; simpl;
        [reflexivity |].
      rewrite Hi, IH. destruct image; [discriminate Hi | reflexivity]. }
    assert (newPost newId
              (if Js.truthy_opt (Js.trim <$> body_content body)
               then default "" (Js.trim <$> body_content body) else "")
              images (user_id U) now = post) as ->.
    { unfold newPost. rewrite trim_or_empty. reflexivity. }
    unfold save.
    assert (validate post = []) as ->; [| reflexivity].
    subst post. rewrite <- (trim_idem content).
    now apply (validate_newPost newId content images (user_id U) now).
  - intros Hfresh viewer. unfold singlePostRoute.
    pose proof (getPost_appended users db post Hfresh eq_refl) as Hget.
    change (post_id post) with newId in Hget. rewrite Hget.
    reflexivity.
Qed.

Lemma createPostRoute_created_witness :
  String.length (default "" (body_content (mkBody (Some " hello ") None)))
  <= 500 /\
  (createPostRoute twoPosts ∅ 5000 bob 12 (mkBody (Some " hello ") None)).1
  = (mkResponse 201 "Post created successfully"
       (WithPost (mkPost 12 "hello" [] 2 [] [] false false 5000)),
     twoPosts ++ [mkPost 12 "hello" [] 2 [] [] false false 5000]).
Proof.
  assert (String.length
            (default "" (body_content (mkBody (Some " hello ") None)))
          <= 500) as Hlen by (vm_compute; lia).
  split; [exact Hlen |].
  destruct (createPostRoute_created [alice; bob] twoPosts ∅ 5000 bob 12
              (mkBody (Some " hello ") None)) as [H _].
  - exact Hlen.
  - left. discriminate.
  - simpl. lia.
  - apply Forall_nil_2.
  - vm_compute. reflexivity.
  - exact H.
Defined.

(** ** The rate limiter *)

Lemma cleaned_lookup (attempts : gmap (N * Z) nat) (cw : Z) (k : N * Z) :
  filter (fun kv : N * Z * nat => ¬ (kv.1.2 < cw - 1)%Z) attempts !! k
  = if decide (k.2 < cw - 1)%Z then None else attempts !! k.
Proof.
  rewrite map_lookup_filter. destruct (attempts !! k) as [n |]; simpl.
  - destruct (decide (k.2 < cw - 1)%Z).
    + now rewrite option_guard_False by tauto.
    + now rewrite option_guard_True.
  - now destruct (decide (k.2 < cw - 1)%Z).
Qed.

Lemma actionRateLimit_unfold (maxActions : nat) (windowMs : Z)
  (attempts : gmap (N * Z) nat) (userId : ObjectId) (now : Z) :
  let cw := (now / windowMs)%Z in
  let count := default 0 (attempts !! (userId, cw)) in
  let out := actionRateLimit maxActions windowMs attempts userId now in
  (count < maxActions ->
   out.1 = None /\ out.2 !! (userId, cw) = Some (S count)) /\
  (maxActions <= count ->
   (exists res, out.1 = Some res /\ status res = 429 /\
                payload res
                = WithRetryAfter
                    ((windowMs - now mod windowMs + 999) / 1000)%Z) /\
   out.2 !! (userId, cw) = attempts !! (userId, cw)) /\
  (forall k, k <> (userId, cw) ->
     out.2 !! k = if decide (k.2 < cw - 1)%Z then None else attempts !! k).
Proof.
  intros cw count out. subst out. unfold actionRateLimit. fold cw.
  pose proof (cleaned_lookup attempts cw (userId, cw)) as Hkey.
  destruct (decide ((userId, cw).2 < cw - 1)%Z) as [Hlt | _];
    [simpl in Hlt; lia |].
  rewrite Hkey. fold count.
  destruct (Nat.leb_spec maxActions count) as [Hle | Hgt]; simpl.
  - split; [lia | split].
    + intros _. split; [eexists; repeat split | exact Hkey].
    + intros k _. apply cleaned_lookup.
  - split; [| split; [lia |]].
    + intros _. split; [reflexivity | apply lookup_insert_eq].
    + intros k Hk. rewrite lookup_insert_ne by congruence.
      apply cleaned_lookup.
Qed.

(** X13. The limiter counts admitted requests per user and window: a
    request is admitted exactly when the user has fewer than [maxActions]
    admitted requests in the window of [now], and then the count goes up
    by one; a refused request (429) is not counted. Counts of other users
    and of this user in the previous window are untouched, and entries
    older than the previous window are dropped. *)
Theorem actionRateLimit_counts (maxActions : nat) (windowMs : Z)
  (attempts : gmap (N * Z) nat) (userId : ObjectId) (now : Z) :
  let cw := (now / windowMs)%Z in
  let count := default 0 (attempts !! (userId, cw)) in
  let out := actionRateLimit maxActions windowMs attempts userId now in
  (out.1 = None <-> count < maxActions) /\
  (count < maxActions -> out.2 !! (userId, cw) = Some (S count)) /\
  (maxActions <= count ->
   (exists res, out.1 = Some res /\ status res = 429) /\
   out.2 !! (userId, cw) = attempts !! (userId, cw)) /\
  (forall other w,
     (other, w) <> (userId, cw) ->
     out.2 !! (other, w)
     = if decide (w < cw - 1)%Z then None else attempts !! (other, w)).
Proof.
  intros cw count out.
  destruct (actionRateLimit_unfold maxActions windowMs attempts userId now)
    as (Hadmit & Hrefuse & Hother).
  fold cw count out in Hadmit, Hrefuse, Hother.
  split; [| split; [| split]].
  - split.
    + intros Hnone. destruct (Nat.lt_ge_cases count maxActions) as [H | H];
        [exact H |].
      destruct (Hrefuse H) as [(res & Hres & _) _]. congruence.
    + intros H. now destruct (Hadmit H).
  - intros H. now destruct (Hadmit H).
  - intros H. destruct (Hrefuse H) as [(res & Hres & Hs & _) Hkey].
    split; [eauto | exact Hkey].
  - intros other w Hk. apply (Hother (other, w) Hk).
Qed.

Lemma actionRateLimit_counts_witness :
  default 0 (({[ (2%N, 0%Z) := 1 ]} : gmap (N * Z) nat) !! (2%N, (5000 / 60000)%Z))
  < 2 /\
  (actionRateLimit 2 60000 {[ (2%N, 0%Z) := 1 ]} 2 5000).2 !! (2%N, 0%Z)
  = Some 2.
Proof.
  assert (default 0 (({[ (2%N, 0%Z) := 1 ]} : gmap (N * Z) nat)
                       !! (2%N, (5000 / 60000)%Z)) < 2) as H
    by (vm_compute; lia).
  split; [exact H |].
  destruct (actionRateLimit_counts 2 60000 {[ (2%N, 0%Z) := 1 ]} 2 5000)
    as (_ & Hc & _).
  exact (Hc H).
Defined.

(** X14. Within one window the limiter admits a user at most the quota:
    of any run of requests by one user whose times fall in the same
    window, it admits as many as are left of [maxActions] after the
    admitted requests already counted for that window, and no more. *)
Theorem requests_quota (maxActions : nat) (windowMs : Z)
  (attempts : gmap (N * Z) nat) (userId : ObjectId) (times : list Z)
  (w : Z) :
  Forall (fun now => (now / windowMs)%Z = w) times ->
  (requests maxActions windowMs attempts userId times).1
  = Nat.min (length times)
            (maxActions - default 0 (attempts !! (userId, w))).
Proof.
  intros Hw. revert attempts.
  induction Hw as [| now later Hnow _ IH]; intros attempts;
    cbn [requests length]; [reflexivity |].
  destruct (actionRateLimit_unfold maxActions windowMs attempts userId now)
    as (Hadmit & Hrefuse & _).
  rewrite Hnow in Hadmit, Hrefuse.
  set (count := default 0 (attempts !! (userId, w))) in *.
  destruct (actionRateLimit maxActions windowMs attempts userId now)
    as [[res |] attempts'] eqn:Hcall; cbn [fst snd] in *.
  - destruct (Nat.lt_ge_cases count maxActions) as [H | H].
    + destruct (Hadmit H) as [Hnone _]. discriminate.
    + destruct (Hrefuse H) as [_ Hkey]. rewrite IH, Hkey. fold count. lia.
  - destruct (Nat.lt_ge_cases count maxActions) as [H | H].
    + destruct (Hadmit H) as [_ Hkey].
      specialize (IH attempts'). rewrite Hkey in IH.
      change (default 0 (Some (S count))) with (S count) in IH.
      destruct (requests maxActions windowMs attempts' userId later)
        as [n final]. cbn [fst] in *. subst n. lia.
    + destruct (Hrefuse H) as [(r & Hr & _) _]. discriminate.
Qed.

Lemma requests_quota_witness :
  Forall (fun now => (now / 60000)%Z = 0%Z) [5000; 5001; 5002; 59999]%Z /\
  (requests 2 60000 ∅ 7 [5000; 5001; 5002; 59999]%Z).1 = 2.
Proof.
  assert (Forall (fun now => (now / 60000)%Z = 0%Z)
                 [5000; 5001; 5002; 59999]%Z) as H
    by (repeat constructor).
  split; [exact H |].
  exact (requests_quota 2 60000 ∅ 7 [5000; 5001; 5002; 59999]%Z 0 H).
Defined.

(** X15. A refusal tells how long to wait: the [retryAfter] of a 429 is at
    least one second, and a request made that many seconds later falls
    in a later window. *)
Theorem actionRateLimit_retryAfter (maxActions : nat) (windowMs : Z)
  (attempts : gmap (N * Z) nat) (userId : ObjectId) (now : Z)
  (res : Response) :
  (0 < windowMs)%Z ->
  (actionRateLimit maxActions windowMs attempts userId now).1 = Some res ->
  exists seconds,
    payload res = WithRetryAfter seconds /\ status res = 429 /\
    (1 <= seconds)%Z /\
    (now / windowMs < (now + 1000 * seconds) / windowMs)%Z.
Proof.
  intros Hpos Hres.
  destruct (actionRateLimit_unfold maxActions windowMs attempts userId now)
    as (Hadmit & Hrefuse & _).
  set (count := default 0 (attempts !! (userId, (now / windowMs)%Z))) in *.
  destruct (Nat.lt_ge_cases count maxActions) as [H | H].
  - destruct (Hadmit H) as [Hnone _]. congruence.
  - destruct (Hrefuse H) as [(r & Hr & Hs & Hp) _].
    rewrite Hres in Hr. injection Hr as <-.
    eexists. split; [exact Hp | split; [exact Hs |]].
    pose proof (Z.mod_pos_bound now windowMs Hpos) as Hmod.
    pose proof (Z.div_mod now windowMs ltac:(lia)) as Hdm.
    set (t := (windowMs - now mod windowMs)%Z) in *.
    assert (1 <= t <= windowMs)%Z as Ht by (subst t; lia).
    assert (t <= 1000 * ((t + 999) / 1000))%Z as Hceil.
    { pose proof (Z.div_mod (t + 999) 1000 ltac:(lia)).
      pose proof (Z.mod_pos_bound (t + 999) 1000 ltac:(lia)). lia. }
    split.
    + apply Z.div_le_lower_bound; lia.
    + apply Z.lt_le_trans with (now / windowMs + 1)%Z; [lia |].
      apply Z.div_le_lower_bound; [lia |]. subst t. nia.
Qed.

Lemma actionRateLimit_retryAfter_witness :
  (0 < 60000)%Z /\
  (actionRateLimit 0 60000 ∅ 7 5000).1
  = Some (mkResponse 429 "Too many requests. Please try again later."
            (WithRetryAfter 55)) /\
  exists seconds,
    payload (mkResponse 429 "Too many requests. Please try again later."
               (WithRetryAfter 55)) = WithRetryAfter seconds /\
    (1 <= seconds)%Z.
Proof.
  assert ((actionRateLimit 0 60000 ∅ 7 5000).1
          = Some (mkResponse 429 "Too many requests. Please try again later."
                    (WithRetryAfter 55))) as H by (vm_compute; reflexivity).
  split; [lia | split; [exact H |]].
  destruct (actionRateLimit_retryAfter 0 60000 ∅ 7 5000 _ ltac:(lia) H)
    as (s & H1 & _ & H2 & _).
  exists s. split; [exact H1 | exact H2].
Defined.

(** ** Listings: order and pages *)

Lemma StronglySorted_drop {D} (R : relation D) (n : nat) (l : list D) :
  StronglySorted R l -> StronglySorted R (drop n l).
Proof.
  intros H. revert n. induction H as [| a l Hs IH Hall]; intros [| n];
    simpl; try constructor; auto.
Qed.

Lemma skipLimit_sorted {D} (R : relation D) (skip limit : Z)
  (docs out : list D) :
  StronglySorted R docs -> skipLimit skip limit docs = Ok out ->
  StronglySorted R out.
Proof.
  intros Hs. unfold skipLimit. destruct (skip <? 0)%Z; [discriminate |].
  intros [= <-]. destruct (limit =? 0)%Z.
  - now apply StronglySorted_drop.
  - now apply StronglySorted_take, StronglySorted_drop.
Qed.

Lemma sortRel_stored_recency (sortBy : string) (a b : Post) :
  sortRel storedField (sortCriteria sortBy) a b ->
  (createdAt b <= createdAt a)%Z.
Proof.
  unfold sortCriteria, sortRel, sortLe.
  destruct (String.eqb sortBy "likes"), (String.eqb sortBy "comments");
    simpl;
    destruct (Z.compare_spec (createdAt b) (createdAt a));
    simpl; intros Hle; try lia; contradiction.
Qed.

(** X16. Whatever [sortBy] is given ('createdAt', 'likes', 'comments' or
    anything else), and whatever the page, the posts that
    [findVisiblePosts] returns are in order of creation time, newest
    first. *)
Theorem findVisiblePosts_newest_first (db : list Post) (o : Options)
  (posts : list FeedPost) :
  findVisiblePosts db o = Ok posts ->
  forall i j d1 d2,
    i < j -> posts !! i = Some d1 -> posts !! j = Some d2 ->
    (createdAt (fp_post d2) <= createdAt (fp_post d1))%Z.
Proof.
  rewrite findVisiblePosts_eq. intros H.
  apply bind_Ok in H as (page & Hpage & [= <-]).
  assert (StronglySorted
            (sortRel storedField
               (sortCriteria (default "createdAt" (opt_sortBy o)))) page)
    as Hsorted.
  { eapply skipLimit_sorted; [| exact Hpage]. apply mongoSort_sorted. }
  intros i j d1 d2 Hij H1 H2.
  rewrite list_lookup_fmap in H1, H2.
  destruct (page !! i) as [p1 |] eqn:E1; [| discriminate].
  destruct (page !! j) as [p2 |] eqn:E2; [| discriminate].
  injection H1 as <-. injection H2 as <-. simpl.
  eapply sortRel_stored_recency.
  eapply StronglySorted_lookup; [exact Hsorted | exact Hij | exact E1 |
    exact E2].
Qed.

Lemma findVisiblePosts_newest_first_witness :
  findVisiblePosts twoPosts
    (mkOptions None None None None (Some "comments"))
  = Ok [feedDoc newerUnliked; feedDoc olderLiked] /\
  (createdAt (fp_post (feedDoc olderLiked))
   <= createdAt (fp_post (feedDoc newerUnliked)))%Z.
Proof.
  assert (findVisiblePosts twoPosts
            (mkOptions None None None None (Some "comments"))
          = Ok [feedDoc newerUnliked; feedDoc olderLiked]) as H
    by (vm_compute; reflexivity).
  split; [exact H |].
  apply (findVisiblePosts_newest_first twoPosts _ _ H 0 1); auto.
Defined.

Lemma page_lookup (db : list Post) (page limit : Z)
  (author userId : option ObjectId) (sortBy : option string)
  (posts : list FeedPost) (P : Post) :
  (1 <= page)%Z -> (1 <= limit)%Z ->
  findVisiblePosts db
    (mkOptions (Some page) (Some limit) author userId sortBy) = Ok posts ->
  P ∈ fp_post <$> posts ->
  exists i,
    i < Z.to_nat limit /\
    visibleSorted db author userId (default "createdAt" sortBy)
      !! (Z.to_nat (page - 1) * Z.to_nat limit + i) = Some P.
Proof.
  intros Hp Hl Hfind HP.
  rewrite findVisiblePosts_page in Hfind by assumption.
  injection Hfind as <-.
  apply list_elem_of_fmap in HP as (d & -> & Hd).
  apply list_elem_of_fmap in Hd as (p & -> & Hp'). simpl.
  apply elem_of_take in Hp' as (i & Hi & Hlt).
  rewrite lookup_drop in Hi. eauto.
Qed.

(** Documents that differ in a key: the key tells them apart. *)
Lemma NoDup_fmap_eq {A B} (f : A -> B) (l : list A) (x y : A) :
  NoDup (f <$> l) -> x ∈ l -> y ∈ l -> f x = f y -> x = y.
Proof.
  intros Hnd Hx Hy E.
  apply list_elem_of_lookup in Hx as [i Hi].
  apply list_elem_of_lookup in Hy as [j Hj].
  assert ((f <$> l) !! i = Some (f x)) as Hi'
    by (rewrite list_lookup_fmap, Hi; reflexivity).
  assert ((f <$> l) !! j = Some (f x)) as Hj'
    by (rewrite list_lookup_fmap, Hj, E; reflexivity).
  pose proof (NoDup_lookup _ _ _ _ Hnd Hi' Hj') as ->. congruence.
Qed.

(** Where no two documents tie, a sort has one possible output. *)
Lemma sorted_unique {D} (R : relation D) (l1 l2 : list D) :
  (forall x y, x ∈ l1 -> y ∈ l1 -> R x y -> R y x -> x = y) ->
  StronglySorted R l1 -> StronglySorted R l2 -> l1 ≡ₚ l2 -> l1 = l2.
Proof.
  revert l2. induction l1 as [| x l1 IH]; intros l2 Hanti H1 H2 Hperm.
  - now apply Permutation_nil_l in Hperm.
  - destruct l2 as [| y l2]; [now apply Permutation_nil_r in Hperm |].
    apply StronglySorted_inv in H1 as [H1 Hx].
    apply StronglySorted_inv in H2 as [H2 Hy].
    rewrite Forall_forall in Hx, Hy.
    assert (x = y) as <-.
    { assert (x ∈ y :: l2) as Hxin
        by (rewrite <- Hperm; apply list_elem_of_here).
      assert (y ∈ x :: l1) as Hyin
        by (rewrite Hperm; apply list_elem_of_here).
      apply elem_of_cons in Hxin as [E | Hxin]; [exact E |].
      apply elem_of_cons in Hyin as [E | Hyin]; [now symmetry |].
      apply Hanti.
      - apply list_elem_of_here.
      - now apply list_elem_of_further.
      - now apply Hx.
      - now apply Hy. }
    f_equal. apply IH; [| exact H1 | exact H2 |].
    + intros a b Ha Hb. apply Hanti; now apply list_elem_of_further.
    + now apply Permutation_cons_inv in Hperm.
Qed.

(** X17. Where no two matching posts have the same creation time, the
    order of a listing is fixed by its sort criteria, whatever [sortBy]
    is and in whatever order the server returns ties: every ordering of
    the matching posts that the criteria allow is the sequence that the
    pages are cut from. The pages then partition it: every stored post
    that matches the criteria is on one page and on no other, and no page
    lists a post twice. *)
Theorem post_on_one_page (db : list Post) (author viewerId : option ObjectId)
  (sortBy : option string) (limit : Z) (P : Post) :
  NoDup (createdAt <$> List.filter (matchCriteria author viewerId) db) ->
  (1 <= limit)%Z ->
  P ∈ db -> matchCriteria author viewerId P = true ->
  let page_of := fun page =>
    findVisiblePosts db
      (mkOptions (Some page) (Some limit) author viewerId sortBy) in
  (forall ordering,
      ordering ≡ₚ List.filter (matchCriteria author viewerId) db ->
      StronglySorted
        (sortRel storedField (sortCriteria (default "createdAt" sortBy)))
        ordering ->
      forall page, (1 <= page)%Z ->
        page_of page
        = Ok (feedDoc <$> take (Z.to_nat limit)
                (drop (Z.to_nat (page - 1) * Z.to_nat limit) ordering))) /\
  exists page posts,
    (1 <= page)%Z /\ page_of page = Ok posts /\ P ∈ fp_post <$> posts /\
    NoDup (fp_post <$> posts) /\
    (forall page' posts',
        (1 <= page')%Z -> page_of page' = Ok posts' ->
        P ∈ fp_post <$> posts' -> page' = page).
Proof.
  intros Hnd Hl Hin Hm page_of. subst page_of.
  assert (NoDup (visibleSorted db author viewerId
                   (default "createdAt" sortBy))) as Hseq.
  { unfold visibleSorted. rewrite mongoSort_perm.
    now apply NoDup_fmap_1 in Hnd. }
  split.
  - intros ordering Hperm Hsorted page Hp.
    rewrite findVisiblePosts_page by assumption. do 4 f_equal.
    unfold visibleSorted. symmetry.
    apply (sorted_unique
             (sortRel storedField
                (sortCriteria (default "createdAt" sortBy)))).
    + intros x y Hx Hy Hxy Hyx.
      apply sortRel_stored_recency in Hxy, Hyx.
      rewrite Hperm in Hx, Hy.
      apply (NoDup_fmap_eq createdAt _ x y Hnd Hx Hy). lia.
    + exact Hsorted.
    + apply mongoSort_sorted.
    + rewrite Hperm. symmetry. apply mongoSort_perm.
  - destruct (proj1 (listed_iff_matches db author viewerId sortBy limit P Hl)
                (conj Hin Hm)) as (page & posts & Hp & Hfind & HP).
    exists page, posts. split; [exact Hp | split; [exact Hfind | split;
      [exact HP | split]]].
    + rewrite findVisiblePosts_page in Hfind by assumption.
      injection Hfind as <-. rewrite <- list_fmap_compose.
      rewrite (list_fmap_ext (fp_post ∘ feedDoc) (fun p => p)) by reflexivity.
      rewrite list_fmap_id.
      apply (sublist_NoDup _ _ Hseq).
      etransitivity; [apply sublist_take | apply sublist_drop].
    + intros page' posts' Hp' Hfind' HP'.
      destruct (page_lookup db page limit author viewerId sortBy posts P
                  Hp Hl Hfind HP) as (i & Hi & Hlook).
      destruct (page_lookup db page' limit author viewerId sortBy posts' P
                  Hp' Hl Hfind' HP') as (i' & Hi' & Hlook').
      pose proof (NoDup_lookup _ _ _ _ Hseq Hlook Hlook') as E.
      assert (Z.to_nat (page - 1) = Z.to_nat (page' - 1)) by nia. lia.
Qed.

Lemma post_on_one_page_witness :
  NoDup (createdAt <$> List.filter (matchCriteria None None) twoPosts) /\
  (1 <= 1)%Z /\ olderLiked ∈ twoPosts /\
  matchCriteria None None olderLiked = true /\
  exists page posts,
    (1 <= page)%Z /\
    findVisiblePosts twoPosts
      (mkOptions (Some page) (Some 1%Z) None None None) = Ok posts /\
    olderLiked ∈ fp_post <$> posts.
Proof.
  assert (NoDup (createdAt <$> List.filter (matchCriteria None None) twoPosts))
    as Hnd by decided.
  assert (olderLiked ∈ twoPosts) as Hin by apply list_elem_of_here.
  split; [exact Hnd | split; [lia | split; [exact Hin | split;
    [reflexivity |]]]].
  destruct (post_on_one_page twoPosts None None None 1 olderLiked Hnd
              ltac:(lia) Hin eq_refl)
    as (_ & page & posts & H1 & H2 & H3 & _).
  exists page, posts. split; [exact H1 | split; [exact H2 | exact H3]].
Defined.

(** X18. The listing of one author. The name of the request is looked up
    trimmed, so a name with white space around it finds the account of
    the trimmed name. The route answers 404 with no post exactly when no
    account has the trimmed name; otherwise every listed post is stored,
    not deleted, written by an account with that name, and hidden only if
    the viewer is its author. *)
Theorem userPostsRoute_author (users : list User) (db : list Post)
  (viewer : option User) (name : string) (page limit : option Z) :
  let res := userPostsRoute users db viewer name page limit in
  ((forall u, u ∈ users -> username u <> Js.trim name) ->
   res = mkResponse 404 "User not found" (WithPosts [])) /\
  (status res = 404 ->
   forall u, u ∈ users -> username u <> Js.trim name) /\
  res = userPostsRoute users db viewer (Js.trim name) page limit /\
  (forall P,
     P ∈ listed res ->
     P ∈ db /\ isDeleted P = false /\
     (exists u, u ∈ users /\ username u = Js.trim name /\
                post_author P = user_id u) /\
     (isHidden P = true -> user_id <$> viewer = Some (post_author P))).
Proof.
  intros res. subst res. unfold userPostsRoute. rewrite trim_idem.
  destruct (List.find _ users) as [u |] eqn:Hfind.
  - apply find_some in Hfind as [Hu Hname].
    apply String.eqb_eq in Hname. apply list_elem_of_In in Hu.
    split; [| split; [| split; [reflexivity |]]].
    + intros Hnone. exfalso. now apply (Hnone u).
    + match goal with |- context [findVisiblePosts db ?o] =>
        destruct (findVisiblePosts db o) as [posts | e]; simpl end;
        discriminate.
    + intros P.
      match goal with |- context [findVisiblePosts db ?o] =>
        destruct (findVisiblePosts db o) as [posts | e] eqn:H; simpl end.
      * intros HP. apply list_elem_of_fmap in HP as (d & -> & Hd).
        destruct (findVisiblePosts_listed db _ posts d H Hd)
          as (Hdb & Hm & _). simpl in Hm. unfold matchCriteria in Hm.
        apply andb_true_iff in Hm as [Hm Hvis].
        apply andb_true_iff in Hm as [Hdel Hauth].
        apply negb_true_iff in Hdel. apply equals_eq in Hauth.
        repeat split; auto; [eauto |].
        intros Hh. rewrite Hh in Hvis. destruct viewer as [v |]; simpl in *;
          [| discriminate].
        apply equals_eq in Hvis. congruence.
      * intros HP. now apply elem_of_nil in HP.
  - split; [reflexivity |]. split; [| split; [reflexivity |]].
    + intros _ u Hu Hname. apply list_elem_of_In in Hu.
      pose proof (find_none _ _ Hfind u Hu) as Hneq. simpl in Hneq.
      apply String.eqb_neq in Hneq. contradiction.
    + simpl. intros P HP. now apply elem_of_nil in HP.
Qed.

Lemma userPostsRoute_author_witness :
  (forall u, u ∈ [alice; bob] -> username u <> Js.trim " carol ") /\
  userPostsRoute [alice; bob] twoPosts None " carol " None None
  = mkResponse 404 "User not found" (WithPosts []).
Proof.
  assert (forall u, u ∈ [alice; bob] -> username u <> Js.trim " carol ")
    as H.
  { intros u Hu. apply elem_of_cons in Hu as [-> | Hu]; [discriminate |].
    apply list_elem_of_singleton in Hu. subst u. discriminate. }
  split; [exact H |].
  destruct (userPostsRoute_author [alice; bob] twoPosts None " carol "
              None None) as [H404 _].
  exact (H404 H).
Defined.

(** ** Statistics and deactivation *)

Lemma groupSum_total (values : list nat) :
  default 0 (head (groupSum values)) = list_sum values.
Proof. destruct values; reflexivity. Qed.

Lemma stored_absent (db : list Post) (P' : Post) :
  post_id P' ∉ post_id <$> db -> stored db P' = db.
Proof.
  intros Hnot. unfold stored. rewrite <- (map_id db) at 2.
  apply map_ext_in. intros d Hd.
  destruct (equals (post_id d) (post_id P')) eqn:E; [| reflexivity].
  apply equals_eq in E. exfalso. apply Hnot. rewrite <- E.
  apply list_elem_of_fmap_2. now apply list_elem_of_In.
Qed.

Lemma filter_soft_deleted (db : list Post) (userId : ObjectId) (P : Post) :
  P ∈ db -> NoDup (post_id <$> db) ->
  post_author P = userId -> isDeleted P = false ->
  exists l1 l2,
    List.filter (fun p => equals (post_author p) userId &&
                          negb (isDeleted p)) db = l1 ++ P :: l2 /\
    List.filter (fun p => equals (post_author p) userId &&
                          negb (isDeleted p))
                (stored db (set_isDeleted true P)) = l1 ++ l2.
Proof.
  intros Hin Hnd Hauthor Hdel.
  induction db as [| d db IH]; [now apply elem_of_nil in Hin |].
  rewrite fmap_cons in Hnd. apply NoDup_cons in Hnd as [Hfresh Hnd].
  unfold stored. cbn [map List.filter].
  fold (stored db (set_isDeleted true P)).
  apply elem_of_cons in Hin as [<- | Hin].
  - exists [], (List.filter (fun p => equals (post_author p) userId &&
                                       negb (isDeleted p)) db).
    change (post_id (set_isDeleted true P)) with (post_id P).
    rewrite equals_refl. cbn [isDeleted post_author set_isDeleted].
    rewrite Hauthor, equals_refl, Hdel. cbn [negb andb app].
    rewrite (stored_absent db (set_isDeleted true P)) by exact Hfresh.
    split; reflexivity.
  - assert (equals (post_id d) (post_id (set_isDeleted true P)) = false)
      as ->.
    { apply equals_neq. intros Heq. apply Hfresh.
      change (post_id (set_isDeleted true P)) with (post_id P) in Heq.
      rewrite Heq. now apply list_elem_of_fmap_2. }
    destruct (IH Hin Hnd) as (l1 & l2 & H1 & H2). rewrite H1, H2.
    destruct (equals (post_author d) userId && negb (isDeleted d)).
    + exists (d :: l1), l2. split; reflexivity.
    + exists l1, l2. split; reflexivity.
Qed.

(** X19. The statistics of a user count the posts that are not deleted,
    hidden ones included, and sum their likes and comments; hiding posts
    changes none of the three numbers, and the soft delete of a post of
    the user takes one post, its likes and its comments off them. *)
Theorem userStats_counts (db : list Post) (userId : ObjectId) :
  let counted :=
    List.filter (fun p => equals (post_author p) userId &&
                          negb (isDeleted p)) db in
  userStats db userId
  = mkStats (length counted) (list_sum (likesCount <$> counted))
            (list_sum (commentsCount <$> counted)) /\
  (forall other, userStats (hidePostsOf db other) userId
                 = userStats db userId) /\
  (forall P,
     P ∈ db -> NoDup (post_id <$> db) ->
     post_author P = userId -> isDeleted P = false ->
     let after := userStats (stored db (set_isDeleted true P)) userId in
     postsCount (userStats db userId) = S (postsCount after) /\
     totalLikesReceived (userStats db userId)
     = likesCount P + totalLikesReceived after /\
     totalCommentsReceived (userStats db userId)
     = commentsCount P + totalCommentsReceived after).
Proof.
  intros counted. subst counted.
  assert (forall l, userStats l userId
    = mkStats
        (length (List.filter (fun p => equals (post_author p) userId &&
                                       negb (isDeleted p)) l))
        (list_sum (likesCount <$>
           List.filter (fun p => equals (post_author p) userId &&
                                 negb (isDeleted p)) l))
        (list_sum (commentsCount <$>
           List.filter (fun p => equals (post_author p) userId &&
                                 negb (isDeleted p)) l))) as Hstats.
  { intros l. unfold userStats. now rewrite !groupSum_total. }
  split; [apply Hstats | split].
  - intros other. rewrite !Hstats.
    assert (forall g : Post -> nat,
              (forall p, g (set_isHidden true p) = g p) ->
              g <$> List.filter (fun p => equals (post_author p) userId &&
                                          negb (isDeleted p))
                                (hidePostsOf db other)
              = g <$> List.filter (fun p => equals (post_author p) userId &&
                                            negb (isDeleted p)) db) as Hmap.
    { intros g Hg. unfold hidePostsOf.
      induction db as [| d db IH]; [reflexivity |].
      cbn [map List.filter].
      set (d' := if equals (post_author d) other then set_isHidden true d
                 else d).
      assert (equals (post_author d') userId && negb (isDeleted d')
              = equals (post_author d) userId && negb (isDeleted d)) as ->
        by (subst d'; now destruct (equals (post_author d) other)).
      assert (g d' = g d) as Hd
        by (subst d'; destruct (equals (post_author d) other); auto).
      destruct (equals (post_author d) userId && negb (isDeleted d));
        [| exact IH].
      rewrite !fmap_cons, Hd. f_equal. exact IH. }
    rewrite (Hmap likesCount), (Hmap commentsCount) by reflexivity.
    f_equal.
    rewrite <- (length_fmap likesCount), (Hmap likesCount) by reflexivity.
    apply length_fmap.
  - intros P Hin Hnd Hauthor Hdel after. subst after. rewrite !Hstats.
    cbn [postsCount totalLikesReceived totalCommentsReceived].
    destruct (filter_soft_deleted db userId P Hin Hnd Hauthor Hdel)
      as (l1 & l2 & -> & ->).
    rewrite !fmap_app, !fmap_cons, !list_sum_app, !length_app.
    simpl. repeat split; lia.
Qed.

Lemma userStats_counts_witness :
  olderLiked ∈ twoPosts /\ NoDup (post_id <$> twoPosts) /\
  post_author olderLiked = 1%N /\ isDeleted olderLiked = false /\
  postsCount (userStats twoPosts 1)
  = S (postsCount (userStats (stored twoPosts (set_isDeleted true olderLiked))
                             1)).
Proof.
  assert (olderLiked ∈ twoPosts) as Hin by apply list_elem_of_here.
  assert (NoDup (post_id <$> twoPosts)) as Hnd by decided.
  split; [exact Hin | split; [exact Hnd | split; [reflexivity | split;
    [reflexivity |]]]].
  destruct (userStats_counts twoPosts 1) as (_ & _ & H).
  destruct (H olderLiked Hin Hnd eq_refl eq_refl) as [H1 _]. exact H1.
Defined.

(** X20. Deactivating an account hides every post of the user and touches
    no post of anybody else; afterwards no listing shows a post of the
    user to any other viewer or to the anonymous one, the trending
    listing shows none to anybody, and single-post retrieval of such a
    post never answers 200 to anybody else. *)
Theorem hidePostsOf_hides (users : list User) (db : list Post)
  (userId : ObjectId) :
  let db1 := hidePostsOf db userId in
  post_id <$> db1 = post_id <$> db /\
  (forall P, P ∈ db1 -> post_author P = userId -> isHidden P = true) /\
  (forall Q, Q ∈ db -> post_author Q <> userId -> Q ∈ db1) /\
  (forall o posts d,
     opt_userId o <> Some userId ->
     findVisiblePosts db1 o = Ok posts -> d ∈ posts ->
     post_author (fp_post d) <> userId) /\
  (forall now viewer limit P,
     P ∈ listed (trendingRoute users db1 now viewer limit) ->
     post_author P <> userId) /\
  (forall P viewer,
     P ∈ db1 -> NoDup (post_id <$> db) -> post_author P = userId ->
     user_id <$> viewer <> Some userId ->
     status (singlePostRoute users db1 viewer (post_id P)) <> 200).
Proof.
  intros db1.
  assert (post_id <$> db1 = post_id <$> db) as Hids.
  { subst db1. unfold hidePostsOf. induction db as [| d db IH]; simpl;
      [reflexivity |].
    f_equal; [| exact IH]. now destruct (equals (post_author d) userId). }
  assert (forall P, P ∈ db1 -> post_author P = userId -> isHidden P = true)
    as Hhidden.
  { intros P HP Hauthor. subst db1. unfold hidePostsOf in HP.
    apply list_elem_of_fmap in HP as (d & -> & _).
    destruct (equals (post_author d) userId) eqn:E; [reflexivity |].
    apply equals_neq in E. contradiction. }
  split; [exact Hids | split; [exact Hhidden | split; [| split; [| split]]]].
  - intros Q HQ Hne. subst db1. unfold hidePostsOf.
    apply list_elem_of_fmap. exists Q. split; [| exact HQ].
    assert (equals (post_author Q) userId = false) as ->
      by now apply equals_neq.
    reflexivity.
  - intros o posts d Hviewer Hfind Hd Hauthor.
    destruct (findVisiblePosts_listed db1 o posts d Hfind Hd)
      as (Hdb & Hm & _).
    pose proof (Hhidden _ Hdb Hauthor) as Hh.
    unfold matchCriteria in Hm. rewrite Hh in Hm.
    apply andb_true_iff in Hm as [_ Hvis].
    destruct (opt_userId o) as [v |]; simpl in Hvis; [| discriminate].
    apply equals_eq in Hvis. congruence.
  - intros now viewer limit P HP Hauthor.
    apply listed_trendingRoute in HP as (Hdb & _ & Hh & _).
    rewrite (Hhidden P Hdb Hauthor) in Hh. discriminate.
  - intros P viewer HP Hnd Hauthor Hviewer. unfold singlePostRoute.
    destruct (getPost users db1 (post_id P)) as [res | post] eqn:Hget.
    + apply getPost_inl in Hget. subst res. discriminate.
    + apply getPost_inr in Hget as (Hdb & Hid & _ & Ha).
      assert (doc post = P) as E
        by (apply (unique_post_id db1); [now rewrite Hids | | |]; auto).
      unfold hiddenFromViewer, authorEquals. rewrite E, Ha, E.
      rewrite (Hhidden P HP Hauthor).
      destruct viewer as [v |]; simpl; [| discriminate].
      destruct (populate users (post_author P)) as [a |] eqn:Hp; simpl;
        [| discriminate].
      apply populate_Some in Hp.
      assert (equals (user_id a) (user_id v) = false) as ->.
      { apply equals_neq. simpl in Hviewer. congruence. }
      discriminate.
Qed.

Lemma hidePostsOf_hides_witness :
  olderLiked ∈ twoPosts /\
  (forall P, P ∈ hidePostsOf twoPosts 1 -> post_author P = 1%N ->
             isHidden P = true) /\
  forall o posts d,
    opt_userId o <> Some 1%N ->
    findVisiblePosts (hidePostsOf twoPosts 1) o = Ok posts -> d ∈ posts ->
    post_author (fp_post d) <> 1%N.
Proof.
  split; [apply list_elem_of_here |].
  destruct (hidePostsOf_hides [alice; bob] twoPosts 1) as (_ & H1 & _ & H2 & _).
  split; [exact H1 | exact H2].
Defined.

(** ** Edges of the listings *)

(** X21. Out-of-range paging is a server error, not an empty page: the
    feed and the per-author listing (asked for a name that, trimmed, is
    the name of an account) answer 500 with an empty list for a page
    below 1 (with a positive limit), and the trending listing answers 500
    for a limit below 1. *)
Theorem listing_out_of_range (users : list User) (db : list Post)
  (viewer : option User) :
  (forall page limit sortBy,
     (page < 1)%Z -> (1 <= limit)%Z ->
     feedRoute db viewer (Some page) (Some limit) sortBy
     = mkResponse 500 "Failed to fetch posts" (WithPosts [])) /\
  (forall page limit name u,
     (page < 1)%Z -> (1 <= limit)%Z ->
     u ∈ users -> username u = Js.trim name ->
     userPostsRoute users db viewer name (Some page) (Some limit)
     = mkResponse 500 "Failed to fetch user posts" (WithPosts [])) /\
  (forall now limit,
     (limit < 1)%Z ->
     trendingRoute users db now viewer (Some limit)
     = mkResponse 500 "Error fetching trending posts" NoPayload).
Proof.
  assert (forall o page limit,
            opt_page o = Some page -> opt_limit o = Some limit ->
            (page < 1)%Z -> (1 <= limit)%Z ->
            exists e, findVisiblePosts db o = Throw e) as Hthrow.
  { intros o page limit Hpage Hlimit Hp Hl. rewrite findVisiblePosts_eq.
    rewrite Hpage, Hlimit. unfold skipLimit.
    change (default 1%Z (Some page)) with page.
    change (default 10%Z (Some limit)) with limit.
    destruct (Z.ltb_spec ((page - 1) * limit) 0) as [_ | Hge]; [| nia].
    eexists. reflexivity. }
  split; [| split].
  - intros page limit sortBy Hp Hl. unfold feedRoute.
    match goal with |- context [findVisiblePosts db ?o] =>
      destruct (Hthrow o page limit eq_refl eq_refl Hp Hl) as [e He] end.
    now rewrite He.
  - intros page limit name u Hp Hl Hu Hname. unfold userPostsRoute.
    destruct (List.find _ users) as [found |] eqn:Hfind.
    + match goal with |- context [findVisiblePosts db ?o] =>
        destruct (Hthrow o page limit eq_refl eq_refl Hp Hl) as [e He] end.
      now rewrite He.
    + apply list_elem_of_In in Hu. apply (find_none _ _ Hfind) in Hu.
      simpl in Hu. rewrite Hname, String.eqb_refl in Hu. discriminate.
  - intros now limit Hl. unfold trendingRoute.
    change (default 10%Z (Some limit)) with limit.
    destruct (Z.leb_spec limit 0) as [_ | Hgt]; [reflexivity | lia].
Qed.

Lemma listing_out_of_range_witness :
  (0 < 1)%Z /\ (1 <= 10)%Z /\
  feedRoute twoPosts None (Some 0%Z) (Some 10%Z) None
  = mkResponse 500 "Failed to fetch posts" (WithPosts []).
Proof.
  split; [lia | split; [lia |]].
  destruct (listing_out_of_range [alice; bob] twoPosts None) as [H _].
  apply H; lia.
Defined.

(** X22. [hasMore] is a guess: when the number of matching posts is a
    multiple [k] (at least one) of the page size, page [k] is full and
    the feed reports [hasMore] for it, although page [k + 1] is empty
    (and reports no more). *)
Theorem feedRoute_hasMore_guess (db : list Post) (viewer : option User)
  (sortBy : option string) (limit k : Z) :
  (1 <= limit)%Z -> (1 <= k)%Z ->
  length (visibleSorted db None (user_id <$> viewer)
            (default "createdAt" sortBy))
  = Z.to_nat k * Z.to_nat limit ->
  (exists posts,
      length posts = Z.to_nat limit /\
      feedRoute db viewer (Some k) (Some limit) sortBy
      = mkResponse 200 "" (WithPage posts k (Z.to_nat limit) true)) /\
  feedRoute db viewer (Some (k + 1)%Z) (Some limit) sortBy
  = mkResponse 200 "" (WithPage [] (k + 1) 0 false).
Proof.
  intros Hl Hk Hlen.
  set (seq := visibleSorted db None (user_id <$> viewer)
                (default "createdAt" sortBy)) in *.
  assert (length (feedDoc <$>
                    take (Z.to_nat limit)
                      (drop (Z.to_nat (k - 1) * Z.to_nat limit) seq))
          = Z.to_nat limit) as E.
  { rewrite length_fmap, length_take, length_drop, Hlen.
    assert (1 <= Z.to_nat k) by lia.
    assert (Z.to_nat (k - 1) = Z.to_nat k - 1) as -> by lia. nia. }
  split.
  - exists (feedDoc <$>
              take (Z.to_nat limit)
                (drop (Z.to_nat (k - 1) * Z.to_nat limit) seq)).
    split; [exact E |]. unfold feedRoute.
    cbn [default from_option Datatypes.id].
    rewrite (findVisiblePosts_page db k limit None (user_id <$> viewer)
               (Some (default "createdAt" sortBy)) Hk Hl).
    cbn [default from_option Datatypes.id]. fold seq.
    rewrite E. f_equal. f_equal. apply Z.eqb_eq. lia.
  - unfold feedRoute. cbn [default from_option Datatypes.id].
    rewrite (findVisiblePosts_page db (k + 1) limit None (user_id <$> viewer)
               (Some (default "createdAt" sortBy))) by lia.
    cbn [default from_option Datatypes.id]. fold seq.
    rewrite drop_ge by (rewrite Hlen; nia). rewrite take_nil.
    change (feedDoc <$> []) with (@nil FeedPost). cbn [length].
    f_equal. f_equal. apply Z.eqb_neq. lia.
Qed.

Lemma feedRoute_hasMore_guess_witness :
  (1 <= 2)%Z /\ (1 <= 1)%Z /\
  length (visibleSorted twoPosts None None "createdAt")
  = Z.to_nat 1 * Z.to_nat 2 /\
  feedRoute twoPosts None (Some 2%Z) (Some 2%Z) None
  = mkResponse 200 "" (WithPage [] 2 0 false).
Proof.
  split; [lia | split; [lia | split; [vm_compute; reflexivity |]]].
  destruct (feedRoute_hasMore_guess twoPosts None None 2 1) as [_ H].
  - lia.
  - lia.
  - vm_compute. reflexivity.
  - exact H.
Defined.
